(** * Tribler tunnel community: a shallow embedding of
      [Tribler/community/tunnel/tunnel_community.py]

    The development follows the Python module top to bottom: the exit
    socket ([TunnelExitSocket]), the settings, and the community
    ([TunnelCommunity]) with its routing tables, the sweeper, teardown,
    the relay decision, the [create]/[destroy] handlers and the layered
    encryption.  Dictionaries are [gmap]s, sets are [gset]s, Python 2
    byte strings are [string]s, Python integers are [Z].  Exit sockets are
    objects that outlive their entry in [exit_sockets] (Twisted keeps the
    protocol object), so they live in an object store and the table holds
    references. *)

From Stdlib Require Import ZArith String List.
From stdpp Require Import base decidable option list gmap strings fin_maps fin_sets sorting.

Local Open Scope Z_scope.

(** ** Plain data *)

(** A transport address, the Python tuple [(host, port)]. *)
Definition SockAddr : Type := string * Z.

(** Clock readings ([time.time()]), in seconds, kept exact. *)
Definition Time : Type := Z.

(** Modelled from the spec: the constants [ORIGINATOR] and [EXIT_NODE] of
    [Tribler.community.tunnel], "the two key/salt indices of a session-key
    quadruple".  [ORIGINATOR] is index 0 and [EXIT_NODE] index 1. *)
Inductive Direction := ORIGINATOR | EXIT_NODE.

#[global] Instance Direction_eq_dec : EqDecision Direction.
Proof. solve_decision. Defined.

(** [int(b)] used as an index into a key list. *)
Definition dir_of_bool (b : bool) : Direction :=
  if b then EXIT_NODE else ORIGINATOR.

(** Modelled from the spec: the session-key list
    [[K_0, K_1, salt_0, salt_1, salt_explicit_0, salt_explicit_1]] built by
    [TunnelCrypto.generate_session_keys]; [keys[d]], [keys[d + 2]] and
    [keys[d + 4]] are read through the accessors below. *)
Record SessionKeys := mkSessionKeys {
  key_originator : string;
  key_exit : string;
  salt_originator : string;
  salt_exit : string;
  salt_explicit_originator : Z;
  salt_explicit_exit : Z
}.

Definition sk_key (k : SessionKeys) (d : Direction) : string :=
  match d with ORIGINATOR => key_originator k | EXIT_NODE => key_exit k end.

Definition sk_salt (k : SessionKeys) (d : Direction) : string :=
  match d with ORIGINATOR => salt_originator k | EXIT_NODE => salt_exit k end.

Definition sk_salt_explicit (k : SessionKeys) (d : Direction) : Z :=
  match d with
  | ORIGINATOR => salt_explicit_originator k
  | EXIT_NODE => salt_explicit_exit k
  end.

(** [keys[direction + 4] += 1] *)
Definition sk_bump (k : SessionKeys) (d : Direction) : SessionKeys :=
  match d with
  | ORIGINATOR =>
      mkSessionKeys (key_originator k) (key_exit k) (salt_originator k) (salt_exit k)
                    (salt_explicit_originator k + 1) (salt_explicit_exit k)
  | EXIT_NODE =>
      mkSessionKeys (key_originator k) (key_exit k) (salt_originator k) (salt_exit k)
                    (salt_explicit_originator k) (salt_explicit_exit k + 1)
  end.

(** [TunnelCommunity.get_session_keys]: bumps the explicit salt in place and
    returns [(key, salt, salt_explicit)]; the updated list is returned too. *)
Definition get_session_keys (keys : SessionKeys) (direction : Direction)
  : SessionKeys * (string * string * Z) :=
  let keys' := sk_bump keys direction in
  (keys', (sk_key keys' direction, sk_salt keys' direction,
           sk_salt_explicit keys' direction)).

(** Modelled from the spec: circuit types and states of
    [Tribler.community.tunnel]. *)
Inductive CircuitType := CIRCUIT_TYPE_DATA | CIRCUIT_TYPE_RP | CIRCUIT_TYPE_RENDEZVOUS.

Inductive CircuitState := CIRCUIT_STATE_EXTENDING | CIRCUIT_STATE_READY | CIRCUIT_STATE_BROKEN.

#[global] Instance CircuitType_eq_dec : EqDecision CircuitType.
Proof. solve_decision. Defined.

#[global] Instance CircuitState_eq_dec : EqDecision CircuitState.
Proof. solve_decision. Defined.

(** Modelled from the spec: [routing.Hop], reduced to what this module
    reads of a verified hop. *)
Record Hop := mkHop {
  hop_address : SockAddr;
  hop_public_key : string;
  hop_session_keys : SessionKeys
}.

(** Modelled from the spec: [routing.Circuit] (initiator side). *)
Record Circuit := mkCircuit {
  c_circuit_id : Z;
  c_goal_hops : Z;
  c_first_hop : SockAddr;
  c_ctype : CircuitType;
  c_state : CircuitState;
  c_hops : list Hop;
  c_creation_time : Time;
  c_last_incoming : Time;
  c_bytes_up : Z;
  c_bytes_down : Z;
  c_hs_session_keys : option SessionKeys
}.

(** Modelled from the spec: [routing.RelayRoute]. *)
Record RelayRoute := mkRelayRoute {
  r_circuit_id : Z;
  r_sock_addr : SockAddr;
  r_rendezvous_relay : bool;
  r_creation_time : Time;
  r_last_incoming : Time;
  r_bytes_up : Z;
  r_bytes_down : Z
}.

(** [class TunnelExitSocket]: [port] is [None] until [enable]; [ips] is the
    [defaultdict(int)] of the abuse counter. *)
Record TunnelExitSocket := mkExitSocket {
  es_port : option Z;
  es_sock_addr : SockAddr;
  es_circuit_id : Z;
  es_ips : gmap SockAddr Z;
  es_bytes_up : Z;
  es_bytes_down : Z;
  es_creation_time : Time;
  es_mid : option string
}.

(** [class TunnelSettings] (the numeric fields). *)
Record TunnelSettings := mkSettings {
  min_circuits : Z;
  max_circuits : Z;
  max_relays_or_exits : Z;
  max_time : Z;
  max_time_inactive : Z;
  max_traffic : Z;
  max_packets_without_reply : Z;
  become_exitnode : bool
}.

(** [TunnelSettings.__init__] without a session. *)
Definition default_settings : TunnelSettings :=
  {| min_circuits := 4;
     max_circuits := 8;
     max_relays_or_exits := 100;
     max_time := 10 * 60;
     max_time_inactive := 20;
     max_traffic := 55 * 1024 * 1024;
     max_packets_without_reply := 50;
     become_exitnode := false |}.

(** [class ExitCandidate] *)
Record ExitCandidate := mkExitCandidate {
  ec_become_exit : bool;
  ec_creation_time : Time
}.

(** A dispersy candidate as this module uses it: its address and, when
    known, its member's [(mid, public_key)]. *)
Record Candidate := mkCandidate {
  cand_sock_addr : SockAddr;
  cand_member : option (string * string)
}.

(** The keys a Python dictionary of relays can be probed with: the integer
    circuit ids the handlers store, and the [(sock_addr, circuit_id)] tuples
    [_generate_circuit_id] looks for. *)
Definition PyKey : Type := Z + (SockAddr * Z).

Definition ikey (circuit_id : Z) : PyKey := inl circuit_id.
Definition tkey (neighbour : SockAddr) (circuit_id : Z) : PyKey := inr (neighbour, circuit_id).

(** Payloads of the cells this development sends. *)
Inductive Payload :=
| CreatePayload (circuit_id : Z) (node_id node_public_key key : string)
| CreatedPayload (circuit_id : Z) (key auth candidate_list : string)
| DestroyPayload (circuit_id reason : Z).

(** What the node handed to the outside: [endpoint.send] with the candidates,
    the message type and the packet, or a datagram written by an exit
    socket's transport. *)
Inductive Sent :=
| SentPacket (candidates : list SockAddr) (message_type : string) (packet : string)
| SentDatagram (sock : nat) (data : string) (destination : SockAddr).

(** Entries of the request cache this development installs. *)
Record CreatedRequestCache := mkCreatedRequestCache {
  crc_circuit_id : Z;
  crc_candidate : Candidate;
  crc_candidates : gmap string Candidate
}.

(** ** Exceptions

    Code that can raise runs in a state monad with errors; the state
    reached when the exception leaves is kept, as in Python. *)
Inductive Exn :=
| CryptoException
| KeyError
| AttributeError
| TypeError
| OtherError.

Inductive Outcome (A : Type) :=
| Return (a : A)
| Raise (e : Exn).
Arguments Return {A} a.
Arguments Raise {A} e.

(** ** Collaborators

    The crypto primitives, the wire codec and the SOCKS5/libtorrent side
    are other modules; the community reaches them through this interface. *)
Class Collaborators := {
  (** state of the SOCKS5 server, libtorrent and the notifier *)
  Ext : Type;
  (** [circuit.destroy()], [socks_server.circuit_dead(circuit)] and the
      re-adding of BitTorrent peers; the flag says whether active data
      circuits remain *)
  circuit_dead : Circuit -> bool -> Ext -> Ext;
  (** [notifier.notify(NTFY_TUNNEL, NTFY_JOINED, sock_addr, circuit_id)] *)
  notify_joined : SockAddr -> Z -> Ext -> Ext;
  (** [crypto.encrypt_str(content, key, salt, salt_explicit)] *)
  encrypt_str : string -> string -> string -> Z -> string;
  (** [crypto.decrypt_str(content, key, salt)]; [None] is [CryptoException] *)
  decrypt_str : string -> string -> string -> option string;
  (** [crypto.generate_diffie_shared_secret(dh_first_part)] *)
  generate_diffie_shared_secret : string -> string * string * string;
  (** [crypto.generate_session_keys(shared_secret)] *)
  generate_session_keys : string -> SessionKeys;
  (** [meta.impl(...).packet] for a message name and payload *)
  impl_packet : string -> Payload -> string;
  (** [TunnelConversion.convert_to_cell] *)
  convert_to_cell : string -> string;
  (** [TunnelConversion.split_encrypted_packet(packet, message_type)] *)
  split_encrypted_packet : string -> string -> string * string;
  (** [TunnelConversion.swap_circuit_id(packet, message_type, old, new)] *)
  swap_circuit_id : string -> string -> Z -> Z -> string;
  (** [TunnelConversion.is_allowed] *)
  is_allowed : string -> bool;
  (** [dispersy.util.is_valid_address] *)
  is_valid_address : SockAddr -> bool;
  (** [socket.gethostbyname]; [None] when resolution fails *)
  gethostbyname : string -> option string;
  (** [encode(candidates.keys())] *)
  encode_keys : list string -> string;
  (** [mid.encode('hex')] *)
  encode_hex : string -> string;
  (** whether [transport.write(data, address)] succeeds *)
  transport_write : string -> SockAddr -> bool
}.

Section Community.
Context `{Collab : Collaborators}.

(** ** The node *)

(** The attributes of [TunnelCommunity] (and of the overlay it reads):
    [sockets] is the store of exit-socket objects, [exit_sockets] maps a
    circuit id to a reference into it; [outbox] collects what was sent,
    newest first. *)
Record State := mkState {
  settings : TunnelSettings;
  circuits : gmap Z Circuit;
  directions : gmap Z Direction;
  relay_from_to : gmap PyKey RelayRoute;
  relay_session_keys : gmap Z SessionKeys;
  waiting_for : gset Z;
  exit_sockets : gmap Z nat;
  sockets : gmap nat TunnelExitSocket;
  exit_candidates : gmap string ExitCandidate;
  request_cache : gmap (string * Z) CreatedRequestCache;
  stats : gmap string Z;
  verified_candidates : list Candidate;
  has_notifier : bool;
  outbox : list Sent;
  ext : Ext
}.

Definition set_circuits (v : gmap Z Circuit) (st : State) : State :=
  mkState (settings st) v (directions st) (relay_from_to st) (relay_session_keys st)
          (waiting_for st) (exit_sockets st) (sockets st) (exit_candidates st)
          (request_cache st) (stats st) (verified_candidates st) (has_notifier st)
          (outbox st) (ext st).

Definition set_directions (v : gmap Z Direction) (st : State) : State :=
  mkState (settings st) (circuits st) v (relay_from_to st) (relay_session_keys st)
          (waiting_for st) (exit_sockets st) (sockets st) (exit_candidates st)
          (request_cache st) (stats st) (verified_candidates st) (has_notifier st)
          (outbox st) (ext st).

Definition set_relay_from_to (v : gmap PyKey RelayRoute) (st : State) : State :=
  mkState (settings st) (circuits st) (directions st) v (relay_session_keys st)
          (waiting_for st) (exit_sockets st) (sockets st) (exit_candidates st)
          (request_cache st) (stats st) (verified_candidates st) (has_notifier st)
          (outbox st) (ext st).

Definition set_relay_session_keys (v : gmap Z SessionKeys) (st : State) : State :=
  mkState (settings st) (circuits st) (directions st) (relay_from_to st) v
          (waiting_for st) (exit_sockets st) (sockets st) (exit_candidates st)
          (request_cache st) (stats st) (verified_candidates st) (has_notifier st)
          (outbox st) (ext st).

Definition set_exit_sockets (v : gmap Z nat) (st : State) : State :=
  mkState (settings st) (circuits st) (directions st) (relay_from_to st)
          (relay_session_keys st) (waiting_for st) v (sockets st) (exit_candidates st)
          (request_cache st) (stats st) (verified_candidates st) (has_notifier st)
          (outbox st) (ext st).

Definition set_sockets (v : gmap nat TunnelExitSocket) (st : State) : State :=
  mkState (settings st) (circuits st) (directions st) (relay_from_to st)
          (relay_session_keys st) (waiting_for st) (exit_sockets st) v (exit_candidates st)
          (request_cache st) (stats st) (verified_candidates st) (has_notifier st)
          (outbox st) (ext st).

Definition set_exit_candidates (v : gmap string ExitCandidate) (st : State) : State :=
  mkState (settings st) (circuits st) (directions st) (relay_from_to st)
          (relay_session_keys st) (waiting_for st) (exit_sockets st) (sockets st) v
          (request_cache st) (stats st) (verified_candidates st) (has_notifier st)
          (outbox st) (ext st).

Definition set_request_cache (v : gmap (string * Z) CreatedRequestCache) (st : State) : State :=
  mkState (settings st) (circuits st) (directions st) (relay_from_to st)
          (relay_session_keys st) (waiting_for st) (exit_sockets st) (sockets st)
          (exit_candidates st) v (stats st) (verified_candidates st) (has_notifier st)
          (outbox st) (ext st).

Definition set_stats (v : gmap string Z) (st : State) : State :=
  mkState (settings st) (circuits st) (directions st) (relay_from_to st)
          (relay_session_keys st) (waiting_for st) (exit_sockets st) (sockets st)
          (exit_candidates st) (request_cache st) v (verified_candidates st)
          (has_notifier st) (outbox st) (ext st).

Definition set_outbox (v : list Sent) (st : State) : State :=
  mkState (settings st) (circuits st) (directions st) (relay_from_to st)
          (relay_session_keys st) (waiting_for st) (exit_sockets st) (sockets st)
          (exit_candidates st) (request_cache st) (stats st) (verified_candidates st)
          (has_notifier st) v (ext st).

Definition set_ext (v : Ext) (st : State) : State :=
  mkState (settings st) (circuits st) (directions st) (relay_from_to st)
          (relay_session_keys st) (waiting_for st) (exit_sockets st) (sockets st)
          (exit_candidates st) (request_cache st) (stats st) (verified_candidates st)
          (has_notifier st) (outbox st) v.

(** ** The handler monad *)

Definition M (A : Type) : Type := State -> Outcome A * State.

Definition ret {A} (a : A) : M A := fun st => (Return a, st).

Definition raise {A} (e : Exn) : M A := fun st => (Raise e, st).

Definition bind {A B} (m : M A) (k : A -> M B) : M B :=
  fun st =>
    match m st with
    | (Return a, st') => k a st'
    | (Raise e, st') => (Raise e, st')
    end.

Definition gets {A} (f : State -> A) : M A := fun st => (Return (f st), st).

Definition modify (f : State -> State) : M unit := fun st => (Return tt, f st).

(** [try: m except CryptoException, e: handler] *)
Definition catch_crypto {A} (m : M A) (handler : M A) : M A :=
  fun st =>
    match m st with
    | (Raise CryptoException, st') => handler st'
    | r => r
    end.

(** [try: m except: handler] *)
Definition catch_all {A} (m : M A) (handler : M A) : M A :=
  fun st =>
    match m st with
    | (Raise _, st') => handler st'
    | r => r
    end.

End Community.

Notation "'let*' x ':=' m 'in' k" := (bind m (fun x => k))
  (at level 10, x name, m at level 100, k at level 200).
Notation "'run' m 'then' k" := (bind m (fun _ => k))
  (at level 10, m at level 100, k at level 200).

Section Operations.
Context `{Collab : Collaborators}.

(** Python [len] of a byte string. *)
Definition len (s : string) : Z := Z.of_nat (String.length s).

(** ** [class TunnelExitSocket] *)

Definition es_set_port (p : option Z) (s : TunnelExitSocket) : TunnelExitSocket :=
  mkExitSocket p (es_sock_addr s) (es_circuit_id s) (es_ips s) (es_bytes_up s)
               (es_bytes_down s) (es_creation_time s) (es_mid s).

Definition es_set_ips (ips : gmap SockAddr Z) (s : TunnelExitSocket) : TunnelExitSocket :=
  mkExitSocket (es_port s) (es_sock_addr s) (es_circuit_id s) ips (es_bytes_up s)
               (es_bytes_down s) (es_creation_time s) (es_mid s).

Definition es_add_bytes_up (n : Z) (s : TunnelExitSocket) : TunnelExitSocket :=
  mkExitSocket (es_port s) (es_sock_addr s) (es_circuit_id s) (es_ips s) (es_bytes_up s + n)
               (es_bytes_down s) (es_creation_time s) (es_mid s).

(** [TunnelExitSocket.__init__(circuit_id, community, sock_addr, mid)] at
    clock reading [now]. *)
Definition new_exit_socket (circuit_id : Z) (sock_addr : SockAddr) (mid : option string)
    (now : Time) : TunnelExitSocket :=
  {| es_port := None; es_sock_addr := sock_addr; es_circuit_id := circuit_id;
     es_ips := ∅; es_bytes_up := 0; es_bytes_down := 0;
     es_creation_time := now; es_mid := mid |}.

(** [enabled]: [self.port is not None] *)
Definition enabled (s : TunnelExitSocket) : bool :=
  match es_port s with Some _ => true | None => false end.

(** [enable]: [listen] is what [reactor.listenUDP(0, self)] does when it is
    called: it returns a port, or it raises because no port can be opened
    ([None]). *)
Definition enable (listen : option Z) (s : TunnelExitSocket) : Outcome TunnelExitSocket :=
  if enabled s then Return s
  else match listen with
       | Some port => Return (es_set_port (Some port) s)
       | None => Raise OtherError
       end.

(** [close] *)
Definition close (s : TunnelExitSocket) : TunnelExitSocket :=
  if enabled s then es_set_port None s else s.

(** Reading [self.ips[ip]] of the [defaultdict(int)]: a missing key reads as
    0 and is stored. *)
Definition ips_read (ip : SockAddr) (s : TunnelExitSocket) : Z * TunnelExitSocket :=
  let n := default 0 (es_ips s !! ip) in
  (n, es_set_ips (<[ip := n]> (es_ips s)) s).

(** Whether the object behind a reference is enabled. *)
Definition sock_enabled (ref : nat) (st : State) : bool :=
  match sockets st !! ref with
  | Some s => enabled s
  | None => false
  end.

(** ** Sending *)

(** [send_packet]: hands the packet to the endpoint and returns its length. *)
Definition send_packet (candidates : list SockAddr) (message_type : string)
    (packet : string) (st : State) : Z * State :=
  (len packet, set_outbox (SentPacket candidates message_type packet :: outbox st) st).

(** [send_destroy] *)
Definition send_destroy (candidate : SockAddr) (circuit_id reason : Z) (st : State) : State :=
  snd (send_packet [candidate] "destroy"
         (impl_packet "destroy" (DestroyPayload circuit_id reason)) st).

(** ** Teardown *)

(** [destroy_exit_socket(circuit_id, reason=0)] *)
Definition destroy_exit_socket (circuit_id : Z) (st : State) : State :=
  match exit_sockets st !! circuit_id with
  | Some ref =>
      match sockets st !! ref with
      | Some s => send_destroy (es_sock_addr s) circuit_id 0 st
      | None => st
      end
  | None => st
  end.

(** [remove_exit_socket(circuit_id, additional_info, destroy)]; the guarded
    [del self.relay_session_keys[circuit_id]] is [delete]. *)
Definition remove_exit_socket (circuit_id : Z) (additional_info : string) (destroy : bool)
    (st : State) : State :=
  match exit_sockets st !! circuit_id with
  | Some ref =>
      let st1 := if destroy then destroy_exit_socket circuit_id st else st in
      let st2 := set_exit_sockets (delete circuit_id (exit_sockets st1)) st1 in
      if sock_enabled ref st2 then
        let st3 := set_sockets (alter close ref (sockets st2)) st2 in
        set_relay_session_keys (delete circuit_id (relay_session_keys st3)) st3
      else st2
  | None => st
  end.

(** [destroy_circuit(circuit_id, reason=0)] *)
Definition destroy_circuit (circuit_id : Z) (st : State) : State :=
  match circuits st !! circuit_id with
  | Some c => send_destroy (c_first_hop c) circuit_id 0 st
  | None => st
  end.

(** [active_data_circuits(hops=None)] *)
Definition active_data_circuits (hops : option nat) (st : State) : gmap Z Circuit :=
  filter (fun kv : Z * Circuit =>
            c_state kv.2 = CIRCUIT_STATE_READY ∧ c_ctype kv.2 = CIRCUIT_TYPE_DATA ∧
            (hops = None ∨ hops = Some (length (c_hops kv.2))))
         (circuits st).

(** [remove_circuit(circuit_id, additional_info, destroy)]: what follows the
    [pop] (the SOCKS5 server, libtorrent and the stashed BitTorrent peers) is
    the collaborators' [circuit_dead]. *)
Definition remove_circuit (circuit_id : Z) (additional_info : string) (destroy : bool)
    (st : State) : bool * State :=
  match circuits st !! circuit_id with
  | Some circuit =>
      let st1 := if destroy then destroy_circuit circuit_id st else st in
      let st2 := set_circuits (delete circuit_id (circuits st1)) st1 in
      let active := bool_decide (active_data_circuits None st2 ≠ ∅) in
      (true, set_ext (circuit_dead circuit active (ext st2)) st2)
  | None => (false, st)
  end.

(** The comprehension of [destroy_relay]:
    [{cid_from: (route.circuit_id, route.sock_addr) for cid_from in circuit_ids
      if cid_from in self.relay_from_to}] *)
Definition relays_of (circuit_ids : list PyKey) (st : State) : gmap PyKey (Z * SockAddr) :=
  foldl (fun acc cid_from =>
           match relay_from_to st !! cid_from with
           | Some r => <[cid_from := (r_circuit_id r, r_sock_addr r)]> acc
           | None => acc
           end) ∅ circuit_ids.

(** [destroy_relay(circuit_ids, reason=0, got_destroy_from)] *)
Definition destroy_relay (circuit_ids : list PyKey) (got_destroy_from : option (Z * SockAddr))
    (st : State) : State :=
  let relays := relays_of circuit_ids st in
  let values := (map_to_list relays).*2 in
  match got_destroy_from with
  | Some from =>
      if bool_decide (from ∈ values) then
        foldl (fun s to_ => if bool_decide (to_ ≠ from)
                            then send_destroy to_.2 to_.1 0 s else s) st values
      else st
  | None => foldl (fun s to_ => send_destroy to_.2 to_.1 0 s) st values
  end.

(** The other side of a relay:
    [[k for k, v in self.relay_from_to.iteritems() if circuit_id == v.circuit_id]];
    a key that is not an integer equals no [v.circuit_id]. *)
Definition mirror_keys (circuit_id : PyKey) (st : State) : list PyKey :=
  match circuit_id with
  | inl c => (map_to_list (filter (fun kv : PyKey * RelayRoute => r_circuit_id kv.2 = c)
                                  (relay_from_to st))).*1
  | inr _ => []
  end.

(** The body of the loop [for cid in to_remove] of [remove_relay]; only
    integer keys can be keys of [relay_session_keys]. *)
Definition remove_relay_entry (st : State) (cid : PyKey) : State :=
  match relay_from_to st !! cid with
  | Some _ =>
      let st1 := set_relay_from_to (delete cid (relay_from_to st)) st in
      match cid with
      | inl c => set_relay_session_keys (delete c (relay_session_keys st1)) st1
      | inr _ => st1
      end
  | None => st
  end.

(** [remove_relay(circuit_id, additional_info, destroy, got_destroy_from, both_sides)] *)
Definition remove_relay (circuit_id : PyKey) (additional_info : string) (destroy : bool)
    (got_destroy_from : option (Z * SockAddr)) (both_sides : bool) (st : State) : State :=
  let to_remove := circuit_id :: (if both_sides then mirror_keys circuit_id st else []) in
  let st1 := if destroy then destroy_relay to_remove got_destroy_from st else st in
  foldl remove_relay_entry st1 to_remove.

(** [is_relay] *)
Definition is_relay (circuit_id : Z) (st : State) : bool :=
  (0 <? circuit_id)
  && bool_decide (ikey circuit_id ∈ dom (relay_from_to st))
  && bool_decide (circuit_id ∉ waiting_for st).

(** ** Circuit-id allocation *)

(** The loop condition of [_generate_circuit_id]:
    [circuit_id in self.circuits or
     (neighbour and (neighbour, circuit_id) in self.relay_from_to)] *)
Definition id_collides (neighbour : option SockAddr) (circuit_id : Z) (st : State) : bool :=
  bool_decide (circuit_id ∈ dom (circuits st))
  || match neighbour with
     | Some n => bool_decide (tkey n circuit_id ∈ dom (relay_from_to st))
     | None => false
     end.

(** The [while] loop, drawing [random.getrandbits(32)] from the successive
    values [samples] of the generator; [None] when they run out. *)
Fixpoint generate_loop (neighbour : option SockAddr) (circuit_id : Z) (samples : list Z)
    (st : State) : option (Z * list Z) :=
  if id_collides neighbour circuit_id st then
    match samples with
    | [] => None
    | x :: rest => generate_loop neighbour x rest st
    end
  else Some (circuit_id, samples).

(** [_generate_circuit_id(neighbour)]: the id and the samples left. *)
Definition _generate_circuit_id (neighbour : option SockAddr) (samples : list Z)
    (st : State) : option (Z * list Z) :=
  match samples with
  | [] => None
  | x :: rest => generate_loop neighbour x rest st
  end.

(** ** Byte counters *)

(** [self.stats[key] += n] on the [defaultdict(int)] *)
Definition stats_add (key : string) (n : Z) (st : State) : State :=
  set_stats (<[key := default 0 (stats st !! key) + n]> (stats st)) st.

Definition r_set_last_incoming (t : Time) (r : RelayRoute) : RelayRoute :=
  mkRelayRoute (r_circuit_id r) (r_sock_addr r) (r_rendezvous_relay r) (r_creation_time r)
               t (r_bytes_up r) (r_bytes_down r).

Definition r_add_bytes_up (n : Z) (r : RelayRoute) : RelayRoute :=
  mkRelayRoute (r_circuit_id r) (r_sock_addr r) (r_rendezvous_relay r) (r_creation_time r)
               (r_last_incoming r) (r_bytes_up r + n) (r_bytes_down r).

Definition r_add_bytes_down (n : Z) (r : RelayRoute) : RelayRoute :=
  mkRelayRoute (r_circuit_id r) (r_sock_addr r) (r_rendezvous_relay r) (r_creation_time r)
               (r_last_incoming r) (r_bytes_up r) (r_bytes_down r + n).

(** [increase_bytes_sent(obj, num_bytes)] for the relay stored under [key] *)
Definition increase_bytes_sent_relay (key : PyKey) (num_bytes : Z) (st : State) : State :=
  stats_add "bytes_relay_up" num_bytes
    (set_relay_from_to (alter (r_add_bytes_up num_bytes) key (relay_from_to st)) st).

(** [increase_bytes_received(obj, num_bytes)] for the relay stored under [key] *)
Definition increase_bytes_received_relay (key : PyKey) (num_bytes : Z) (st : State) : State :=
  stats_add "bytes_relay_down" num_bytes
    (set_relay_from_to (alter (r_add_bytes_down num_bytes) key (relay_from_to st)) st).

(** [increase_bytes_sent(obj, num_bytes)] for an exit socket object *)
Definition increase_bytes_sent_exit (self : nat) (num_bytes : Z) (st : State) : State :=
  stats_add "bytes_exit" num_bytes
    (set_sockets (alter (es_add_bytes_up num_bytes) self (sockets st)) st).

(** ** The abuse counter *)

(** [TunnelExitSocket.check_num_packets(ip, incoming)] on the object [self];
    [ip] is the key of the counter, and the callers ([sendto],
    [datagramReceived]) pass the address tuple of the peer.  A reference to
    no object answers [False]. *)
Definition check_num_packets (self : nat) (ip : SockAddr) (incoming : bool) (st : State)
  : bool * State :=
  match sockets st !! self with
  | None => (false, st)
  | Some s =>
      let '(n, s0) := ips_read ip s in
      let st0 := set_sockets (<[self := s0]> (sockets st)) st in
      if n <? 0 then (true, st0)
      else
        let limit := max_packets_without_reply (settings st0) in
        if (if incoming then limit + 1 else limit) <=? n then
          (false, remove_exit_socket (es_circuit_id s0) "" true st0)
        else
          let s1 := es_set_ips (<[ip := if incoming then -1 else n + 1]> (es_ips s0)) s0 in
          (true, set_sockets (<[self := s1]> (sockets st0)) st0)
  end.

(** [TunnelExitSocket.sendto(data, destination)]: an unresolved host name
    leaves [ip_address] unbound, and the exception of a failed write is
    raised again. *)
Definition sendto (self : nat) (data : string) (destination : SockAddr) : M unit :=
  let* ok := (fun st => let '(b, st') := check_num_packets self destination false st in
                        (Return b, st')) in
  if ok then
    if is_allowed data then
      let ip_address :=
        if is_valid_address destination then Some destination.1
        else gethostbyname destination.1 in
      match ip_address with
      | None => raise OtherError
      | Some ip =>
          let* up := gets (sock_enabled self) in
          if up && transport_write data (ip, destination.2) then
            run modify (fun st => set_outbox
                          (SentDatagram self data (ip, destination.2) :: outbox st) st) then
            modify (increase_bytes_sent_exit self (len data))
          else raise OtherError
      end
    else ret tt
  else ret tt.

(** ** Layered encryption *)

Definition hop_set_session_keys (k : SessionKeys) (h : Hop) : Hop :=
  mkHop (hop_address h) (hop_public_key h) k.

Definition c_set_keys (hs : option SessionKeys) (hops : list Hop) (c : Circuit) : Circuit :=
  mkCircuit (c_circuit_id c) (c_goal_hops c) (c_first_hop c) (c_ctype c) (c_state c) hops
            (c_creation_time c) (c_last_incoming c) (c_bytes_up c) (c_bytes_down c) hs.

(** [crypto.encrypt_str(content, *self.get_session_keys(keys, direction))] *)
Definition encrypt_with (keys : SessionKeys) (direction : Direction) (content : string)
  : SessionKeys * string :=
  let '(keys', (k, salt, salt_explicit)) := get_session_keys keys direction in
  (keys', encrypt_str content k salt salt_explicit).

(** [crypto.decrypt_str(content, keys[direction], keys[direction + 2])] *)
Definition decrypt_with (keys : SessionKeys) (direction : Direction) (content : string)
  : option string :=
  decrypt_str content (sk_key keys direction) (sk_salt keys direction).

(** One [EXIT_NODE] layer per hop, in the order of the list given. *)
Fixpoint encrypt_hops (hops : list Hop) (content : string) : list Hop * string :=
  match hops with
  | [] => ([], content)
  | hop :: rest =>
      let '(keys', content') := encrypt_with (hop_session_keys hop) EXIT_NODE content in
      let '(rest', out) := encrypt_hops rest content' in
      (hop_set_session_keys keys' hop :: rest', out)
  end.

(** One [ORIGINATOR] layer peeled per hop, in the order of the list given. *)
Fixpoint decrypt_hops (hops : list Hop) (content : string) : option string :=
  match hops with
  | [] => Some content
  | hop :: rest =>
      match decrypt_with (hop_session_keys hop) ORIGINATOR content with
      | Some content' => decrypt_hops rest content'
      | None => None
      end
  end.

(** [circuit.ctype in [CIRCUIT_TYPE_RENDEZVOUS, CIRCUIT_TYPE_RP]] *)
Definition is_hidden_type (t : CircuitType) : bool :=
  match t with
  | CIRCUIT_TYPE_RENDEZVOUS | CIRCUIT_TYPE_RP => true
  | CIRCUIT_TYPE_DATA => false
  end.

(** [crypto_out(circuit_id, content, is_data)] *)
Definition crypto_out (circuit_id : Z) (content : string) (is_data : bool) : M string :=
  fun st =>
    match circuits st !! circuit_id with
    | Some circuit =>
        let hs_step :=
          if is_data && is_hidden_type (c_ctype circuit) then
            let direction := dir_of_bool (bool_decide (c_ctype circuit = CIRCUIT_TYPE_RP)) in
            match c_hs_session_keys circuit with
            | Some hs =>
                let '(hs', content') := encrypt_with hs direction content in
                Some (Some hs', content')
            | None => None
            end
          else Some (c_hs_session_keys circuit, content) in
        match hs_step with
        | None => (Raise TypeError, st)
        | Some (hs', content1) =>
            let '(hops_rev, content2) := encrypt_hops (rev (c_hops circuit)) content1 in
            (Return content2,
             set_circuits (<[circuit_id := c_set_keys hs' (rev hops_rev) circuit]> (circuits st))
                          st)
        end
    | None =>
        match relay_session_keys st !! circuit_id with
        | Some keys =>
            let '(keys', content') := encrypt_with keys ORIGINATOR content in
            (Return content',
             set_relay_session_keys (<[circuit_id := keys']> (relay_session_keys st)) st)
        | None => (Raise CryptoException, st)
        end
    end.

(** The relay/exit branch of [crypto_in]. *)
Definition crypto_in_relay (circuit_id : Z) (content : string) : M string :=
  fun st =>
    match relay_session_keys st !! circuit_id with
    | Some keys =>
        match decrypt_with keys EXIT_NODE content with
        | Some content' => (Return content', st)
        | None => (Raise CryptoException, st)
        end
    | None => (Raise CryptoException, st)
    end.

(** [crypto_in(circuit_id, content, is_data)] *)
Definition crypto_in (circuit_id : Z) (content : string) (is_data : bool) : M string :=
  fun st =>
    match circuits st !! circuit_id with
    | Some circuit =>
        if (0 <? Z.of_nat (length (c_hops circuit))) then
          match decrypt_hops (c_hops circuit) content with
          | None => (Raise CryptoException, st)
          | Some content1 =>
              if is_data && is_hidden_type (c_ctype circuit) then
                let direction := dir_of_bool (bool_decide (c_ctype circuit ≠ CIRCUIT_TYPE_RP)) in
                match c_hs_session_keys circuit with
                | Some hs =>
                    match decrypt_with hs direction content1 with
                    | Some content2 => (Return content2, st)
                    | None => (Raise CryptoException, st)
                    end
                | None => (Raise TypeError, st)
                end
              else (Return content1, st)
          end
        else crypto_in_relay circuit_id content st
    | None => crypto_in_relay circuit_id content st
    end.

(** [crypto_relay(circuit_id, content)]; a stored direction is one of the
    two constants, so the final [raise] has no case here. *)
Definition crypto_relay (circuit_id : Z) (content : string) : M string :=
  fun st =>
    match directions st !! circuit_id with
    | None => (Raise KeyError, st)
    | Some ORIGINATOR =>
        match relay_session_keys st !! circuit_id with
        | Some keys =>
            let '(keys', content') := encrypt_with keys ORIGINATOR content in
            (Return content',
             set_relay_session_keys (<[circuit_id := keys']> (relay_session_keys st)) st)
        | None => (Raise KeyError, st)
        end
    | Some EXIT_NODE =>
        match relay_session_keys st !! circuit_id with
        | Some keys =>
            match decrypt_with keys EXIT_NODE content with
            | Some content' => (Return content', st)
            | None => (Raise CryptoException, st)
            end
        | None => (Raise KeyError, st)
        end
    end.

(** ** The packet pipeline *)

Definition payload_circuit_id (p : Payload) : Z :=
  match p with
  | CreatePayload c _ _ _ | CreatedPayload c _ _ _ | DestroyPayload c _ => c
  end.

(** A total operation run inside the monad. *)
Definition lift {A} (f : State -> A * State) : M A :=
  fun st => let '(a, st') := f st in (Return a, st').

(** [send_cell(candidates, message_type, payload)] *)
Definition send_cell (candidates : list SockAddr) (message_type : string) (payload : Payload)
  : M Z :=
  let packet := convert_to_cell (impl_packet message_type payload) in
  let '(plaintext, encrypted) := split_encrypted_packet packet "cell" in
  if bool_decide (message_type = "create" ∨ message_type = "created") then
    lift (send_packet candidates message_type (plaintext +:+ encrypted))
  else
    catch_crypto
      (let* encrypted' := crypto_out (payload_circuit_id payload) encrypted false in
       lift (send_packet candidates message_type (plaintext +:+ encrypted')))
      (ret 0).

(** [relay_packet(circuit_id, message_type, packet)] at clock reading [now] *)
Definition relay_packet (now : Time) (circuit_id : Z) (message_type : string) (packet : string)
  : M bool :=
  let* relay := gets (is_relay circuit_id) in
  if relay then
    let* next := gets (fun st => relay_from_to st !! ikey circuit_id) in
    match next with
    | None => raise KeyError
    | Some next_relay =>
        let this_key := ikey (r_circuit_id next_relay) in
        let* this_relay := gets (fun st => relay_from_to st !! this_key) in
        run (match this_relay with
             | Some _ =>
                 run modify (fun st => set_relay_from_to
                               (alter (r_set_last_incoming now) this_key (relay_from_to st))
                               st) then
                 modify (increase_bytes_received_relay this_key (len packet))
             | None => ret tt
             end) then
        let '(plaintext, encrypted) := split_encrypted_packet packet message_type in
        catch_crypto
          (let* encrypted' :=
             (if r_rendezvous_relay next_relay then
                let* decrypted := crypto_in circuit_id encrypted false in
                crypto_out (r_circuit_id next_relay) decrypted false
              else crypto_relay circuit_id encrypted) in
           let packet1 := plaintext +:+ encrypted' in
           let packet2 := swap_circuit_id packet1 message_type circuit_id
                            (r_circuit_id next_relay) in
           let* sent := lift (send_packet [r_sock_addr next_relay] message_type packet2) in
           run modify (increase_bytes_sent_relay (ikey circuit_id) sent) then
           ret true)
          (ret false)
    end
  else ret false.

(** ** [create] *)

(** A [create] message as [on_create] reads it. *)
Record CreateMessage := mkCreateMessage {
  cm_candidate : Candidate;
  cm_circuit_id : Z;
  cm_node_id : string;
  cm_node_public_key : string;
  cm_key : string
}.

(** The loop of [on_create] over [dispersy_yield_verified_candidates()]:
    up to four candidates that are not exit nodes. *)
Fixpoint collect_candidates (cs : list Candidate) (acc : gmap string Candidate)
    (exits : gmap string ExitCandidate) : Outcome (gmap string Candidate) :=
  match cs with
  | [] => Return acc
  | c :: rest =>
      match cand_member c with
      | None => Raise AttributeError
      | Some (_, pubkey) =>
          match exits !! pubkey with
          | None => Raise KeyError
          | Some vc =>
              if ec_become_exit vc then collect_candidates rest acc exits
              else
                let acc' := <[pubkey := c]> acc in
                if (4 <=? Z.of_nat (size acc')) then Return acc'
                else collect_candidates rest acc' exits
          end
      end
  end.

(** The body of the loop of [on_create] for one message, at clock reading
    [now]; [continue] is [ret tt]. *)
Definition on_create_one (now : Time) (message : CreateMessage) : M unit :=
  let candidate := cm_candidate message in
  let circuit_id := cm_circuit_id message in
  let* full := gets (fun st => max_relays_or_exits (settings st) <=?
                               Z.of_nat (size (relay_from_to st)) +
                               Z.of_nat (size (exit_sockets st))) in
  if full then ret tt
  else
    let* collision := gets (fun st =>
                        bool_decide (("anon-created", circuit_id) ∈ dom (request_cache st))) in
    if collision then ret tt
    else
      run modify (fun st => set_directions (<[circuit_id := EXIT_NODE]> (directions st)) st) then
      let '(shared_secret, Y, AUTH) := generate_diffie_shared_secret (cm_key message) in
      run modify (fun st => set_relay_session_keys
                    (<[circuit_id := generate_session_keys shared_secret]>
                       (relay_session_keys st)) st) then
      let* candidates := (fun st =>
                            (collect_candidates (verified_candidates st) ∅ (exit_candidates st),
                             st)) in
      run modify (fun st => set_request_cache
                    (<[("anon-created", circuit_id) :=
                         mkCreatedRequestCache circuit_id candidate candidates]>
                       (request_cache st)) st) then
      let candidate_mid :=
        match cand_member candidate with
        | Some (mid, _) => Some (encode_hex mid)
        | None => None
        end in
      run modify (fun st =>
                    let ref := fresh (dom (sockets st)) in
                    set_exit_sockets (<[circuit_id := ref]> (exit_sockets st))
                      (set_sockets
                         (<[ref := new_exit_socket circuit_id (cand_sock_addr candidate)
                                     candidate_mid now]> (sockets st)) st)) then
      run modify (fun st =>
                    if has_notifier st
                    then set_ext (notify_joined (cand_sock_addr candidate) circuit_id (ext st)) st
                    else st) then
      let* keys := gets (fun st => relay_session_keys st !! circuit_id) in
      match keys with
      | None => raise KeyError
      | Some keys =>
          let '(keys', candidate_list_enc) :=
            encrypt_with keys EXIT_NODE (encode_keys (map_to_list candidates).*1) in
          run modify (fun st => set_relay_session_keys
                        (<[circuit_id := keys']> (relay_session_keys st)) st) then
          run send_cell [cand_sock_addr candidate] "created"
                (CreatedPayload circuit_id Y AUTH candidate_list_enc) then
          ret tt
      end.

(** [for message in messages: ...] in the monad. *)
Fixpoint for_each {A} (body : A -> M unit) (l : list A) : M unit :=
  match l with
  | [] => ret tt
  | x :: rest => run body x then for_each body rest
  end.

(** [on_create(messages)] *)
Definition on_create (now : Time) (messages : list CreateMessage) : M unit :=
  for_each (on_create_one now) messages.

(** ** [destroy] *)

(** A [destroy] message as [on_destroy] reads it. *)
Record DestroyMessage := mkDestroyMessage {
  dm_sock_addr : SockAddr;
  dm_circuit_id : Z
}.

(** The body of the loop of [on_destroy] for one message. *)
Definition on_destroy_one (st : State) (message : DestroyMessage) : State :=
  let circuit_id := dm_circuit_id message in
  let cand_sock_addr := dm_sock_addr message in
  if bool_decide (ikey circuit_id ∈ dom (relay_from_to st)) then
    remove_relay (ikey circuit_id) "Got destroy" true (Some (circuit_id, cand_sock_addr)) true st
  else
    match exit_sockets st !! circuit_id with
    | Some ref =>
        match sockets st !! ref with
        | Some s =>
            if bool_decide (cand_sock_addr ≠ es_sock_addr s) then st
            else remove_exit_socket circuit_id "Got destroy" false st
        | None => st
        end
    | None =>
        match circuits st !! circuit_id with
        | Some c =>
            if bool_decide (cand_sock_addr ≠ c_first_hop c) then st
            else snd (remove_circuit circuit_id "Got destroy" false st)
        | None => st
        end
    end.

(** [on_destroy(messages)] *)
Definition on_destroy (messages : list DestroyMessage) (st : State) : State :=
  foldl on_destroy_one st messages.

(** ** The sweeper *)

(** The three tests of [do_remove] on a circuit. *)
Definition circuit_expired (now : Time) (cfg : TunnelSettings) (c : Circuit) : option string :=
  if c_last_incoming c <? now - max_time_inactive cfg then Some "no activity"
  else if c_creation_time c <? now - max_time cfg then Some "too old"
  else if max_traffic cfg <? c_bytes_up c + c_bytes_down c then Some "traffic limit exceeded"
  else None.

(** The three tests of [do_remove] on a relay. *)
Definition relay_expired (now : Time) (cfg : TunnelSettings) (r : RelayRoute) : option string :=
  if r_last_incoming r <? now - max_time_inactive cfg then Some "no activity"
  else if r_creation_time r <? now - max_time cfg then Some "too old"
  else if max_traffic cfg <? r_bytes_up r + r_bytes_down r then Some "traffic limit exceeded"
  else None.

(** The two tests of [do_remove] on an exit socket. *)
Definition exit_socket_expired (now : Time) (cfg : TunnelSettings) (s : TunnelExitSocket)
  : option string :=
  if es_creation_time s <? now - max_time cfg then Some "too old"
  else if max_traffic cfg <? es_bytes_up s + es_bytes_down s then Some "traffic limit exceeded"
  else None.

Definition sweep_circuit (now : Time) (st : State) (kv : Z * Circuit) : State :=
  match circuit_expired now (settings st) kv.2 with
  | Some reason => snd (remove_circuit kv.1 reason false st)
  | None => st
  end.

Definition sweep_relay (now : Time) (st : State) (kv : PyKey * RelayRoute) : State :=
  match relay_expired now (settings st) kv.2 with
  | Some reason => remove_relay kv.1 reason false None false st
  | None => st
  end.

Definition sweep_exit_socket (now : Time) (st : State) (kv : Z * nat) : State :=
  match sockets st !! kv.2 with
  | Some s =>
      match exit_socket_expired now (settings st) s with
      | Some reason => remove_exit_socket kv.1 reason false st
      | None => st
      end
  | None => st
  end.

(** [set(c.get_member().public_key for c in dispersy_yield_verified_candidates())] *)
Fixpoint current_candidates (cs : list Candidate) : Outcome (gset string) :=
  match cs with
  | [] => Return ∅
  | c :: rest =>
      match cand_member c with
      | None => Raise AttributeError
      | Some (_, pubkey) =>
          match current_candidates rest with
          | Return keys => Return ({[pubkey]} ∪ keys)
          | Raise e => Raise e
          end
      end
  end.

(** [do_remove()]; each loop runs over the items the table had when the
    loop started.  The calls of [time.time()] during one tick are taken to
    read the same value [now]. *)
Definition do_remove (now : Time) : M unit :=
  run modify (fun st => foldl (sweep_circuit now) st (map_to_list (circuits st))) then
  run modify (fun st => foldl (sweep_relay now) st (map_to_list (relay_from_to st))) then
  run modify (fun st => foldl (sweep_exit_socket now) st (map_to_list (exit_sockets st))) then
  let* current := (fun st => (current_candidates (verified_candidates st), st)) in
  modify (fun st => set_exit_candidates
            (filter (fun kv : string * ExitCandidate => kv.1 ∈ current) (exit_candidates st)) st).

End Operations.

(** ** The exit path, selection and shutdown

    What these need from outside beyond [Collaborators]: the data codec of
    [TunnelConversion], the port that marks a destination as a circuit id,
    the hidden-service mapping from such a destination to the id, and the
    two calls of [unload_community] into the SOCKS5 server and the base
    community. *)
Class Surroundings `{Collab : Collaborators} := {
  (** [TunnelConversion.encode_data(circuit_id, destination, origin, data)] *)
  encode_data : Z -> SockAddr -> SockAddr -> string -> string;
  (** [TunnelConversion.decode_data(packet)] *)
  decode_data : string -> Z * SockAddr * SockAddr * string;
  (** [TunnelConversion.could_be_dispersy] *)
  could_be_dispersy : string -> bool;
  (** the constant [CIRCUIT_ID_PORT] *)
  CIRCUIT_ID_PORT : Z;
  (** [self.community.ip_to_circuit_id(host)] *)
  ip_to_circuit_id : string -> Z;
  (** [self.socks_server.stop()] *)
  socks_server_stop : Ext -> Ext;
  (** [super(TunnelCommunity, self).unload_community()] *)
  super_unload_community : Ext -> Ext
}.

Section ExitPath.
Context `{Around : Surroundings}.

Definition es_add_bytes_down (n : Z) (s : TunnelExitSocket) : TunnelExitSocket :=
  mkExitSocket (es_port s) (es_sock_addr s) (es_circuit_id s) (es_ips s) (es_bytes_up s)
               (es_bytes_down s + n) (es_creation_time s) (es_mid s).

(** [increase_bytes_received(obj, num_bytes)] for an exit socket object *)
Definition increase_bytes_received_exit (self : nat) (num_bytes : Z) (st : State) : State :=
  stats_add "bytes_enter" num_bytes
    (set_sockets (alter (es_add_bytes_down num_bytes) self (sockets st)) st).

(** [send_data(candidates, message_type, packet)] *)
Definition send_data (candidates : list SockAddr) (message_type : string) (packet : string)
  : M Z :=
  let '(circuit_id, _, _, _) := decode_data packet in
  let '(plaintext, encrypted) := split_encrypted_packet packet message_type in
  let* encrypted' := catch_crypto
                       (let* content := crypto_out circuit_id encrypted true in
                        ret (Some content))
                       (ret None) in
  match encrypted' with
  | None => ret 0
  | Some content => lift (send_packet candidates "data" (plaintext +:+ content))
  end.

(** [tunnel_data_to_origin(circuit_id, sock_addr, source_address, data)] *)
Definition tunnel_data_to_origin (circuit_id : Z) (sock_addr source_address : SockAddr)
    (data : string) : M unit :=
  let packet := encode_data circuit_id ("0.0.0.0"%string, 0) source_address data in
  run send_data [sock_addr] "data" packet then ret tt.

(** [TunnelExitSocket.datagramReceived(data, source)] with [tunnel_data]
    inlined; a reference to no object does nothing. *)
Definition datagramReceived (self : nat) (data : string) (source : SockAddr) : M unit :=
  run modify (increase_bytes_received_exit self (len data)) then
  let* ok := lift (check_num_packets self source true) in
  if ok then
    if is_allowed data then
      let* object := gets (fun st => sockets st !! self) in
      match object with
      | Some s => tunnel_data_to_origin (es_circuit_id s) (es_sock_addr s) source data
      | None => ret tt
      end
    else ret tt
  else ret tt.

(** [exit_data(circuit_id, sock_addr, destination, data)]; [listen] is what
    the reactor does if the socket has to be enabled.  The failing [assert]
    is [OtherError]; it and [enable()] stand before the [try], so what they
    raise leaves [exit_data]. *)
Definition exit_data (listen : option Z) (circuit_id : Z) (sock_addr destination : SockAddr)
    (data : string) : M unit :=
  let* exitnode := gets (fun st => become_exitnode (settings st)) in
  if negb exitnode && negb (could_be_dispersy data) then ret tt
  else
    let* entry := gets (fun st => exit_sockets st !! circuit_id) in
    match entry with
    | Some ref =>
        let* object := gets (fun st => sockets st !! ref) in
        match object with
        | Some s =>
            run (if enabled s then ret tt
                 else if bool_decide (sock_addr = es_sock_addr s)
                      then match enable listen s with
                           | Return s' =>
                               modify (fun st => set_sockets (<[ref := s']> (sockets st)) st)
                           | Raise e => raise e
                           end
                      else raise OtherError) then
            catch_all (sendto ref data destination) (ret tt)
        | None => ret tt
        end
    | None => ret tt
    end.

(** ** [class RoundRobin] *)

(** [sorted(d.keys())] *)
Definition sorted_keys (d : gmap Z Circuit) : list Z :=
  merge_sort Z.le (map_to_list d).*1.

(** [has_options(hops)] *)
Definition has_options (hops : option nat) (st : State) : bool :=
  bool_decide (0 < Z.of_nat (size (active_data_circuits hops st))).

(** The first part of [select]: a destination on [CIRCUIT_ID_PORT] names a
    circuit, which is taken if it is a ready rendezvous circuit. *)
Definition pinned_circuit (destination : option SockAddr) (st : State) : option Circuit :=
  match destination with
  | Some (host, port) =>
      if port =? CIRCUIT_ID_PORT then
        match circuits st !! ip_to_circuit_id host with
        | Some circuit =>
            if bool_decide (c_state circuit = CIRCUIT_STATE_READY)
               && bool_decide (c_ctype circuit = CIRCUIT_TYPE_RENDEZVOUS)
            then Some circuit else None
        | None => None
        end
      else None
  | None => None
  end.

(** [select(destination, hops)] on a selector whose [index] is given: the
    circuit chosen, if any, and the new [index]. *)
Definition select (destination : option SockAddr) (hops : option nat) (index : Z)
    (st : State) : option Circuit * Z :=
  match pinned_circuit destination st with
  | Some circuit => (Some circuit, index)
  | None =>
      let circuit_ids := sorted_keys (active_data_circuits hops st) in
      match circuit_ids with
      | [] => (None, index)
      | _ :: _ =>
          let index' := (index + 1) `mod` Z.of_nat (length circuit_ids) in
          match circuit_ids !! Z.to_nat index' with
          | Some circuit_id => (active_data_circuits None st !! circuit_id, index')
          | None => (None, index')
          end
      end
  end.

(** [select] called again and again with the same arguments: the circuits
    chosen, in order. *)
Fixpoint select_many (n : nat) (destination : option SockAddr) (hops : option nat)
    (index : Z) (st : State) : list (option Circuit) * Z :=
  match n with
  | O => ([], index)
  | S n' =>
      let '(choice, index1) := select destination hops index st in
      let '(choices, index2) := select_many n' destination hops index1 st in
      (choice :: choices, index2)
  end.

(** ** More of [TunnelCommunity] *)

(** [data_circuits(hops=None)] *)
Definition data_circuits (hops : option nat) (st : State) : gmap Z Circuit :=
  filter (fun kv : Z * Circuit =>
            c_ctype kv.2 = CIRCUIT_TYPE_DATA /\
            (hops = None \/ hops = Some (length (c_hops kv.2))))
         (circuits st).

(** [unload_community()] *)
Definition unload_community (st : State) : State :=
  let st0 := set_ext (socks_server_stop (ext st)) st in
  let st1 := foldl (fun s circuit_id => snd (remove_circuit circuit_id "" true s)) st0
               (map_to_list (circuits st0)).*1 in
  let st2 := foldl (fun s circuit_id => remove_relay circuit_id "" true None false s) st1
               (map_to_list (relay_from_to st1)).*1 in
  let st3 := foldl (fun s circuit_id => remove_exit_socket circuit_id "" true s) st2
               (map_to_list (exit_sockets st2)).*1 in
  set_ext (super_unload_community (ext st3)) st3.

(** The test of [check_extend] for one message: [True] lets it through,
    [False] is [DropMessage]. *)
Definition check_extend_one (circuit_id : Z) (st : State) : bool :=
  if negb (is_relay circuit_id st) then
    match request_cache st !! ("anon-created"%string, circuit_id) with
    | Some _ => true
    | None => false
    end
  else true.

End ExitPath.

(** ** Observations used in the statements *)

Section Observations.
Context `{Collab : Collaborators}.

(** [st'] differs from [st] in the outbox at most. *)
Definition only_outbox (st st' : State) : Prop := st' = set_outbox (outbox st') st.

(** The abuse counter of the object [self] for [ip], as [self.ips[ip]]
    reads it. *)
Definition counter (self : nat) (ip : SockAddr) (st : State) : Z :=
  match sockets st !! self with
  | Some s => default 0 (es_ips s !! ip)
  | None => 0
  end.





(** Whether [do_remove] at clock reading [now] takes away an exit socket
    whose object is [ref]. *)
Definition swept (now : Time) (st : State) (ref : nat) : bool :=
  match sockets st !! ref with
  | Some s => bool_decide (is_Some (exit_socket_expired now (settings st) s))
  | None => false
  end.

(** What the sweeper reads of an exit socket. *)
Definition clock_of (o : option TunnelExitSocket) : option (Time * Z * Z) :=
  (fun s => (es_creation_time s, es_bytes_up s, es_bytes_down s)) <$> o.

(** Two states in which the sweeper reads the same of every exit socket. *)
Definition same_clocks (st0 st : State) : Prop :=
  settings st = settings st0 /\
  forall ref, clock_of (sockets st !! ref) = clock_of (sockets st0 !! ref).

(** The rule for exit sockets in the words of the specification, "same rules
    as circuits", for a socket that last saw an inbound packet at
    [last_incoming]. *)
Definition claimed_exit_socket_rule (now : Time) (cfg : TunnelSettings)
    (last_incoming : Time) (s : TunnelExitSocket) : bool :=
  (max_time_inactive cfg <? now - last_incoming)
  || (max_time cfg <? now - es_creation_time s)
  || (max_traffic cfg <? es_bytes_up s + es_bytes_down s).

(** *** The hops of a circuit, seen from their own nodes

    A hop is a node together with the circuit id under which that node knows
    the circuit.  The checks below say that a list of such nodes is the chain
    of hops of an originator's circuit: each holds, in [relay_session_keys],
    the keys and salts the originator negotiated with it. *)

Definition same_secret (k k' : SessionKeys) : bool :=
  String.eqb (key_originator k) (key_originator k')
  && String.eqb (key_exit k) (key_exit k')
  && String.eqb (salt_originator k) (salt_originator k')
  && String.eqb (salt_exit k) (salt_exit k').

Definition holds_keys (k : SessionKeys) (node : State) (circuit_id : Z) : bool :=
  match relay_session_keys node !! circuit_id with
  | Some k' => same_secret k k'
  | None => false
  end.

Definition not_own (node : State) (circuit_id : Z) : bool :=
  match circuits node !! circuit_id with
  | Some _ => false
  | None => true
  end.

Definition has_direction (d : Direction) (node : State) (circuit_id : Z) : bool :=
  bool_decide (directions node !! circuit_id = Some d).

(** [path] is the chain of hops of [hops], listed from the originator
    outwards; every hop but the last relays in direction [d], the last one is
    an end point that does not own the id as a circuit. *)
Fixpoint hop_path (d : Direction) (hops : list Hop) (path : list (State * Z)) : bool :=
  match hops, path with
  | [], [] => true
  | h :: hops', (node, circuit_id) :: path' =>
      holds_keys (hop_session_keys h) node circuit_id
      && (match path' with
          | [] => not_own node circuit_id
          | _ :: _ => has_direction d node circuit_id
          end)
      && hop_path d hops' path'
  | _, _ => false
  end.

(** A cell travelling away from the originator: every hop but the last
    relays it ([crypto_relay]), the last takes it in ([crypto_in]). *)
Fixpoint relay_forward (path : list (State * Z)) (is_data : bool) (content : string)
  : Outcome string :=
  match path with
  | [] => Return content
  | (node, circuit_id) :: rest =>
      match rest with
      | [] => fst (crypto_in circuit_id content is_data node)
      | _ :: _ =>
          match fst (crypto_relay circuit_id content node) with
          | Return content' => relay_forward rest is_data content'
          | Raise e => Raise e
          end
      end
  end.

(** A cell travelling towards the originator: the far end wraps it
    ([crypto_out]) and every hop before it relays it ([crypto_relay]). *)
Fixpoint relay_backward (path : list (State * Z)) (is_data : bool) (content : string)
  : Outcome string :=
  match path with
  | [] => Return content
  | (node, circuit_id) :: rest =>
      match rest with
      | [] => fst (crypto_out circuit_id content is_data node)
      | _ :: _ =>
          match relay_backward rest is_data content with
          | Return content' => fst (crypto_relay circuit_id content' node)
          | Raise e => Raise e
          end
      end
  end.

(** The two ends agree on the extra layer of data on hidden-service
    circuits: either neither adds it, or they are the two different hidden
    types and share [hs_session_keys]. *)
Definition hs_agree (is_data : bool) (sender receiver : Circuit) : bool :=
  if is_data && is_hidden_type (c_ctype sender) then
    is_hidden_type (c_ctype receiver)
    && bool_decide (c_ctype sender <> c_ctype receiver)
    && match c_hs_session_keys sender, c_hs_session_keys receiver with
       | Some k, Some k' => same_secret k k'
       | _, _ => false
       end
  else negb (is_data && is_hidden_type (c_ctype receiver)).

(** One layer peeled per hop with the keys of direction [d], first hop
    first. *)
Fixpoint peel (d : Direction) (hops : list Hop) (content : string) : option string :=
  match hops with
  | [] => Some content
  | hop :: rest =>
      match decrypt_with (hop_session_keys hop) d content with
      | Some content' => peel d rest content'
      | None => None
      end
  end.

(** The content the originator sends: the optional hidden-service layer,
    then the hop layers. *)
Definition sent_content (circuit : Circuit) (is_data : bool) (content : string) : string :=
  let inner :=
    if is_data && is_hidden_type (c_ctype circuit) then
      match c_hs_session_keys circuit with
      | Some hs =>
          snd (encrypt_with hs (dir_of_bool (bool_decide (c_ctype circuit = CIRCUIT_TYPE_RP)))
                 content)
      | None => content
      end
    else content in
  snd (encrypt_hops (rev (c_hops circuit)) inner).

(** [None] from the cipher is [CryptoException]. *)
Definition outcome_of (o : option string) : Outcome string :=
  match o with
  | Some content => Return content
  | None => Raise CryptoException
  end.

End Observations.

(** ** Further observations *)

Section StreamsAndRefresh.
Context `{Collab : Collaborators}.

(** Cells relayed one after the other on one circuit id: the outcomes in
    order and the state at the end. *)
Fixpoint relay_stream (circuit_id : Z) (contents : list string) (st : State)
  : list (Outcome string) * State :=
  match contents with
  | [] => ([], st)
  | content :: rest =>
      let '(outcome, st1) := crypto_relay circuit_id content st in
      let '(outcomes, st2) := relay_stream circuit_id rest st1 in
      (outcome :: outcomes, st2)
  end.

(** What [relay_packet] does to the reverse entry before it touches the
    content: [this_relay.last_incoming = time.time()] and the byte count. *)
Definition refresh_reverse (now : Time) (circuit_id : Z) (packet : string) (st : State)
  : State :=
  match relay_from_to st !! ikey circuit_id with
  | Some next_relay =>
      let this_key := ikey (r_circuit_id next_relay) in
      match relay_from_to st !! this_key with
      | Some _ =>
          increase_bytes_received_relay this_key (len packet)
            (set_relay_from_to (alter (r_set_last_incoming now) this_key (relay_from_to st)) st)
      | None => st
      end
  | None => st
  end.

(** The content after the layer of this relay: one layer put on towards the
    originator, one layer taken off towards the exit. *)
Definition relayed_content (d : Direction) (k : SessionKeys) (encrypted : string)
  : option string :=
  match d with
  | ORIGINATOR => Some (snd (encrypt_with k ORIGINATOR encrypted))
  | EXIT_NODE => decrypt_with k EXIT_NODE encrypted
  end.

(** The public keys of the members of a list of candidates. *)
Definition member_keys (cs : list Candidate) : list string :=
  omap (fun c => snd <$> cand_member c) cs.

(** The candidates collected so far are verified candidates that are not
    exit nodes, each under its own public key. *)
Definition offered (cs : list Candidate) (exits : gmap string ExitCandidate)
    (acc : gmap string Candidate) : Prop :=
  forall pubkey c, acc !! pubkey = Some c ->
    c ∈ cs /\ (exists mid, cand_member c = Some (mid, pubkey)) /\
    exists vc, exits !! pubkey = Some vc /\ ec_become_exit vc = false.

(** The state after the three loops of [do_remove]. *)
Definition after_sweeps (now : Time) (st : State) : State :=
  let st1 := foldl (sweep_circuit now) st (map_to_list (circuits st)) in
  let st2 := foldl (sweep_relay now) st1 (map_to_list (relay_from_to st1)) in
  foldl (sweep_exit_socket now) st2 (map_to_list (exit_sockets st2)).

(** What a passing [check_num_packets] leaves in the object: the counter
    of [ip] read (and so stored), then set to -1 by an incoming packet or
    raised by one by an outgoing one, unless it is negative already. *)
Definition charge (ip : SockAddr) (incoming : bool) (s : TunnelExitSocket)
  : TunnelExitSocket :=
  let n := default 0 (es_ips s !! ip) in
  es_set_ips (<[ip := if n <? 0 then n else if incoming then -1 else n + 1]> (es_ips s)) s.




End StreamsAndRefresh.

Section Selection.
Context `{Around : Surroundings}.

(** The circuit at position [j] of the sorted ids of the active data
    circuits with [hops] hops, as [select] reads it. *)
Definition nth_choice (hops : option nat) (st : State) (j : Z) : option Circuit :=
  match sorted_keys (active_data_circuits hops st) !! Z.to_nat j with
  | Some circuit_id => active_data_circuits None st !! circuit_id
  | None => None
  end.

End Selection.

(** ** A test double for the collaborators

    A cipher that tags the content with key and salt and checks the tag on
    the way back, an identity codec, and a log for the SOCKS5 side.  The
    examples further down run the community against it. *)

Fixpoint strip_prefix (p s : string) : option string :=
  match p with
  | EmptyString => Some s
  | String a p' =>
      match s with
      | String b s' => if Ascii.eqb a b then strip_prefix p' s' else None
      | EmptyString => None
      end
  end.

Definition tag_encrypt (content key salt : string) (salt_explicit : Z) : string :=
  (key +:+ salt) +:+ content.

Definition tag_decrypt (content key salt : string) : option string :=
  strip_prefix (key +:+ salt) content.

Definition test_keys (name : string) : SessionKeys :=
  mkSessionKeys (name +:+ "-ko") (name +:+ "-kx") (name +:+ "-so") (name +:+ "-sx") 0 0.

#[global] Instance test_collaborators : Collaborators := {|
  Ext := list string;
  circuit_dead := fun _ _ log => "circuit_dead" :: log;
  notify_joined := fun _ _ log => "joined" :: log;
  encrypt_str := tag_encrypt;
  decrypt_str := tag_decrypt;
  generate_diffie_shared_secret := fun dh => (dh, "Y", "AUTH");
  generate_session_keys := test_keys;
  impl_packet := fun name _ => name;
  convert_to_cell := fun packet => packet;
  split_encrypted_packet := fun packet _ => (EmptyString, packet);
  swap_circuit_id := fun packet _ _ _ => packet;
  is_allowed := fun _ => true;
  is_valid_address := fun _ => true;
  gethostbyname := fun host => Some host;
  encode_keys := fun keys => String.concat "," keys;
  encode_hex := fun mid => mid;
  transport_write := fun _ _ => true
|}.

(** A node right after [TunnelCommunity.__init__] and [initialize]. *)
Definition initial_state `{Collab : Collaborators} (e : Ext) : State :=
  {| settings := default_settings; circuits := ∅; directions := ∅; relay_from_to := ∅;
     relay_session_keys := ∅; waiting_for := ∅; exit_sockets := ∅; sockets := ∅;
     exit_candidates := ∅; request_cache := ∅; stats := ∅; verified_candidates := [];
     has_notifier := false; outbox := []; ext := e |}.

Definition test_state : State := initial_state ([] : list string).

Definition addr_a : SockAddr := ("10.0.0.1"%string, 7001).
Definition addr_b : SockAddr := ("10.0.0.2"%string, 7002).
Definition addr_x : SockAddr := ("203.0.113.9"%string, 6666).

(** An exit node holding one latent exit socket for circuit 7, created at
    time 0 for the previous hop [addr_a], with its session keys. *)
Definition latent_exit_state : State :=
  set_relay_session_keys {[ 7 := test_keys "c7" ]}
    (set_exit_sockets {[ 7 := 0%nat ]}
       (set_sockets {[ 0%nat := new_exit_socket 7 addr_a None 0 ]} test_state)).

(** The same node after the socket was enabled on port 4242. *)
Definition enabled_exit_state : State :=
  set_sockets {[ 0%nat := es_set_port (Some 4242) (new_exit_socket 7 addr_a None 0) ]} latent_exit_state.

(** A node whose hundred exit sockets fill [max_relays_or_exits]. *)
Definition full_state : State :=
  set_exit_sockets (list_to_map ((fun i : nat => (Z.of_nat i, i)) <$> seq 0 100))
    (set_sockets (list_to_map ((fun i : nat => (i, new_exit_socket (Z.of_nat i) addr_a None 0))
                                 <$> seq 0 100)) test_state).

Definition create_from_b : CreateMessage :=
  mkCreateMessage (mkCandidate addr_b (Some ("mid-b"%string, "pub-b"%string))) 4711
                  "node" "pub" "dh".

Definition route (circuit_id : Z) (sock_addr : SockAddr) : RelayRoute :=
  mkRelayRoute circuit_id sock_addr false 0 0 0 0.

(** A relay between [addr_a] (circuit id 0) and [addr_b] (circuit id 5). *)
Definition zero_relay_state : State :=
  set_relay_from_to {[ ikey 0 := route 5 addr_b; ikey 5 := route 0 addr_a ]}
    (set_directions {[ 0 := EXIT_NODE; 5 := ORIGINATOR ]}
       (set_relay_session_keys {[ 0 := test_keys "r"; 5 := test_keys "r" ]} test_state)).

(** A relay between [addr_a] (circuit id 1) and [addr_b] (circuit id 2):
    cells with id 1 come from [addr_a] and leave to [addr_b] with id 2. *)
Definition relay_state : State :=
  set_relay_from_to {[ ikey 1 := route 2 addr_b; ikey 2 := route 1 addr_a ]}
    (set_directions {[ 1 := EXIT_NODE; 2 := ORIGINATOR ]}
       (set_relay_session_keys {[ 1 := test_keys "r"; 2 := test_keys "r" ]} test_state)).

(** A node that relays circuit 7 for the neighbour [addr_b]. *)
Definition relay_b_state : State :=
  set_relay_from_to {[ ikey 7 := route 9 addr_b; ikey 9 := route 7 addr_a ]} test_state.

(** A two-hop data circuit 5 at its originator, and its two hops: the relay
    knows the circuit as 11 towards the exit and as 21 towards the
    originator, the exit knows it as 12. *)
Definition two_hops : list Hop :=
  [mkHop addr_a "pub-a" (test_keys "h1"); mkHop addr_b "pub-b" (test_keys "h2")].

Definition circuit_5 (ctype : CircuitType) (hops : list Hop) (hs : option SessionKeys)
  : Circuit :=
  mkCircuit 5 2 addr_a ctype CIRCUIT_STATE_READY hops 0 0 0 0 hs.

Definition originator_state : State :=
  set_circuits {[ 5 := circuit_5 CIRCUIT_TYPE_DATA two_hops None ]} test_state.

Definition hop1_state : State :=
  set_relay_session_keys {[ 11 := test_keys "h1"; 21 := test_keys "h1" ]}
    (set_directions {[ 11 := EXIT_NODE; 21 := ORIGINATOR ]} test_state).

Definition hop2_state : State :=
  set_relay_session_keys {[ 12 := test_keys "h2" ]}
    (set_directions {[ 12 := EXIT_NODE ]} test_state).

(** The two ends of a hidden-service connection over the same hops: a
    rendezvous circuit and a circuit to the rendezvous point, sharing the
    hidden-service keys. *)
Definition rendezvous_state : State :=
  set_circuits {[ 5 := circuit_5 CIRCUIT_TYPE_RENDEZVOUS two_hops (Some (test_keys "hs")) ]}
    test_state.

Definition rp_state : State :=
  set_circuits {[ 5 := circuit_5 CIRCUIT_TYPE_RP two_hops (Some (test_keys "hs")) ]}
    test_state.

(** A circuit whose first hop has not answered yet: no verified hop. *)
Definition zero_hop_state : State :=
  set_circuits {[ 5 := circuit_5 CIRCUIT_TYPE_DATA [] None ]} test_state.

(** The surroundings of the test double: a codec that keeps the data and
    reads every packet as a packet of circuit 7. *)
#[global] Instance test_surroundings : Surroundings := {|
  encode_data := fun _ _ _ data => data;
  decode_data := fun packet => (7, ("0.0.0.0"%string, 0), ("0.0.0.0"%string, 0), packet);
  could_be_dispersy := fun _ => false;
  CIRCUIT_ID_PORT := 1024;
  ip_to_circuit_id := fun _ => 5;
  socks_server_stop := fun log => "socks stopped"%string :: log;
  super_unload_community := fun log => "unloaded"%string :: log
|}.

(** The node of [latent_exit_state] when it has opted in as an exit node. *)
Definition exit_node_settings : TunnelSettings :=
  mkSettings 4 8 100 (10 * 60) 20 (55 * 1024 * 1024) 50 true.

Definition set_settings `{Collab : Collaborators} (v : TunnelSettings) (st : State) : State :=
  mkState v (circuits st) (directions st) (relay_from_to st) (relay_session_keys st)
          (waiting_for st) (exit_sockets st) (sockets st) (exit_candidates st)
          (request_cache st) (stats st) (verified_candidates st) (has_notifier st)
          (outbox st) (ext st).

Definition willing_exit_state : State := set_settings exit_node_settings latent_exit_state.

(** A node with one own circuit (id 7), in use with [addr_a] as first hop. *)
Definition one_circuit_state : State :=
  set_circuits {[ 7 := mkCircuit 7 1 addr_a CIRCUIT_TYPE_DATA CIRCUIT_STATE_READY
                         [mkHop addr_a "pub-a" (test_keys "h1")] 0 0 0 0 None ]} test_state.

(** [relay_state] with the [directions] table lost. *)
Definition undirected_relay_state : State := set_directions ∅ relay_state.

(** A node that knows two verified candidates, one of them an exit node, and
    one whose willingness to exit was never recorded. *)
Definition cand_c : Candidate := mkCandidate addr_a (Some ("mid-c"%string, "pub-c"%string)).
Definition cand_d : Candidate := mkCandidate addr_x (Some ("mid-d"%string, "pub-d"%string)).
Definition cand_e : Candidate := mkCandidate addr_b (Some ("mid-e"%string, "pub-e"%string)).

Definition set_verified_candidates `{Collab : Collaborators} (v : list Candidate) (st : State)
  : State :=
  mkState (settings st) (circuits st) (directions st) (relay_from_to st)
          (relay_session_keys st) (waiting_for st) (exit_sockets st) (sockets st)
          (exit_candidates st) (request_cache st) (stats st) v (has_notifier st)
          (outbox st) (ext st).

Definition walked_state : State :=
  set_verified_candidates [cand_c; cand_d]
    (set_exit_candidates {[ "pub-c"%string := mkExitCandidate false 0;
                            "pub-d"%string := mkExitCandidate true 0 ]} test_state).

Definition unrecorded_state : State :=
  set_verified_candidates [cand_c; cand_e] walked_state.

(** [walked_state] with a further verified candidate that has no member
    yet. *)
Definition memberless_state : State :=
  set_verified_candidates [cand_c; mkCandidate addr_x None] walked_state.


(** A second double whose [is_allowed] refuses one packet, and the exit
    node of [enabled_exit_state] running against it. *)
Definition picky_collaborators : Collaborators := {|
  Ext := list string;
  circuit_dead := fun _ _ log => "circuit_dead"%string :: log;
  notify_joined := fun _ _ log => "joined"%string :: log;
  encrypt_str := tag_encrypt;
  decrypt_str := tag_decrypt;
  generate_diffie_shared_secret := fun dh => (dh, "Y"%string, "AUTH"%string);
  generate_session_keys := test_keys;
  impl_packet := fun name _ => name;
  convert_to_cell := fun packet => packet;
  split_encrypted_packet := fun packet _ => (EmptyString, packet);
  swap_circuit_id := fun packet _ _ _ => packet;
  is_allowed := fun data => negb (String.eqb data "forbidden");
  is_valid_address := fun _ => true;
  gethostbyname := fun host => Some host;
  encode_keys := fun keys => String.concat "," keys;
  encode_hex := fun mid => mid;
  transport_write := fun _ _ => true
|}.

Definition picky_exit_state : @State picky_collaborators :=
  @set_exit_sockets picky_collaborators {[ 7 := 0%nat ]}
    (@set_sockets picky_collaborators
       {[ 0%nat := es_set_port (Some 4242) (new_exit_socket 7 addr_a None 0) ]}
       (@initial_state picky_collaborators [])).


(** An originator with three ready data circuits of one hop. *)
Definition ready_circuit (circuit_id : Z) : Circuit :=
  mkCircuit circuit_id 1 addr_a CIRCUIT_TYPE_DATA CIRCUIT_STATE_READY
            [mkHop addr_a "pub-a" (test_keys "h1")] 0 0 0 0 None.

Definition three_circuits_state : State :=
  set_circuits {[ 3 := ready_circuit 3; 1 := ready_circuit 1; 2 := ready_circuit 2 ]}
    test_state.

(** * Properties *)

Section Frames.
Context `{Collab : Collaborators}.

(** A fold whose steps leave an observation alone leaves it alone. *)
Lemma foldl_frame {A B} (obs : State -> B) (f : State -> A -> State) (l : list A) (st : State) :
  (forall s x, obs (f s x) = obs s) -> obs (foldl f st l) = obs st.
Proof.
  intros Hstep. revert st.
  induction l as [|x l IH]; intros st; simpl; [reflexivity|].
  rewrite IH. apply Hstep.
Qed.

(** Sending touches the outbox and nothing else. *)
Lemma send_destroy_frame candidate circuit_id reason st :
  send_destroy candidate circuit_id reason st =
  set_outbox (SentPacket [candidate] "destroy"
                (impl_packet "destroy" (DestroyPayload circuit_id reason)) :: outbox st) st.
Proof. reflexivity. Qed.

Lemma destroy_exit_socket_directions c st :
  directions (destroy_exit_socket c st) = directions st.
Proof. unfold destroy_exit_socket. repeat case_match; reflexivity. Qed.

Lemma destroy_circuit_directions c st :
  directions (destroy_circuit c st) = directions st.
Proof. unfold destroy_circuit. repeat case_match; reflexivity. Qed.

Lemma destroy_relay_directions ids from st :
  directions (destroy_relay ids from st) = directions st.
Proof.
  unfold destroy_relay. repeat case_match; try reflexivity;
    apply (foldl_frame directions); intros; repeat case_match; reflexivity.
Qed.

Lemma remove_relay_entry_directions st cid :
  directions (remove_relay_entry st cid) = directions st.
Proof. unfold remove_relay_entry. repeat case_match; reflexivity. Qed.

Lemma remove_circuit_directions c info destroy st :
  directions (snd (remove_circuit c info destroy st)) = directions st.
Proof.
  unfold remove_circuit. destruct (circuits st !! c); [|reflexivity].
  destruct destroy; simpl; [apply destroy_circuit_directions | reflexivity].
Qed.

Lemma remove_relay_directions k info destroy from both st :
  directions (remove_relay k info destroy from both st) = directions st.
Proof.
  unfold remove_relay.
  rewrite (foldl_frame directions) by apply remove_relay_entry_directions.
  destruct destroy; [apply destroy_relay_directions | reflexivity].
Qed.

Lemma remove_exit_socket_directions c info destroy st :
  directions (remove_exit_socket c info destroy st) = directions st.
Proof.
  unfold remove_exit_socket. destruct (exit_sockets st !! c); [|reflexivity].
  case_match; simpl; destruct destroy; simpl;
    try apply destroy_exit_socket_directions; reflexivity.
Qed.

End Frames.

Section Teardown.
Context `{Collab : Collaborators}.

Lemma only_outbox_refl st : only_outbox st st.
Proof. destruct st; reflexivity. Qed.

Lemma only_outbox_trans st1 st2 st3 :
  only_outbox st1 st2 -> only_outbox st2 st3 -> only_outbox st1 st3.
Proof. unfold only_outbox. intros H12 H23. rewrite H23 at 1. rewrite H12. reflexivity. Qed.

Lemma only_outbox_send_destroy candidate c reason st :
  only_outbox st (send_destroy candidate c reason st).
Proof. reflexivity. Qed.

Lemma only_outbox_foldl {A} (f : State -> A -> State) (l : list A) (st : State) :
  (forall s x, only_outbox s (f s x)) -> only_outbox st (foldl f st l).
Proof.
  intros Hstep. revert st.
  induction l as [|x l IH]; intros st; simpl; [apply only_outbox_refl|].
  eapply only_outbox_trans; [apply Hstep | apply IH].
Qed.

Lemma only_outbox_destroy_exit_socket c st : only_outbox st (destroy_exit_socket c st).
Proof.
  unfold destroy_exit_socket.
  repeat case_match; first [apply only_outbox_send_destroy | apply only_outbox_refl].
Qed.

Lemma only_outbox_destroy_circuit c st : only_outbox st (destroy_circuit c st).
Proof.
  unfold destroy_circuit.
  case_match; [apply only_outbox_send_destroy | apply only_outbox_refl].
Qed.

Lemma only_outbox_destroy_relay ids from st : only_outbox st (destroy_relay ids from st).
Proof.
  unfold destroy_relay. repeat case_match; try apply only_outbox_refl;
    apply only_outbox_foldl; intros; repeat case_match;
    first [apply only_outbox_send_destroy | apply only_outbox_refl].
Qed.

(** What survives a change of the outbox. *)
Lemma only_outbox_fields st st' :
  only_outbox st st' ->
  settings st' = settings st /\ circuits st' = circuits st /\
  relay_from_to st' = relay_from_to st /\ relay_session_keys st' = relay_session_keys st /\
  exit_sockets st' = exit_sockets st /\ sockets st' = sockets st /\
  waiting_for st' = waiting_for st /\ ext st' = ext st.
Proof. intros ->. repeat split. Qed.

(** *** Exit sockets *)

Lemma remove_exit_socket_tables c info destroy st ref :
  exit_sockets st !! c = Some ref ->
  let st' := remove_exit_socket c info destroy st in
  exit_sockets st' = delete c (exit_sockets st) /\
  relay_session_keys st' =
    (if sock_enabled ref st then delete c (relay_session_keys st) else relay_session_keys st).
Proof.
  intros Href. unfold remove_exit_socket. rewrite Href.
  set (st1 := if destroy then destroy_exit_socket c st else st).
  assert (H1 : only_outbox st st1).
  { subst st1. destruct destroy; [apply only_outbox_destroy_exit_socket | apply only_outbox_refl]. }
  apply only_outbox_fields in H1 as (_ & _ & _ & Hk & He & Hs & _).
  assert (Hen : sock_enabled ref (set_exit_sockets (delete c (exit_sockets st1)) st1)
                = sock_enabled ref st).
  { unfold sock_enabled. simpl. rewrite Hs. reflexivity. }
  simpl. rewrite Hen. destruct (sock_enabled ref st); simpl; rewrite ?He, ?Hk; auto.
Qed.

Lemma remove_exit_socket_absent c info destroy st :
  exit_sockets st !! c = None -> remove_exit_socket c info destroy st = st.
Proof. intros H. unfold remove_exit_socket. rewrite H. reflexivity. Qed.

Lemma remove_exit_socket_gone c info destroy st :
  exit_sockets (remove_exit_socket c info destroy st) !! c = None.
Proof.
  destruct (exit_sockets st !! c) as [ref|] eqn:Href.
  - destruct (remove_exit_socket_tables c info destroy st ref Href) as [-> _].
    apply lookup_delete_eq.
  - rewrite remove_exit_socket_absent; assumption.
Qed.

(** *** Circuits *)

Lemma remove_circuit_gone c info destroy st :
  circuits (snd (remove_circuit c info destroy st)) !! c = None.
Proof.
  unfold remove_circuit. destruct (circuits st !! c) eqn:Hc; simpl; [|assumption].
  apply lookup_delete_eq.
Qed.

Lemma remove_circuit_absent c info destroy st :
  circuits st !! c = None -> remove_circuit c info destroy st = (false, st).
Proof. intros H. unfold remove_circuit. rewrite H. reflexivity. Qed.

(** *** Relays *)

Lemma remove_relay_entry_table st cid :
  relay_from_to (remove_relay_entry st cid) = delete cid (relay_from_to st).
Proof.
  unfold remove_relay_entry. destruct (relay_from_to st !! cid) eqn:H.
  - destruct cid; reflexivity.
  - symmetry. apply delete_id. assumption.
Qed.

Lemma remove_relay_entry_absent st cid :
  relay_from_to st !! cid = None -> remove_relay_entry st cid = st.
Proof. intros H. unfold remove_relay_entry. rewrite H. reflexivity. Qed.

Lemma removed_entries_lookup (l : list PyKey) st k :
  relay_from_to (foldl remove_relay_entry st l) !! k =
  if decide (k ∈ l) then None else relay_from_to st !! k.
Proof.
  revert st. induction l as [|x l IH]; intros st; simpl.
  - destruct (decide (k ∈ [])) as [H|H]; [inversion H | reflexivity].
  - rewrite IH, remove_relay_entry_table.
    destruct (decide (k ∈ l)) as [Hin|Hnin].
    + rewrite decide_True by (right; exact Hin). reflexivity.
    + destruct (decide (x = k)) as [->|Hne].
      * rewrite decide_True by left. apply lookup_delete_eq.
      * rewrite decide_False by (intros [->|?]%elem_of_cons; tauto).
        apply lookup_delete_ne. exact Hne.
Qed.

Lemma remove_relay_table k info destroy from (both : bool) st k' :
  relay_from_to (remove_relay k info destroy from both st) !! k' =
  if decide (k' ∈ k :: (if both then mirror_keys k st else []))
  then None else relay_from_to st !! k'.
Proof.
  unfold remove_relay. rewrite removed_entries_lookup.
  case_decide; [reflexivity|].
  destruct destroy; [|reflexivity].
  pose proof (only_outbox_destroy_relay
                (k :: (if both then mirror_keys k st else [])) from st) as H1.
  apply only_outbox_fields in H1 as (_ & _ & -> & _). reflexivity.
Qed.

Lemma mirror_keys_spec c st k :
  k ∈ mirror_keys (ikey c) st <->
  exists r, relay_from_to st !! k = Some r /\ r_circuit_id r = c.
Proof.
  unfold mirror_keys, ikey. rewrite list_elem_of_fmap. split.
  - intros [[k0 r] [-> Hin]]. apply elem_of_map_to_list in Hin.
    apply map_lookup_filter_Some in Hin as [Hl Hp]. exists r. auto.
  - intros [r [Hl Hc]]. exists (k, r). split; [reflexivity|].
    apply elem_of_map_to_list. apply map_lookup_filter_Some. auto.
Qed.

Lemma mirror_keys_nil c st :
  (forall k r, relay_from_to st !! k = Some r -> r_circuit_id r <> c) ->
  mirror_keys (ikey c) st = [].
Proof.
  intros H. destruct (mirror_keys (ikey c) st) as [|k l] eqn:E; [reflexivity|].
  assert (Hin : k ∈ mirror_keys (ikey c) st) by (rewrite E; left).
  apply mirror_keys_spec in Hin as [r [Hl Hc]]. exfalso. eapply H; eauto.
Qed.

Lemma relays_of_absent k st :
  relay_from_to st !! k = None -> relays_of [k] st = ∅.
Proof. intros H. unfold relays_of. simpl. rewrite H. reflexivity. Qed.

Lemma destroy_relay_absent k from st :
  relay_from_to st !! k = None -> destroy_relay [k] from st = st.
Proof.
  intros H. unfold destroy_relay. rewrite (relays_of_absent k st H).
  rewrite map_to_list_empty. destruct from as [p|]; [|reflexivity].
  case_bool_decide as Hin; [|reflexivity].
  rewrite fmap_nil in Hin. inversion Hin.
Qed.

(** Nothing is left to do for [k] once it is out of the table and no entry
    points back at it. *)
Lemma remove_relay_absent k info destroy from (both : bool) st :
  relay_from_to st !! k = None ->
  (if both then mirror_keys k st else []) = [] ->
  remove_relay k info destroy from both st = st.
Proof.
  intros Hk Hm. unfold remove_relay. rewrite Hm. simpl.
  destruct destroy.
  - rewrite destroy_relay_absent by assumption. apply remove_relay_entry_absent, Hk.
  - apply remove_relay_entry_absent, Hk.
Qed.

Lemma remove_relay_twice c info destroy from both info' destroy' from' st :
  let st1 := remove_relay (ikey c) info destroy from both st in
  remove_relay (ikey c) info' destroy' from' both st1 = st1.
Proof.
  intros st1. apply remove_relay_absent.
  - subst st1. rewrite remove_relay_table. rewrite decide_True by left. reflexivity.
  - destruct both; [|reflexivity].
    apply mirror_keys_nil. intros k r Hl Hc. subst st1.
    rewrite remove_relay_table in Hl. case_decide as Hin; [discriminate|].
    apply Hin. right. apply mirror_keys_spec. eauto.
Qed.

End Teardown.

Section TeardownClaims.
Context `{Collab : Collaborators}.

(** C8: teardown is idempotent.  For every circuit id [c], after a first
    [remove_circuit(c)], [remove_relay(c)] or [remove_exit_socket(c)], a second
    call changes nothing in the node state (whatever its [additional_info],
    [destroy] and [got_destroy_from]; [remove_relay] with the same
    [both_sides]); the second [remove_circuit] answers [False]. *)
Theorem teardown_idempotent (st : State) (c : Z) (info info' : string)
    (destroy destroy' : bool) (from from' : option (Z * SockAddr)) (both : bool) :
  (let st1 := snd (remove_circuit c info destroy st) in
   remove_circuit c info' destroy' st1 = (false, st1)) /\
  (let st1 := remove_relay (ikey c) info destroy from both st in
   remove_relay (ikey c) info' destroy' from' both st1 = st1) /\
  (let st1 := remove_exit_socket c info destroy st in
   remove_exit_socket c info' destroy' st1 = st1).
Proof.
  split; [|split].
  - apply remove_circuit_absent, remove_circuit_gone.
  - apply remove_relay_twice.
  - apply remove_exit_socket_absent, remove_exit_socket_gone.
Qed.

(** C9: for a circuit id [c] in [exit_sockets], [remove_exit_socket(c)] takes
    [c] out of [exit_sockets]; when the socket was never enabled the
    [relay_session_keys] table is left as it was, and the entry for [c] is
    deleted only when the socket is enabled. *)
Theorem remove_exit_socket_session_keys (st : State) (c : Z) (ref : nat)
    (s : TunnelExitSocket) (info : string) (destroy : bool) :
  exit_sockets st !! c = Some ref ->
  sockets st !! ref = Some s ->
  let st' := remove_exit_socket c info destroy st in
  exit_sockets st' = delete c (exit_sockets st) /\
  (enabled s = false -> relay_session_keys st' = relay_session_keys st) /\
  (enabled s = true -> relay_session_keys st' = delete c (relay_session_keys st)).
Proof.
  intros Href Hs st'.
  destruct (remove_exit_socket_tables c info destroy st ref Href) as [He Hk].
  fold st' in He, Hk. unfold sock_enabled in Hk. rewrite Hs in Hk.
  split; [exact He|]. split; intros Hen; rewrite Hen in Hk; exact Hk.
Qed.

(** C10: none of [remove_circuit], [remove_relay] and [remove_exit_socket]
    touches [directions]: the table is the same after the call, so an entry
    [directions[c]] stays defined once the circuit, relay or exit socket of
    [c] is gone. *)
Theorem directions_survive_teardown (st : State) (c : Z) (info : string) (destroy : bool)
    (from : option (Z * SockAddr)) (both : bool) :
  directions (snd (remove_circuit c info destroy st)) = directions st /\
  directions (remove_relay (ikey c) info destroy from both st) = directions st /\
  directions (remove_exit_socket c info destroy st) = directions st.
Proof.
  split; [|split].
  - apply remove_circuit_directions.
  - apply remove_relay_directions.
  - apply remove_exit_socket_directions.
Qed.

(** The handlers built on the removals leave [directions] alone as well. *)
Lemma on_destroy_directions messages st :
  directions (on_destroy messages st) = directions st.
Proof.
  unfold on_destroy. apply (foldl_frame directions). intros s m.
  unfold on_destroy_one. repeat case_match;
    first [reflexivity | apply remove_relay_directions
          | apply remove_exit_socket_directions | apply remove_circuit_directions].
Qed.

Lemma do_remove_directions now st :
  directions (snd (do_remove now st)) = directions st.
Proof.
  unfold do_remove, bind, modify. simpl.
  set (st1 := foldl (sweep_circuit now) st (map_to_list (circuits st))).
  set (st2 := foldl (sweep_relay now) st1 (map_to_list (relay_from_to st1))).
  set (st3 := foldl (sweep_exit_socket now) st2 (map_to_list (exit_sockets st2))).
  assert (H3 : directions st3 = directions st).
  { subst st3. rewrite (foldl_frame directions).
    - subst st2. rewrite (foldl_frame directions).
      + subst st1. apply (foldl_frame directions). intros s kv.
        unfold sweep_circuit. case_match; [apply remove_circuit_directions | reflexivity].
      + intros s kv. unfold sweep_relay.
        case_match; [apply remove_relay_directions | reflexivity].
    - intros s kv. unfold sweep_exit_socket.
      repeat case_match; first [apply remove_exit_socket_directions | reflexivity]. }
  destruct (current_candidates _); simpl; exact H3.
Qed.

End TeardownClaims.

(** A latent exit socket is removed and its session keys stay; the same
    socket once enabled loses them. *)
Lemma remove_exit_socket_session_keys_witness :
  exit_sockets (remove_exit_socket 7 "" false latent_exit_state) = delete 7 {[ 7 := 0%nat ]} /\
  relay_session_keys (remove_exit_socket 7 "" false latent_exit_state) !! 7
    = Some (test_keys "c7").
Proof.
  destruct (remove_exit_socket_session_keys latent_exit_state 7 0%nat
              (new_exit_socket 7 addr_a None 0) "" false eq_refl eq_refl)
    as (He & Hlatent & _).
  split; [exact He|]. rewrite (Hlatent eq_refl). reflexivity.
Defined.

(** Repeating a removal is a no-op for the same [both_sides]; a first removal
    of one side only leaves the other side to a later call that asks for
    both. *)
Example remove_relay_other_side_later :
  let st1 := remove_relay (ikey 1) "" false None false relay_state in
  (relay_from_to st1 !! ikey 2 = Some (route 1 addr_a) /\
   remove_relay (ikey 1) "" false None false st1 = st1 /\
   relay_from_to (remove_relay (ikey 1) "" false None true st1) !! ikey 2 = None).
Proof.
  cbv zeta. split; [reflexivity|]. split; [|reflexivity].
  apply (remove_relay_twice 1 "" false None false "" false None relay_state).
Qed.

Example remove_enabled_exit_socket_drops_keys :
  relay_session_keys (remove_exit_socket 7 "" false enabled_exit_state) !! 7 = None.
Proof. vm_compute. reflexivity. Qed.

Section PipelineClaims.
Context `{Collab : Collaborators}.

Lemma is_relay_spec c st :
  is_relay c st = true <->
  0 < c /\ ikey c ∈ dom (relay_from_to st) /\ c ∉ waiting_for st.
Proof.
  unfold is_relay. rewrite !andb_true_iff, !bool_decide_eq_true, Z.ltb_lt. tauto.
Qed.

Lemma relay_packet_local now c message_type packet st :
  is_relay c st = false -> relay_packet now c message_type packet st = (Return false, st).
Proof. intros H. unfold relay_packet, bind, gets. rewrite H. reflexivity. Qed.

(** C5, as the code has it: a packet with circuit id [c] is relayed only if
    [c > 0], [c] is a key of [relay_from_to] and [c] is not in [waiting_for]
    (this is [is_relay]); when one of the three fails, [relay_packet] answers
    [False] without touching the state and the packet is processed
    locally. *)
Theorem relay_decision (now : Time) (c : Z) (message_type packet : string) (st : State) :
  (is_relay c st = true <->
   0 < c /\ ikey c ∈ dom (relay_from_to st) /\ c ∉ waiting_for st) /\
  (is_relay c st = false ->
   relay_packet now c message_type packet st = (Return false, st)) /\
  (fst (relay_packet now c message_type packet st) = Return true ->
   is_relay c st = true).
Proof.
  split; [apply is_relay_spec|]. split; [apply relay_packet_local|].
  intros H. destruct (is_relay c st) eqn:E; [reflexivity|].
  rewrite relay_packet_local in H by assumption. discriminate.
Qed.

Lemma on_create_one_full now message st :
  max_relays_or_exits (settings st) <=
    Z.of_nat (size (relay_from_to st)) + Z.of_nat (size (exit_sockets st)) ->
  on_create_one now message st = (Return tt, st).
Proof.
  intros H. unfold on_create_one, bind, gets.
  apply Z.leb_le in H. rewrite H. reflexivity.
Qed.

(** C6: [create] messages that arrive while
    [max_relays_or_exits <= len(relay_from_to) + len(exit_sockets)] are
    ignored: the handler returns with the whole node state as it was, so no
    [directions], [relay_session_keys] or request-cache entry and no exit
    socket is installed, and nothing is sent. *)
Theorem create_ignored_when_full (now : Time) (messages : list CreateMessage) (st : State) :
  max_relays_or_exits (settings st) <=
    Z.of_nat (size (relay_from_to st)) + Z.of_nat (size (exit_sockets st)) ->
  on_create now messages st = (Return tt, st).
Proof.
  intros H. unfold on_create.
  induction messages as [|m rest IH]; simpl; [reflexivity|].
  unfold bind. rewrite on_create_one_full by assumption. exact IH.
Qed.

End PipelineClaims.

(** With a hundred exit sockets and the default limit of 100 a [create] is
    ignored. *)
Lemma create_ignored_when_full_witness :
  on_create 0 [create_from_b] full_state = (Return tt, full_state).
Proof.
  apply (create_ignored_when_full 0 [create_from_b] full_state).
  apply Z.leb_le. vm_compute. reflexivity.
Defined.

(** Below the limit the same message installs the exit socket, the session
    keys, the direction and the cache entry, and a [created] goes out. *)
Example create_accepted_below_limit :
  let st := snd (on_create 0 [create_from_b] test_state) in
  (fst (on_create 0 [create_from_b] test_state) = Return tt /\
   exit_sockets st !! 4711 = Some 0%nat /\
   directions st !! 4711 = Some EXIT_NODE /\
   is_Some (relay_session_keys st !! 4711) /\
   is_Some (request_cache st !! ("anon-created"%string, 4711)) /\
   outbox st = [SentPacket [addr_b] "created" "created"]).
Proof. vm_compute. repeat split; eauto. Qed.

(** Circuit id 0 is a key of [relay_from_to] and is not in [waiting_for], yet
    a packet carrying it is not relayed. *)
Lemma relay_decision_counterexample :
  ikey 0 ∈ dom (relay_from_to zero_relay_state) /\
  (0 ∉ waiting_for zero_relay_state) /\
  is_relay 0 zero_relay_state = false /\
  relay_packet 100 0 "data" "payload" zero_relay_state = (Return false, zero_relay_state).
Proof.
  split; [|split; [|split]].
  - apply elem_of_dom. eexists. vm_compute. reflexivity.
  - apply not_elem_of_empty.
  - reflexivity.
  - reflexivity.
Qed.

(** The same relay forwards a packet that carries the other id, 5. *)
Example relay_forwards_positive_id :
  fst (relay_packet 100 5 "data" "payload" zero_relay_state) = Return true.
Proof. vm_compute. reflexivity. Qed.


Section AbuseCounter.
Context `{Collab : Collaborators}.

Lemma remove_exit_socket_settings c info destroy st :
  settings (remove_exit_socket c info destroy st) = settings st.
Proof.
  unfold remove_exit_socket. destruct (exit_sockets st !! c); [|reflexivity].
  case_match; simpl; destruct destroy; try reflexivity;
    apply (only_outbox_fields _ _ (only_outbox_destroy_exit_socket c st)).
Qed.

Lemma close_fields s :
  es_ips (close s) = es_ips s /\ es_circuit_id (close s) = es_circuit_id s /\
  es_creation_time (close s) = es_creation_time s /\
  es_bytes_up (close s) = es_bytes_up s /\ es_bytes_down (close s) = es_bytes_down s.
Proof. unfold close. destruct (enabled s); repeat split. Qed.

(** Removing an exit socket keeps every object in the store; the object of
    the removed entry is closed, which changes its port only. *)
Lemma remove_exit_socket_object c info destroy st self s :
  sockets st !! self = Some s ->
  exists s', sockets (remove_exit_socket c info destroy st) !! self = Some s' /\
             (s' = s \/ s' = close s).
Proof.
  intros Hs. unfold remove_exit_socket.
  destruct (exit_sockets st !! c) as [ref|]; [|eauto].
  set (st1 := if destroy then destroy_exit_socket c st else st).
  assert (H1 : sockets st1 = sockets st).
  { subst st1. destruct destroy; [|reflexivity].
    apply (only_outbox_fields _ _ (only_outbox_destroy_exit_socket c st)). }
  case_match; simpl; rewrite H1; [|eauto].
  destruct (decide (ref = self)) as [->|Hne].
  - rewrite lookup_alter_eq, Hs. simpl. eauto.
  - rewrite lookup_alter_ne by assumption. eauto.
Qed.

Lemma remove_exit_socket_closes c info destroy st ref s :
  exit_sockets st !! c = Some ref -> sockets st !! ref = Some s ->
  sockets (remove_exit_socket c info destroy st) !! ref = Some (close s).
Proof.
  intros Hc Hs. unfold remove_exit_socket. rewrite Hc.
  set (st1 := if destroy then destroy_exit_socket c st else st).
  assert (H1 : sockets st1 = sockets st).
  { subst st1. destruct destroy; [|reflexivity].
    apply (only_outbox_fields _ _ (only_outbox_destroy_exit_socket c st)). }
  unfold sock_enabled. simpl. rewrite H1, Hs.
  destruct (enabled s) eqn:He; simpl; try rewrite H1.
  - rewrite lookup_alter_eq, Hs. reflexivity.
  - rewrite Hs. unfold close. rewrite He. reflexivity.
Qed.

Lemma close_not_enabled s : enabled (close s) = false.
Proof. unfold close. destruct (enabled s) eqn:E; [reflexivity | exact E]. Qed.


(** A check that passes: the counter of [ip] is stored again as it is when
    a reply was seen, set to -1 by an incoming packet, and raised by one by
    an outgoing one. *)
Lemma check_num_packets_passes st self s ip (incoming : bool) :
  sockets st !! self = Some s ->
  default 0 (es_ips s !! ip) <
    (if incoming then max_packets_without_reply (settings st) + 1
     else max_packets_without_reply (settings st)) ->
  check_num_packets self ip incoming st =
  (true, set_sockets (<[self := charge ip incoming s]> (sockets st)) st).
Proof.
  intros Hs Hlt. unfold check_num_packets, charge. rewrite Hs. unfold ips_read.
  set (n := default 0 (es_ips s !! ip)) in *. simpl.
  destruct (n <? 0) eqn:Hneg; [reflexivity|]. simpl.
  rewrite (proj2 (Z.leb_gt _ _) Hlt). unfold set_sockets. simpl.
  rewrite !insert_insert_eq. reflexivity.
Qed.














End AbuseCounter.

Section AbuseCounterClaim.
Context `{Collab : Collaborators}.


End AbuseCounterClaim.



Section Allocation.
Context `{Collab : Collaborators}.

(** The loop stops on an id that does not collide. *)
Lemma generate_loop_fresh neighbour samples st :
  forall c id rest,
    generate_loop neighbour c samples st = Some (id, rest) ->
    id_collides neighbour id st = false.
Proof.
  induction samples as [|x samples IH]; intros c id rest; simpl;
    destruct (id_collides neighbour c st) eqn:E; try discriminate.
  - intros [= <- <-]. exact E.
  - apply IH.
  - intros [= <- <-]. exact E.
Qed.

(** The id is one of the values drawn: the first that does not collide. *)
Lemma generate_loop_first neighbour samples st :
  forall c id rest,
    generate_loop neighbour c samples st = Some (id, rest) ->
    exists pre, c :: samples = pre ++ id :: rest /\
                Forall (fun y => id_collides neighbour y st = true) pre.
Proof.
  induction samples as [|x samples IH]; intros c id rest; simpl;
    destruct (id_collides neighbour c st) eqn:E; try discriminate.
  - intros [= <- <-]. exists []. split; [reflexivity | constructor].
  - intros H. destruct (IH _ _ _ H) as [pre [Heq Hall]].
    exists (c :: pre). split; [simpl; congruence | constructor; assumption].
  - intros [= <- <-]. exists []. split; [reflexivity | constructor].
Qed.

(** The loop ends as soon as the generator yields a value that is free. *)
Lemma generate_loop_returns neighbour samples st :
  forall c, Exists (fun y => id_collides neighbour y st = false) (c :: samples) ->
            is_Some (generate_loop neighbour c samples st).
Proof.
  induction samples as [|x samples IH]; intros c Hex; simpl;
    destruct (id_collides neighbour c st) eqn:E; eauto.
  - inversion Hex as [? ? Hc|? ? Hrest]; subst; [congruence | inversion Hrest].
  - apply IH. inversion Hex as [? ? Hc|? ? Hrest]; subst; [congruence | assumption].
Qed.

(** What holds of [_generate_circuit_id]: the id is a drawn value, it is the
    first one that is not a key of [circuits] and whose tuple
    [(neighbour, id)] is not a key of [relay_from_to], and the ids before it
    were drawn again, not incremented. *)
Lemma generate_circuit_id_sound neighbour samples st id rest :
  _generate_circuit_id neighbour samples st = Some (id, rest) ->
  (id ∉ dom (circuits st)) /\
  exists pre, samples = pre ++ id :: rest /\
              Forall (fun y => id_collides neighbour y st = true) pre.
Proof.
  unfold _generate_circuit_id. destruct samples as [|x samples]; [discriminate|].
  intros H. split.
  - apply generate_loop_fresh in H. unfold id_collides in H.
    apply orb_false_iff in H as [H _]. apply bool_decide_eq_false in H. exact H.
  - apply generate_loop_first in H. exact H.
Qed.

(** The id is a 32-bit value when the generator yields 32-bit values. *)
Lemma generate_circuit_id_32bit neighbour samples st id rest :
  Forall (fun y => 0 <= y < 2 ^ 32) samples ->
  _generate_circuit_id neighbour samples st = Some (id, rest) ->
  0 <= id < 2 ^ 32.
Proof.
  intros Hall H. apply generate_circuit_id_sound in H as [_ [pre [-> _]]].
  apply Forall_app in Hall as [_ Hall]. inversion Hall; assumption.
Qed.

(** The allocation returns as soon as the generator yields a free value. *)
Lemma generate_circuit_id_returns neighbour samples st :
  Exists (fun y => id_collides neighbour y st = false) samples ->
  is_Some (_generate_circuit_id neighbour samples st).
Proof.
  unfold _generate_circuit_id. destruct samples as [|x samples]; intros Hex.
  - inversion Hex.
  - apply generate_loop_returns. exact Hex.
Qed.

(** A table whose keys are all integer ids never matches the tuple probe. *)
Lemma id_collides_int_keys neighbour c st :
  (forall k, k ∈ dom (relay_from_to st) -> exists z, k = ikey z) ->
  id_collides neighbour c st = bool_decide (c ∈ dom (circuits st)).
Proof.
  intros Hint. unfold id_collides. destruct neighbour as [n|]; [|apply orb_false_r].
  rewrite (bool_decide_eq_false_2 (tkey n c ∈ dom (relay_from_to st))); [apply orb_false_r|].
  intros Hin. destruct (Hint _ Hin) as [z Hz]. discriminate.
Qed.

End Allocation.

(** C2: the allocation does not avoid the relays of the neighbour.  The node
    relays circuit 7 towards [addr_b]; asked for an id for a new circuit
    whose first hop is [addr_b], with a generator that yields 7 first,
    [_generate_circuit_id] returns 7: the probe [(neighbour, 7) in
    relay_from_to] finds nothing in a table keyed by integers. *)
Theorem generate_circuit_id_collides_with_relay :
  _generate_circuit_id (Some addr_b) [7; 8] relay_b_state = Some (7, [8]) /\
  relay_from_to relay_b_state !! ikey 7 = Some (route 9 addr_b) /\
  r_sock_addr (route 9 addr_b) = addr_b.
Proof. vm_compute. repeat split. Qed.

(** An id that is a key of [circuits] is drawn again. *)
Example generate_circuit_id_resamples :
  _generate_circuit_id None [7; 7; 12; 13]
    (set_circuits {[ 7 := mkCircuit 7 1 addr_a CIRCUIT_TYPE_DATA CIRCUIT_STATE_READY []
                            0 0 0 0 None ]} test_state)
  = Some (12, [13]).
Proof. vm_compute. reflexivity. Qed.

Section DestroyHandling.
Context `{Collab : Collaborators}.

(** A [destroy] for an exit socket or an own circuit from another address
    than the recorded one changes nothing. *)
Lemma on_destroy_rejects_exit_and_circuit st message :
  ikey (dm_circuit_id message) ∉ dom (relay_from_to st) ->
  (forall ref s, exit_sockets st !! dm_circuit_id message = Some ref ->
                 sockets st !! ref = Some s -> dm_sock_addr message <> es_sock_addr s) ->
  (forall c, circuits st !! dm_circuit_id message = Some c ->
             dm_sock_addr message <> c_first_hop c) ->
  on_destroy_one st message = st.
Proof.
  intros Hrel Hexit Hcirc. unfold on_destroy_one.
  rewrite bool_decide_eq_false_2 by assumption.
  destruct (exit_sockets st !! dm_circuit_id message) as [ref|] eqn:He.
  - destruct (sockets st !! ref) as [s|] eqn:Hs; [|reflexivity].
    rewrite bool_decide_eq_true_2 by eauto. reflexivity.
  - destruct (circuits st !! dm_circuit_id message) as [c|] eqn:Hc; [|reflexivity].
    rewrite bool_decide_eq_true_2 by eauto. reflexivity.
Qed.

End DestroyHandling.

(** C4: a [destroy] for a relayed circuit is not rejected when it comes from
    a stranger.  The node relays circuit 1 (from [addr_a]) to circuit 2 (to
    [addr_b]); [addr_x] sends [destroy(1)].  [destroy_relay] refuses to
    forward it (nothing is sent), but [remove_relay] goes on and deletes both
    relay entries and their session keys. *)
Theorem destroy_from_stranger_removes_relay :
  let st' := on_destroy [mkDestroyMessage addr_x 1] relay_state in
  (addr_x <> addr_a /\
   relay_from_to relay_state = {[ ikey 1 := route 2 addr_b; ikey 2 := route 1 addr_a ]} /\
   relay_from_to st' = ∅ /\
   relay_session_keys st' = ∅ /\
   outbox st' = []).
Proof.
  cbv zeta. split; [discriminate|]. split; [reflexivity|].
  split; [|split].
  - apply map_eq. intros k. vm_compute. destruct k as [[|p|p]|[? ?]]; reflexivity.
  - apply map_eq. intros k. vm_compute. destruct k; reflexivity.
  - vm_compute. reflexivity.
Qed.

(** The declared peer [addr_a] is obeyed: both entries go and the destroy is
    forwarded to [addr_b] with the outgoing id 2. *)
Example destroy_from_declared_peer :
  let st' := on_destroy [mkDestroyMessage addr_a 1] relay_state in
  (relay_from_to st' !! ikey 1 = None /\ relay_from_to st' !! ikey 2 = None /\
   outbox st' = [SentPacket [addr_b] "destroy" "destroy"]).
Proof. vm_compute. repeat split. Qed.

Section Sweeper.
Context `{Collab : Collaborators}.

Lemma same_clocks_refl st : same_clocks st st.
Proof. split; reflexivity. Qed.

Lemma same_clocks_trans st0 st1 st2 :
  same_clocks st0 st1 -> same_clocks st1 st2 -> same_clocks st0 st2.
Proof. intros [H1 H2] [H3 H4]. split; [congruence|]. intros ref. rewrite H4. apply H2. Qed.

Lemma swept_same_clocks now st0 st ref :
  same_clocks st0 st -> swept now st ref = swept now st0 ref.
Proof.
  intros [Hset Hclk]. specialize (Hclk ref). unfold swept, clock_of in *. rewrite Hset.
  destruct (sockets st !! ref) as [s|], (sockets st0 !! ref) as [s0|];
    simpl in Hclk; try discriminate; [|reflexivity].
  injection Hclk as Hc Hu Hd. unfold exit_socket_expired. rewrite Hc, Hu, Hd. reflexivity.
Qed.

Lemma remove_exit_socket_exit_sockets c info destroy st :
  exit_sockets (remove_exit_socket c info destroy st) = delete c (exit_sockets st).
Proof.
  destruct (exit_sockets st !! c) as [ref|] eqn:E.
  - apply (remove_exit_socket_tables c info destroy st ref E).
  - rewrite remove_exit_socket_absent by assumption. symmetry. apply delete_id, E.
Qed.

Lemma remove_exit_socket_same_clocks c info destroy st :
  same_clocks st (remove_exit_socket c info destroy st).
Proof.
  split; [apply remove_exit_socket_settings|]. intros ref.
  destruct (sockets st !! ref) as [s|] eqn:Hs.
  - destruct (remove_exit_socket_object c info destroy st ref s Hs) as [s' [-> Hor]].
    destruct Hor as [->| ->]; [reflexivity|].
    destruct (close_fields s) as (_ & _ & Hc & Hu & Hd).
    simpl. rewrite Hc, Hu, Hd. reflexivity.
  - assert (Hn : sockets (remove_exit_socket c info destroy st) !! ref = None).
    { unfold remove_exit_socket. destruct (exit_sockets st !! c) as [r|]; [|exact Hs].
      set (st1 := if destroy then destroy_exit_socket c st else st).
      assert (H1 : sockets st1 = sockets st).
      { subst st1. destruct destroy; [|reflexivity].
        apply (only_outbox_fields _ _ (only_outbox_destroy_exit_socket c st)). }
      destruct (sock_enabled r _); simpl; rewrite H1; [|exact Hs].
      rewrite lookup_alter. case_decide; [subst; rewrite Hs|]; auto. }
    rewrite Hn. reflexivity.
Qed.

(** One step of the third loop: the entry goes exactly when [swept]. *)
Lemma sweep_exit_socket_step now st k ref :
  exists reason,
    sweep_exit_socket now st (k, ref) =
    if swept now st ref then remove_exit_socket k reason false st else st.
Proof.
  unfold sweep_exit_socket, swept. simpl.
  destruct (sockets st !! ref) as [s|]; [|exists ""; reflexivity].
  destruct (exit_socket_expired now (settings st) s) as [reason|] eqn:E.
  - exists reason. rewrite bool_decide_eq_true_2 by eauto. reflexivity.
  - exists "". rewrite bool_decide_eq_false_2; [reflexivity|]. intros [? ?]. discriminate.
Qed.

Lemma sweep_exit_sockets_fold now st0 c (l : list (Z * nat)) :
  forall st, same_clocks st0 st ->
    let st' := foldl (sweep_exit_socket now) st l in
    same_clocks st0 st' /\
    (exit_sockets st !! c = None -> exit_sockets st' !! c = None) /\
    ((exists ref, (c, ref) ∈ l /\ swept now st0 ref = true) ->
     exit_sockets st' !! c = None) /\
    ((forall ref, (c, ref) ∈ l -> swept now st0 ref = false) ->
     exit_sockets st' !! c = exit_sockets st !! c).
Proof.
  induction l as [|[k ref] l IH]; intros st Hsame; simpl.
  - split; [exact Hsame|]. split; [auto|]. split; [|auto].
    intros [r [Hin _]]. inversion Hin.
  - destruct (sweep_exit_socket_step now st k ref) as [reason Hstep].
    rewrite Hstep. rewrite (swept_same_clocks now st0 st ref Hsame).
    destruct (swept now st0 ref) eqn:Hsw.
    + set (st1 := remove_exit_socket k reason false st).
      assert (Hsame1 : same_clocks st0 st1).
      { eapply same_clocks_trans; [exact Hsame | apply remove_exit_socket_same_clocks]. }
      assert (He1 : exit_sockets st1 = delete k (exit_sockets st))
        by apply remove_exit_socket_exit_sockets.
      destruct (IH st1 Hsame1) as (Ha & Hmono & Hdel & Hkeep).
      split; [exact Ha|]. split; [|split].
      * intros Hn. apply Hmono. rewrite He1. rewrite lookup_delete. case_decide; auto.
      * intros [r [Hin Hr]]. apply elem_of_cons in Hin as [[= -> ->]|Hin].
        -- apply Hmono. rewrite He1. apply lookup_delete_eq.
        -- apply Hdel. eauto.
      * intros Hall. rewrite Hkeep by (intros r Hin; apply Hall; right; exact Hin).
        rewrite He1. apply lookup_delete_ne. intros ->.
        specialize (Hall ref ltac:(left)). congruence.
    + destruct (IH st Hsame) as (Ha & Hmono & Hdel & Hkeep).
      split; [exact Ha|]. split; [exact Hmono|]. split.
      * intros [r [Hin Hr]]. apply elem_of_cons in Hin as [[= -> ->]|Hin]; [congruence|].
        apply Hdel. eauto.
      * intros Hall. apply Hkeep. intros r Hin. apply Hall. right. exact Hin.
Qed.

(** The first two loops of [do_remove] leave exit sockets alone. *)
Lemma sweep_circuit_exit_view now st kv :
  (settings (sweep_circuit now st kv), exit_sockets (sweep_circuit now st kv),
   sockets (sweep_circuit now st kv)) = (settings st, exit_sockets st, sockets st).
Proof.
  unfold sweep_circuit. case_match; [|reflexivity].
  unfold remove_circuit. case_match; reflexivity.
Qed.

Lemma remove_relay_entry_exit_view st cid :
  (settings (remove_relay_entry st cid), exit_sockets (remove_relay_entry st cid),
   sockets (remove_relay_entry st cid)) = (settings st, exit_sockets st, sockets st).
Proof. unfold remove_relay_entry. repeat case_match; reflexivity. Qed.

Lemma sweep_relay_exit_view now st kv :
  (settings (sweep_relay now st kv), exit_sockets (sweep_relay now st kv),
   sockets (sweep_relay now st kv)) = (settings st, exit_sockets st, sockets st).
Proof.
  unfold sweep_relay. case_match; [|reflexivity].
  unfold remove_relay.
  apply (foldl_frame (fun s => (settings s, exit_sockets s, sockets s))).
  apply remove_relay_entry_exit_view.
Qed.

(** The exit-socket table after [do_remove], whether or not the last part
    raises. *)
Lemma do_remove_exit_sockets_fold now st :
  exists st2,
    (settings st2, exit_sockets st2, sockets st2) = (settings st, exit_sockets st, sockets st) /\
    exit_sockets (snd (do_remove now st)) =
    exit_sockets (foldl (sweep_exit_socket now) st2 (map_to_list (exit_sockets st2))).
Proof.
  unfold do_remove, bind, modify. simpl.
  set (st1 := foldl (sweep_circuit now) st (map_to_list (circuits st))).
  set (st2 := foldl (sweep_relay now) st1 (map_to_list (relay_from_to st1))).
  exists st2. split.
  - subst st2.
    rewrite (foldl_frame (fun s => (settings s, exit_sockets s, sockets s)))
      by apply sweep_relay_exit_view.
    subst st1.
    apply (foldl_frame (fun s => (settings s, exit_sockets s, sockets s))).
    apply sweep_circuit_exit_view.
  - destruct (current_candidates _); reflexivity.
Qed.

Lemma exit_socket_expired_spec now cfg s :
  is_Some (exit_socket_expired now cfg s) <->
  max_time cfg < now - es_creation_time s \/ max_traffic cfg < es_bytes_up s + es_bytes_down s.
Proof.
  unfold exit_socket_expired.
  destruct (es_creation_time s <? now - max_time cfg) eqn:E1.
  - apply Z.ltb_lt in E1. split; [intros _; left; lia | eauto].
  - apply Z.ltb_ge in E1.
    destruct (max_traffic cfg <? es_bytes_up s + es_bytes_down s) eqn:E2.
    + apply Z.ltb_lt in E2. split; [intros _; right; lia | eauto].
    + apply Z.ltb_ge in E2. split; [intros [? ?]; discriminate | lia].
Qed.

(** C3, as the code has it: on a sweeper tick an exit socket is removed if
    [now - creation_time > max_time] or [bytes_up + bytes_down > max_traffic],
    and only then; there is no inactivity rule for exit sockets (they record
    no [last_incoming]). *)
Theorem do_remove_exit_sockets (now : Time) (st : State) (c : Z) :
  exit_sockets (snd (do_remove now st)) !! c =
    match exit_sockets st !! c with
    | Some ref => if swept now st ref then None else Some ref
    | None => None
    end /\
  (forall ref s, sockets st !! ref = Some s ->
     (swept now st ref = true <->
      max_time (settings st) < now - es_creation_time s \/
      max_traffic (settings st) < es_bytes_up s + es_bytes_down s)).
Proof.
  split.
  - destruct (do_remove_exit_sockets_fold now st) as [st2 [Hview ->]].
    injection Hview as Hset He Hs.
    assert (Hsame : same_clocks st st2).
    { split; [exact Hset|]. intros ref. rewrite Hs. reflexivity. }
    destruct (sweep_exit_sockets_fold now st c (map_to_list (exit_sockets st2)) st2 Hsame)
      as (_ & Hmono & Hdel & Hkeep).
    rewrite He in *.
    destruct (exit_sockets st !! c) as [ref|] eqn:Hc.
    + destruct (swept now st ref) eqn:Hsw.
      * apply Hdel. exists ref. split; [|exact Hsw]. apply elem_of_map_to_list. exact Hc.
      * rewrite Hkeep; [reflexivity|]. intros r Hin.
        apply elem_of_map_to_list in Hin. congruence.
    + apply Hmono. reflexivity.
  - intros ref s Hs. unfold swept. rewrite Hs.
    rewrite bool_decide_eq_true. apply exit_socket_expired_spec.
Qed.

End Sweeper.

(** An exit socket created at time 0 that never saw a packet: at time 100 it
    is idle for more than [max_time_inactive] = 20 seconds, whatever is taken
    for its last inbound packet, and the sweeper keeps it. *)
Lemma do_remove_keeps_idle_exit_socket :
  claimed_exit_socket_rule 100 default_settings 0 (new_exit_socket 7 addr_a None 0) = true /\
  sockets latent_exit_state !! 0%nat = Some (new_exit_socket 7 addr_a None 0) /\
  fst (do_remove 100 latent_exit_state) = Return tt /\
  exit_sockets (snd (do_remove 100 latent_exit_state)) !! 7 = Some 0%nat.
Proof. vm_compute. repeat split. Qed.

(** The same socket is swept once it is older than [max_time] = 600. *)
Example do_remove_sweeps_old_exit_socket :
  exit_sockets (snd (do_remove 601 latent_exit_state)) !! 7 = None.
Proof. vm_compute. reflexivity. Qed.

Section LayeredCrypto.
Context `{Collab : Collaborators}.

(** The law of the cipher: decrypting with the key and salt a content was
    encrypted with gives the content back, whatever the explicit salt. *)
Hypothesis decrypt_encrypt :
  forall content key salt salt_explicit,
    decrypt_str (encrypt_str content key salt salt_explicit) key salt = Some content.

Lemma same_secret_spec k k' d :
  same_secret k k' = true -> sk_key k d = sk_key k' d /\ sk_salt k d = sk_salt k' d.
Proof.
  unfold same_secret. rewrite !andb_true_iff, !String.eqb_eq.
  intros [[[H1 H2] H3] H4]. destruct d; simpl; auto.
Qed.

Lemma sk_bump_secret k d d' :
  sk_key (sk_bump k d) d' = sk_key k d' /\ sk_salt (sk_bump k d) d' = sk_salt k d'.
Proof. destruct d, d'; split; reflexivity. Qed.

(** A layer put on with [k] comes off with any [k'] that shares the secret. *)
Lemma decrypt_with_encrypt_with k k' d content :
  same_secret k k' = true ->
  decrypt_with k' d (snd (encrypt_with k d content)) = Some content.
Proof.
  intros Hk. destruct (same_secret_spec k k' d Hk) as [Hkey Hsalt].
  unfold decrypt_with, encrypt_with, get_session_keys. simpl.
  destruct (sk_bump_secret k d d) as [-> ->]. rewrite <- Hkey, <- Hsalt.
  apply decrypt_encrypt.
Qed.

Lemma same_secret_refl k : same_secret k k = true.
Proof. unfold same_secret. rewrite !String.eqb_refl. reflexivity. Qed.

Lemma same_secret_sym k k' : same_secret k k' = same_secret k' k.
Proof.
  unfold same_secret.
  rewrite (String.eqb_sym (key_originator k)), (String.eqb_sym (key_exit k)),
    (String.eqb_sym (salt_originator k)), (String.eqb_sym (salt_exit k)).
  reflexivity.
Qed.

Lemma encrypt_hops_cons h rest content :
  snd (encrypt_hops (h :: rest) content) =
  snd (encrypt_hops rest (snd (encrypt_with (hop_session_keys h) EXIT_NODE content))).
Proof.
  cbn [encrypt_hops].
  destruct (encrypt_with (hop_session_keys h) EXIT_NODE content) as [k' c'].
  cbn [snd]. destruct (encrypt_hops rest c'). reflexivity.
Qed.

Lemma encrypt_hops_app l1 l2 content :
  snd (encrypt_hops (l1 ++ l2) content) = snd (encrypt_hops l2 (snd (encrypt_hops l1 content))).
Proof.
  revert content. induction l1 as [|h l1 IH]; intros content; [reflexivity|].
  rewrite <- app_comm_cons, !encrypt_hops_cons. apply IH.
Qed.

(** The layers [crypto_out] puts on for the hops come off first hop first. *)
Lemma peel_encrypt_hops hops content :
  peel EXIT_NODE hops (snd (encrypt_hops (rev hops) content)) = Some content.
Proof.
  revert content. induction hops as [|h hops IH]; intros content; [reflexivity|].
  cbn [rev peel]. rewrite encrypt_hops_app, encrypt_hops_cons. cbn [encrypt_hops snd].
  rewrite decrypt_with_encrypt_with by apply same_secret_refl. apply IH.
Qed.

Lemma decrypt_hops_peel hops content : decrypt_hops hops content = peel ORIGINATOR hops content.
Proof.
  revert content. induction hops as [|h hops IH]; intros content; simpl; [reflexivity|].
  destruct (decrypt_with (hop_session_keys h) ORIGINATOR content); [apply IH | reflexivity].
Qed.

Lemma crypto_out_originator node circuit_id circuit content is_data :
  circuits node !! circuit_id = Some circuit ->
  (is_data && is_hidden_type (c_ctype circuit) = true -> is_Some (c_hs_session_keys circuit)) ->
  fst (crypto_out circuit_id content is_data node) = Return (sent_content circuit is_data content).
Proof.
  intros Hc Hhs. unfold crypto_out, sent_content. rewrite Hc.
  destruct (is_data && is_hidden_type (c_ctype circuit)) eqn:E.
  - destruct (Hhs eq_refl) as [hs Heq]. rewrite Heq.
    destruct (encrypt_with hs _ content) as [hs' c1]. simpl.
    destruct (encrypt_hops (rev (c_hops circuit)) c1). reflexivity.
  - destruct (encrypt_hops (rev (c_hops circuit)) content). reflexivity.
Qed.

Lemma holds_keys_spec k node circuit_id :
  holds_keys k node circuit_id = true ->
  exists k', relay_session_keys node !! circuit_id = Some k' /\ same_secret k k' = true.
Proof.
  unfold holds_keys. destruct (relay_session_keys node !! circuit_id); [eauto | discriminate].
Qed.

Lemma hop_path_nil d hops : hop_path d hops [] = true -> hops = [].
Proof. destruct hops; [reflexivity | discriminate]. Qed.

Lemma decrypt_with_same_secret k k' d content :
  same_secret k k' = true -> decrypt_with k' d content = decrypt_with k d content.
Proof.
  intros H. unfold decrypt_with.
  destruct (same_secret_spec k k' d H) as [-> ->]. reflexivity.
Qed.

(** The hops peel the [EXIT_NODE] layers, first hop first. *)
Lemma relay_forward_peel hops : forall path is_data content,
  hop_path EXIT_NODE hops path = true ->
  relay_forward path is_data content = outcome_of (peel EXIT_NODE hops content).
Proof.
  induction hops as [|h hops IH]; intros [|[node cid] path] is_data content Hp;
    try discriminate; [reflexivity|].
  simpl in Hp. apply andb_true_iff in Hp as [Hp Hrest]. apply andb_true_iff in Hp as [Hk Hrole].
  destruct (holds_keys_spec _ _ _ Hk) as [k' [Hlook Hsame]].
  simpl peel. rewrite <- (decrypt_with_same_secret _ _ EXIT_NODE content Hsame).
  destruct path as [|p path].
  - apply hop_path_nil in Hrest. subst hops. simpl.
    unfold not_own in Hrole. unfold crypto_in, crypto_in_relay.
    destruct (circuits node !! cid); [discriminate|]. rewrite Hlook.
    destruct (decrypt_with k' EXIT_NODE content); reflexivity.
  - unfold has_direction in Hrole. apply bool_decide_eq_true in Hrole.
    change (relay_forward ((node, cid) :: p :: path) is_data content)
      with (match fst (crypto_relay cid content node) with
            | Return content' => relay_forward (p :: path) is_data content'
            | Raise e => Raise e
            end).
    unfold crypto_relay. rewrite Hrole, Hlook.
    destruct (decrypt_with k' EXIT_NODE content) as [c'|]; cbn [fst]; [|reflexivity].
    apply (IH (p :: path)). exact Hrest.
Qed.

(** The hops put on the [ORIGINATOR] layers, last hop first. *)
Lemma relay_backward_wrap hops : forall path is_data content,
  hop_path ORIGINATOR hops path = true ->
  exists wrapped, relay_backward path is_data content = Return wrapped /\
                  peel ORIGINATOR hops wrapped = Some content.
Proof.
  induction hops as [|h hops IH]; intros [|[node cid] path] is_data content Hp;
    try discriminate; [exists content; split; reflexivity|].
  simpl in Hp. apply andb_true_iff in Hp as [Hp Hrest]. apply andb_true_iff in Hp as [Hk Hrole].
  destruct (holds_keys_spec _ _ _ Hk) as [k' [Hlook Hsame]].
  rewrite same_secret_sym in Hsame.
  destruct path as [|p path].
  - apply hop_path_nil in Hrest. subst hops. simpl.
    unfold not_own in Hrole. unfold crypto_out.
    destruct (circuits node !! cid); [discriminate|]. rewrite Hlook.
    destruct (encrypt_with k' ORIGINATOR content) as [k2 c2] eqn:E. simpl.
    exists c2. split; [reflexivity|].
    assert (Hc : c2 = snd (encrypt_with k' ORIGINATOR content)) by (rewrite E; reflexivity).
    rewrite Hc, decrypt_with_encrypt_with by assumption. reflexivity.
  - unfold has_direction in Hrole. apply bool_decide_eq_true in Hrole.
    destruct (IH (p :: path) is_data content Hrest) as [inner [Hrun Hpeel]].
    change (relay_backward ((node, cid) :: p :: path) is_data content)
      with (match relay_backward (p :: path) is_data content with
            | Return content' => fst (crypto_relay cid content' node)
            | Raise e => Raise e
            end).
    rewrite Hrun. unfold crypto_relay. rewrite Hrole, Hlook.
    destruct (encrypt_with k' ORIGINATOR inner) as [k2 c2] eqn:E. simpl.
    exists c2. split; [reflexivity|].
    assert (Hc : c2 = snd (encrypt_with k' ORIGINATOR inner)) by (rewrite E; reflexivity).
    rewrite Hc, decrypt_with_encrypt_with by assumption. exact Hpeel.
Qed.

End LayeredCrypto.

Section RoundTrip.
Context `{Collab : Collaborators}.

Lemma crypto_in_originator node circuit_id circuit content is_data :
  circuits node !! circuit_id = Some circuit ->
  c_hops circuit <> [] ->
  fst (crypto_in circuit_id content is_data node) =
    match peel ORIGINATOR (c_hops circuit) content with
    | None => Raise CryptoException
    | Some content1 =>
        if is_data && is_hidden_type (c_ctype circuit) then
          match c_hs_session_keys circuit with
          | Some hs =>
              outcome_of (decrypt_with hs
                            (dir_of_bool (bool_decide (c_ctype circuit <> CIRCUIT_TYPE_RP)))
                            content1)
          | None => Raise TypeError
          end
        else Return content1
    end.
Proof.
  intros Hc Hne. unfold crypto_in. rewrite Hc.
  destruct (c_hops circuit) as [|h hops] eqn:Eh; [congruence|].
  cbn [length]. rewrite (proj2 (Z.ltb_lt 0 _)) by lia.
  rewrite decrypt_hops_peel.
  destruct (peel ORIGINATOR (h :: hops) content) as [c1|]; [|reflexivity].
  destruct (is_data && is_hidden_type (c_ctype circuit)); [|reflexivity].
  destruct (c_hs_session_keys circuit) as [hs|]; [|reflexivity].
  destruct (decrypt_with hs _ c1); reflexivity.
Qed.

(** The hidden-service directions of the two ends meet: what
    [int(ctype == RP)] selects at one end is what [int(ctype != RP)] selects
    at the other end, of the other hidden type. *)
Lemma hidden_directions_meet (t t' : CircuitType) :
  is_hidden_type t = true -> is_hidden_type t' = true -> t <> t' ->
  dir_of_bool (bool_decide (t' <> CIRCUIT_TYPE_RP)) =
  dir_of_bool (bool_decide (t = CIRCUIT_TYPE_RP)).
Proof. destruct t, t'; try discriminate; try congruence; intros; reflexivity. Qed.

(** C7, as the code has it: layered encryption and decryption are inverse
    between corresponding ends, for a receiving circuit with at least one
    hop.  The sender's [crypto_out] puts on the optional hidden-service layer
    (direction [int(ctype == RP)]) and one layer per hop, last hop first; the
    sender's hops peel these; the receiver's hops put on one layer each and
    the receiver's [crypto_in] peels them, first hop first, and then the
    hidden-service layer (direction [int(ctype != RP)]), which gives the
    payload back. *)
Theorem layered_round_trip (sender receiver : State) (cs cr : Z) (circuit_s circuit_r : Circuit)
    (path_s path_r : list (State * Z)) (payload : string) (is_data d1 d2 : bool) :
  (forall content key salt salt_explicit,
      decrypt_str (encrypt_str content key salt salt_explicit) key salt = Some content) ->
  circuits sender !! cs = Some circuit_s ->
  circuits receiver !! cr = Some circuit_r ->
  c_hops circuit_r <> [] ->
  hop_path EXIT_NODE (c_hops circuit_s) path_s = true ->
  hop_path ORIGINATOR (c_hops circuit_r) path_r = true ->
  hs_agree is_data circuit_s circuit_r = true ->
  exists x1 x2 x3,
    fst (crypto_out cs payload is_data sender) = Return x1 /\
    x1 = sent_content circuit_s is_data payload /\
    peel EXIT_NODE (c_hops circuit_s) x1 = Some x2 /\
    relay_forward path_s d1 x1 = Return x2 /\
    relay_backward path_r d2 x2 = Return x3 /\
    fst (crypto_in cr x3 is_data receiver) = Return payload.
Proof.
  intros Hdec Hs Hr Hne Hps Hpr Hhs.
  unfold hs_agree in Hhs.
  set (inner := if is_data && is_hidden_type (c_ctype circuit_s) then
                  match c_hs_session_keys circuit_s with
                  | Some hs =>
                      snd (encrypt_with hs
                             (dir_of_bool (bool_decide (c_ctype circuit_s = CIRCUIT_TYPE_RP)))
                             payload)
                  | None => payload
                  end
                else payload).
  assert (Hkeys : is_data && is_hidden_type (c_ctype circuit_s) = true ->
                  is_Some (c_hs_session_keys circuit_s)).
  { intros E. rewrite E in Hhs. apply andb_true_iff in Hhs as [_ Hk].
    destruct (c_hs_session_keys circuit_s); [eauto | discriminate]. }
  assert (Hpeel : peel EXIT_NODE (c_hops circuit_s) (sent_content circuit_s is_data payload)
                  = Some inner) by apply (peel_encrypt_hops Hdec).
  destruct (relay_backward_wrap Hdec (c_hops circuit_r) path_r d2 inner Hpr)
    as [x3 [Hback Hpeel3]].
  exists (sent_content circuit_s is_data payload), inner, x3.
  split; [apply crypto_out_originator; assumption|].
  split; [reflexivity|]. split; [exact Hpeel|].
  split; [rewrite (relay_forward_peel (c_hops circuit_s)) by assumption;
          rewrite Hpeel; reflexivity|].
  split; [exact Hback|].
  rewrite (crypto_in_originator receiver cr circuit_r) by assumption. rewrite Hpeel3.
  subst inner. destruct (is_data && is_hidden_type (c_ctype circuit_s)) eqn:E.
  - apply andb_true_iff in Hhs as [Hhs Hsame]. apply andb_true_iff in Hhs as [Hhid Hdiff].
    apply bool_decide_eq_true in Hdiff. apply andb_true_iff in E as [Hdata Hhid_s].
    rewrite Hdata, Hhid. cbn [andb].
    destruct (c_hs_session_keys circuit_s) as [k|]; [|discriminate].
    destruct (c_hs_session_keys circuit_r) as [k'|]; [|discriminate].
    rewrite (hidden_directions_meet (c_ctype circuit_s) (c_ctype circuit_r)) by assumption.
    rewrite (decrypt_with_encrypt_with Hdec) by assumption. reflexivity.
  - apply negb_true_iff in Hhs. rewrite Hhs. reflexivity.
Qed.

End RoundTrip.

(** The tag cipher of the test double obeys the law of the cipher. *)
Lemma strip_prefix_app p s : strip_prefix p (p +:+ s) = Some s.
Proof.
  induction p as [|a p IH]; simpl; [reflexivity|].
  rewrite Ascii.eqb_refl. exact IH.
Qed.

Lemma tag_cipher_law content key salt salt_explicit :
  tag_decrypt (tag_encrypt content key salt salt_explicit) key salt = Some content.
Proof. apply strip_prefix_app. Qed.

(** A data cell of the two-hop circuit 5, out through its hops and back. *)
Lemma layered_round_trip_witness :
  exists x1 x2 x3,
    fst (crypto_out 5 "hello" true originator_state) = Return x1 /\
    x1 = sent_content (circuit_5 CIRCUIT_TYPE_DATA two_hops None) true "hello" /\
    peel EXIT_NODE two_hops x1 = Some x2 /\
    relay_forward [(hop1_state, 11); (hop2_state, 12)] true x1 = Return x2 /\
    relay_backward [(hop1_state, 21); (hop2_state, 12)] true x2 = Return x3 /\
    fst (crypto_in 5 x3 true originator_state) = Return "hello"%string.
Proof.
  apply (layered_round_trip originator_state originator_state 5 5
           (circuit_5 CIRCUIT_TYPE_DATA two_hops None)
           (circuit_5 CIRCUIT_TYPE_DATA two_hops None)
           [(hop1_state, 11); (hop2_state, 12)] [(hop1_state, 21); (hop2_state, 12)]
           "hello" true true true tag_cipher_law);
    first [reflexivity | discriminate].
Defined.

(** The same with the values spelled out. *)
Example data_cell_layers :
  fst (crypto_out 5 "hello" true originator_state)
    = Return "h1-kxh1-sxh2-kxh2-sxhello"%string /\
  relay_forward [(hop1_state, 11); (hop2_state, 12)] true "h1-kxh1-sxh2-kxh2-sxhello"
    = Return "hello"%string /\
  relay_backward [(hop1_state, 21); (hop2_state, 12)] true "hello"
    = Return "h1-koh1-soh2-koh2-sohello"%string /\
  fst (crypto_in 5 "h1-koh1-soh2-koh2-sohello" true originator_state) = Return "hello"%string.
Proof. vm_compute. repeat split. Qed.

(** Data between the two ends of a hidden-service connection, in both
    directions: the extra layer goes on with [int(ctype == RP)] and comes off
    with [int(ctype != RP)] at the other end. *)
Example hidden_service_layers :
  fst (crypto_out 5 "hello" true rendezvous_state)
    = Return "h1-kxh1-sxh2-kxh2-sxhs-kohs-sohello"%string /\
  fst (crypto_in 5 "h1-koh1-soh2-koh2-sohs-kohs-sohello" true rp_state)
    = Return "hello"%string /\
  fst (crypto_out 5 "hello" true rp_state)
    = Return "h1-kxh1-sxh2-kxh2-sxhs-kxhs-sxhello"%string /\
  fst (crypto_in 5 "h1-koh1-soh2-koh2-sohs-kxhs-sxhello" true rendezvous_state)
    = Return "hello"%string.
Proof. vm_compute. repeat split. Qed.

(** A circuit without a verified hop: [crypto_out] sends the payload as it
    is, there is no hop to handle it, and [crypto_in] on the same circuit
    raises [CryptoException]. *)
Lemma zero_hop_round_trip_fails :
  circuits zero_hop_state !! 5 = Some (circuit_5 CIRCUIT_TYPE_DATA [] None) /\
  fst (crypto_out 5 "hello" false zero_hop_state) = Return "hello"%string /\
  relay_forward [] false "hello" = Return "hello"%string /\
  relay_backward [] false "hello" = Return "hello"%string /\
  fst (crypto_in 5 "hello" false (snd (crypto_out 5 "hello" false zero_hop_state)))
    = Raise CryptoException.
Proof. vm_compute. repeat split. Qed.

(** * Further properties *)

Section AllocationMore.
Context `{Collab : Collaborators}.

(** X1: an id returned by [_generate_circuit_id] is one of the values the
    generator yielded, the first that is neither a key of [circuits] nor,
    paired with the neighbour, a key of [relay_from_to]; every value before
    it collided and was drawn again; it is a 32-bit value when the drawn
    values are. *)
Theorem generated_id_is_first_free (neighbour : option SockAddr) (samples : list Z)
    (st : State) (id : Z) (rest : list Z) :
  _generate_circuit_id neighbour samples st = Some (id, rest) ->
  (id ∉ dom (circuits st)) /\
  (forall n, neighbour = Some n -> tkey n id ∉ dom (relay_from_to st)) /\
  (exists pre, samples = pre ++ id :: rest /\
               Forall (fun y => id_collides neighbour y st = true) pre) /\
  (Forall (fun y => 0 <= y < 2 ^ 32) samples -> 0 <= id < 2 ^ 32).
Proof.
  intros H. pose proof (generate_circuit_id_sound _ _ _ _ _ H) as [Hc Hpre].
  split; [exact Hc|]. split; [|split; [exact Hpre|]].
  - intros n ->. unfold _generate_circuit_id in H.
    destruct samples as [|x samples]; [discriminate|].
    apply generate_loop_fresh in H. unfold id_collides in H.
    apply orb_false_iff in H as [_ H]. apply bool_decide_eq_false in H. exact H.
  - intros Hall. eapply generate_circuit_id_32bit; eauto.
Qed.

(** X2: [_generate_circuit_id] returns exactly when the generator yields a
    value that does not collide; as long as every drawn value collides the
    loop goes on. *)
Theorem generate_circuit_id_returns_iff_free (neighbour : option SockAddr) (samples : list Z)
    (st : State) :
  is_Some (_generate_circuit_id neighbour samples st) <->
  Exists (fun y => id_collides neighbour y st = false) samples.
Proof.
  split; [|apply generate_circuit_id_returns].
  intros [[id rest] H]. pose proof H as H'.
  apply generate_circuit_id_sound in H as [_ [pre [-> _]]].
  apply Exists_app. right. left.
  unfold _generate_circuit_id in H'. destruct (pre ++ id :: rest); [discriminate|].
  eapply generate_loop_fresh. exact H'.
Qed.

End AllocationMore.

Lemma generated_id_is_first_free_witness :
  (12 ∉ dom (circuits one_circuit_state)) /\
  exists pre, [7; 7; 12; 13] = pre ++ 12 :: [13] /\
              Forall (fun y => id_collides (Some addr_b) y one_circuit_state = true) pre.
Proof.
  destruct (generated_id_is_first_free (Some addr_b) [7; 7; 12; 13] one_circuit_state 12 [13]
              eq_refl) as (H1 & _ & H3 & _).
  split; assumption.
Defined.

Section CryptoErrors.
Context `{Around : Surroundings}.

Lemma relay_stream_cons circuit_id content rest st :
  relay_stream circuit_id (content :: rest) st =
  (fst (crypto_relay circuit_id content st)
     :: fst (relay_stream circuit_id rest (snd (crypto_relay circuit_id content st))),
   snd (relay_stream circuit_id rest (snd (crypto_relay circuit_id content st)))).
Proof.
  simpl. destruct (crypto_relay circuit_id content st) as [o st1]. simpl.
  destruct (relay_stream circuit_id rest st1). reflexivity.
Qed.

Lemma crypto_relay_originator c content st k :
  directions st !! c = Some ORIGINATOR ->
  relay_session_keys st !! c = Some k ->
  crypto_relay c content st =
  (Return (encrypt_str content (sk_key k ORIGINATOR) (sk_salt k ORIGINATOR)
             (sk_salt_explicit k ORIGINATOR + 1)),
   set_relay_session_keys (<[c := sk_bump k ORIGINATOR]> (relay_session_keys st)) st).
Proof. intros Hd Hk. unfold crypto_relay. rewrite Hd, Hk. reflexivity. Qed.

(** X3: cells relayed towards the originator never reuse an explicit salt:
    on a circuit id whose direction is [ORIGINATOR], the i-th cell relayed
    (counting from 0) is encrypted with the stored key and salt and with the
    explicit salt [i + 1] above the one stored at the start. *)
Theorem relayed_cells_use_fresh_salts (c : Z) (contents : list string) (st : State)
    (k : SessionKeys) :
  directions st !! c = Some ORIGINATOR ->
  relay_session_keys st !! c = Some k ->
  fst (relay_stream c contents st) =
  imap (fun i content =>
          Return (encrypt_str content (sk_key k ORIGINATOR) (sk_salt k ORIGINATOR)
                    (sk_salt_explicit k ORIGINATOR + Z.of_nat i + 1)))
       contents.
Proof.
  revert st k. induction contents as [|content rest IH]; intros st k Hd Hk; [reflexivity|].
  rewrite relay_stream_cons, (crypto_relay_originator c content st k Hd Hk). cbn [fst snd].
  rewrite imap_cons. f_equal.
  - f_equal. f_equal. simpl. lia.
  - rewrite (IH _ (sk_bump k ORIGINATOR)).
    + apply imap_ext. intros i x _. simpl. f_equal. f_equal. lia.
    + exact Hd.
    + simpl. apply lookup_insert_eq.
Qed.

Lemma crypto_out_unknown c content is_data st :
  circuits st !! c = None ->
  relay_session_keys st !! c = None ->
  crypto_out c content is_data st = (Raise CryptoException, st).
Proof. intros Hc Hk. unfold crypto_out. rewrite Hc, Hk. reflexivity. Qed.

(** X4: for a circuit id that is neither an own circuit nor a key of
    [relay_session_keys], [crypto_out] and [crypto_in] raise
    [CryptoException] and change nothing. *)
Theorem crypto_unknown_circuit (c : Z) (content : string) (is_data : bool) (st : State) :
  circuits st !! c = None ->
  relay_session_keys st !! c = None ->
  crypto_out c content is_data st = (Raise CryptoException, st) /\
  crypto_in c content is_data st = (Raise CryptoException, st).
Proof.
  intros Hc Hk. unfold crypto_out, crypto_in, crypto_in_relay. rewrite Hc, Hk. auto.
Qed.

(** X5: nothing is sent for a circuit the node does not know.  [send_cell]
    of a cell other than [create]/[created] and [send_data] swallow the
    [CryptoException], answer 0 and leave the state, outbox included, as it
    was. *)
Theorem nothing_sent_for_unknown_circuit (candidates : list SockAddr)
    (message_type : string) (payload : Payload) (packet : string) (st : State) :
  message_type <> "create"%string -> message_type <> "created"%string ->
  circuits st !! payload_circuit_id payload = None ->
  relay_session_keys st !! payload_circuit_id payload = None ->
  circuits st !! (decode_data packet).1.1.1 = None ->
  relay_session_keys st !! (decode_data packet).1.1.1 = None ->
  send_cell candidates message_type payload st = (Return 0, st) /\
  send_data candidates "data" packet st = (Return 0, st).
Proof.
  intros Hn1 Hn2 Hc Hk Hc' Hk'. split.
  - unfold send_cell.
    destruct (split_encrypted_packet _ "cell") as [plaintext encrypted].
    rewrite bool_decide_eq_false_2 by tauto.
    unfold catch_crypto, bind.
    rewrite (crypto_out_unknown _ encrypted false st Hc Hk). reflexivity.
  - unfold send_data.
    destruct (decode_data packet) as [[[cid d] o] data]. simpl in Hc', Hk'.
    destruct (split_encrypted_packet packet "data") as [plaintext encrypted].
    unfold catch_crypto, bind.
    rewrite (crypto_out_unknown _ encrypted true st Hc' Hk'). reflexivity.
Qed.

End CryptoErrors.

Lemma relayed_cells_use_fresh_salts_witness :
  fst (relay_stream 2 ["a"; "b"]%string relay_state) =
  [Return "r-kor-soa"%string; Return "r-kor-sob"%string].
Proof.
  rewrite (relayed_cells_use_fresh_salts 2 ["a"; "b"]%string relay_state (test_keys "r")
             eq_refl eq_refl).
  reflexivity.
Defined.

Lemma crypto_unknown_circuit_witness :
  crypto_out 99 "x" false test_state = (Raise CryptoException, test_state) /\
  crypto_in 99 "x" false test_state = (Raise CryptoException, test_state).
Proof. apply (crypto_unknown_circuit 99 "x" false test_state); reflexivity. Defined.

Lemma nothing_sent_for_unknown_circuit_witness :
  send_cell [addr_a] "extended" (CreatedPayload 7 "Y" "AUTH" "") test_state
    = (Return 0, test_state) /\
  send_data [addr_a] "data" "payload" test_state = (Return 0, test_state).
Proof.
  apply (nothing_sent_for_unknown_circuit [addr_a] "extended" (CreatedPayload 7 "Y" "AUTH" "")
           "payload" test_state); first [discriminate | reflexivity].
Defined.

Section RelayForwarding.
Context `{Collab : Collaborators}.

(** [relay_packet] on a relayed id: the reverse entry is refreshed, then the
    content is handled. *)
Lemma relay_packet_relayed now c message_type packet st next_relay :
  is_relay c st = true ->
  relay_from_to st !! ikey c = Some next_relay ->
  relay_packet now c message_type packet st =
  (let '(plaintext, encrypted) := split_encrypted_packet packet message_type in
   catch_crypto
     (let* encrypted' :=
        (if r_rendezvous_relay next_relay then
           let* decrypted := crypto_in c encrypted false in
           crypto_out (r_circuit_id next_relay) decrypted false
         else crypto_relay c encrypted) in
      let packet1 := plaintext +:+ encrypted' in
      let packet2 := swap_circuit_id packet1 message_type c (r_circuit_id next_relay) in
      let* sent := lift (send_packet [r_sock_addr next_relay] message_type packet2) in
      run modify (increase_bytes_sent_relay (ikey c) sent) then
      ret true)
     (ret false)) (refresh_reverse now c packet st).
Proof.
  intros Hrel Hnext. unfold relay_packet, refresh_reverse, bind at 1, gets at 1.
  rewrite Hrel. unfold bind at 1, gets at 1. rewrite Hnext.
  unfold bind at 1, gets at 1.
  destruct (relay_from_to st !! ikey (r_circuit_id next_relay)); reflexivity.
Qed.

Lemma refresh_reverse_frame now c packet st :
  directions (refresh_reverse now c packet st) = directions st /\
  relay_session_keys (refresh_reverse now c packet st) = relay_session_keys st /\
  outbox (refresh_reverse now c packet st) = outbox st /\
  circuits (refresh_reverse now c packet st) = circuits st /\
  exit_sockets (refresh_reverse now c packet st) = exit_sockets st /\
  dom (relay_from_to (refresh_reverse now c packet st)) = dom (relay_from_to st).
Proof.
  unfold refresh_reverse. repeat case_match; repeat split; try reflexivity.
  simpl. rewrite !dom_alter_L. reflexivity.
Qed.

Lemma crypto_relay_content c encrypted st d k :
  directions st !! c = Some d ->
  relay_session_keys st !! c = Some k ->
  fst (crypto_relay c encrypted st) = outcome_of (relayed_content d k encrypted) /\
  directions (snd (crypto_relay c encrypted st)) = directions st /\
  outbox (snd (crypto_relay c encrypted st)) = outbox st /\
  circuits (snd (crypto_relay c encrypted st)) = circuits st /\
  exit_sockets (snd (crypto_relay c encrypted st)) = exit_sockets st /\
  relay_from_to (snd (crypto_relay c encrypted st)) = relay_from_to st /\
  (d = EXIT_NODE -> snd (crypto_relay c encrypted st) = st).
Proof.
  intros Hd Hk. unfold crypto_relay, relayed_content. rewrite Hd, Hk.
  destruct d.
  - destruct (encrypt_with k ORIGINATOR encrypted) as [k' e']. simpl.
    repeat split; try reflexivity. discriminate.
  - destruct (decrypt_with k EXIT_NODE encrypted); simpl; repeat split; reflexivity.
Qed.

(** X6: a packet of a relayed circuit whose layer can be handled is
    forwarded once: [relay_packet] answers [True], the packet sent goes to
    the address of the relay entry, carries the same message type and has
    its circuit id rewritten to the entry's id; no table gains or loses a
    key. *)
Theorem relay_packet_forwards (now : Time) (c : Z) (message_type packet : string) (st : State)
    (next_relay : RelayRoute) (d : Direction) (k : SessionKeys) (body : string) :
  is_relay c st = true ->
  relay_from_to st !! ikey c = Some next_relay ->
  r_rendezvous_relay next_relay = false ->
  directions st !! c = Some d ->
  relay_session_keys st !! c = Some k ->
  relayed_content d k (split_encrypted_packet packet message_type).2 = Some body ->
  let r := relay_packet now c message_type packet st in
  fst r = Return true /\
  outbox (snd r) =
    SentPacket [r_sock_addr next_relay] message_type
      (swap_circuit_id ((split_encrypted_packet packet message_type).1 +:+ body)
         message_type c (r_circuit_id next_relay)) :: outbox st /\
  dom (relay_from_to (snd r)) = dom (relay_from_to st) /\
  circuits (snd r) = circuits st /\
  exit_sockets (snd r) = exit_sockets st.
Proof.
  intros Hrel Hnext Hrv Hd Hk Hbody r. subst r.
  rewrite (relay_packet_relayed now c message_type packet st next_relay Hrel Hnext).
  destruct (split_encrypted_packet packet message_type) as [plaintext encrypted].
  simpl in Hbody. rewrite Hrv.
  destruct (refresh_reverse_frame now c packet st) as (Fd & Fk & Fo & Fc & Fe & Fr).
  set (st1 := refresh_reverse now c packet st) in *.
  destruct (crypto_relay_content c encrypted st1 d k) as (Hres & _ & Ho & Hc & He & Hr & _);
    [congruence | congruence |].
  rewrite Hbody in Hres. simpl in Hres.
  unfold catch_crypto, bind, lift, modify, ret, send_packet. cbn beta.
  destruct (crypto_relay c encrypted st1) as [o st2]. simpl in *. subst o. simpl.
  repeat split; try congruence.
  rewrite dom_alter_L. congruence.
Qed.

(** X7: a packet of a relayed circuit whose layer does not decrypt is not
    forwarded, [relay_packet] answers [False] (the caller then handles the
    packet locally) and nothing is sent; yet the reverse entry has already
    been refreshed: its [last_incoming] is [now] and its [bytes_down] counts
    the packet. *)
Theorem relay_packet_undecryptable (now : Time) (c : Z) (message_type packet : string)
    (st : State) (next_relay this_relay : RelayRoute) (k : SessionKeys) :
  is_relay c st = true ->
  relay_from_to st !! ikey c = Some next_relay ->
  r_rendezvous_relay next_relay = false ->
  relay_from_to st !! ikey (r_circuit_id next_relay) = Some this_relay ->
  directions st !! c = Some EXIT_NODE ->
  relay_session_keys st !! c = Some k ->
  decrypt_with k EXIT_NODE (split_encrypted_packet packet message_type).2 = None ->
  let r := relay_packet now c message_type packet st in
  fst r = Return false /\
  outbox (snd r) = outbox st /\
  relay_from_to (snd r) !! ikey (r_circuit_id next_relay) =
    Some (r_add_bytes_down (len packet) (r_set_last_incoming now this_relay)).
Proof.
  intros Hrel Hnext Hrv Hthis Hd Hk Hdec r. subst r.
  rewrite (relay_packet_relayed now c message_type packet st next_relay Hrel Hnext).
  destruct (split_encrypted_packet packet message_type) as [plaintext encrypted].
  simpl in Hdec. rewrite Hrv.
  destruct (refresh_reverse_frame now c packet st) as (Fd & Fk & Fo & _).
  assert (Hentry : relay_from_to (refresh_reverse now c packet st)
                     !! ikey (r_circuit_id next_relay)
                   = Some (r_add_bytes_down (len packet) (r_set_last_incoming now this_relay))).
  { unfold refresh_reverse. rewrite Hnext, Hthis. simpl.
    rewrite !lookup_alter_eq, Hthis. reflexivity. }
  set (st1 := refresh_reverse now c packet st) in *.
  destruct (crypto_relay_content c encrypted st1 EXIT_NODE k)
    as (Hres & _ & _ & _ & _ & _ & Hsame); [congruence | congruence |].
  simpl in Hres. rewrite Hdec in Hres. specialize (Hsame eq_refl).
  unfold catch_crypto, bind, lift, modify, ret, send_packet. cbn beta.
  destruct (crypto_relay c encrypted st1) as [o st2]. simpl in *. subst o st2. simpl. auto.
Qed.

(** X8: [crypto_relay] looks the direction up without a default: for a
    relayed id without a [directions] entry [relay_packet] is left by a
    [KeyError], which the handler of [CryptoException] does not catch. *)
Theorem relay_packet_without_direction (now : Time) (c : Z) (message_type packet : string)
    (st : State) (next_relay : RelayRoute) :
  is_relay c st = true ->
  relay_from_to st !! ikey c = Some next_relay ->
  r_rendezvous_relay next_relay = false ->
  directions st !! c = None ->
  fst (relay_packet now c message_type packet st) = Raise KeyError.
Proof.
  intros Hrel Hnext Hrv Hd.
  rewrite (relay_packet_relayed now c message_type packet st next_relay Hrel Hnext).
  destruct (split_encrypted_packet packet message_type) as [plaintext encrypted].
  rewrite Hrv. destruct (refresh_reverse_frame now c packet st) as (Fd & _).
  assert (Hres : crypto_relay c encrypted (refresh_reverse now c packet st)
                 = (Raise KeyError, refresh_reverse now c packet st)).
  { unfold crypto_relay. rewrite Fd, Hd. reflexivity. }
  unfold catch_crypto, bind, lift, modify, ret, send_packet. cbn beta.
  rewrite Hres. reflexivity.
Qed.

End RelayForwarding.

Lemma relay_packet_forwards_witness :
  fst (relay_packet 100 1 "data" "r-kxr-sxhello" relay_state) = Return true /\
  outbox (snd (relay_packet 100 1 "data" "r-kxr-sxhello" relay_state)) =
    [SentPacket [addr_b] "data" "hello"].
Proof.
  destruct (relay_packet_forwards 100 1 "data" "r-kxr-sxhello" relay_state (route 2 addr_b)
              EXIT_NODE (test_keys "r") "hello" eq_refl eq_refl eq_refl eq_refl eq_refl eq_refl)
    as (H1 & H2 & _).
  split; [exact H1 | exact H2].
Defined.

Lemma relay_packet_undecryptable_witness :
  fst (relay_packet 100 1 "data" "garbage" relay_state) = Return false /\
  r_last_incoming <$> relay_from_to (snd (relay_packet 100 1 "data" "garbage" relay_state))
                        !! ikey 2 = Some 100.
Proof.
  destruct (relay_packet_undecryptable 100 1 "data" "garbage" relay_state (route 2 addr_b)
              (route 1 addr_a) (test_keys "r") eq_refl eq_refl eq_refl eq_refl eq_refl eq_refl
              eq_refl) as (H1 & _ & H3).
  split; [exact H1|]. simpl in H3. rewrite H3. reflexivity.
Defined.

Lemma relay_packet_without_direction_witness :
  fst (relay_packet 100 1 "data" "r-kxr-sxhello" undirected_relay_state) = Raise KeyError.
Proof.
  apply (relay_packet_without_direction 100 1 "data" "r-kxr-sxhello" undirected_relay_state
           (route 2 addr_b)); reflexivity.
Defined.

Section CreateHandling.
Context `{Collab : Collaborators}.

Lemma collect_candidates_sound cs : forall all acc exits result,
  (forall c, c ∈ cs -> c ∈ all) ->
  offered all exits acc ->
  (size acc <= 3)%nat ->
  collect_candidates cs acc exits = Return result ->
  offered all exits result /\ (size result <= 4)%nat.
Proof.
  induction cs as [|c cs IH]; intros all acc exits result Hsub Hacc Hsize; simpl.
  - intros [= <-]. split; [exact Hacc | lia].
  - destruct (cand_member c) as [[mid pubkey]|] eqn:Hm; [|discriminate].
    destruct (exits !! pubkey) as [vc|] eqn:Hv; [|discriminate].
    assert (Hsub' : forall c', c' ∈ cs -> c' ∈ all) by (intros; apply Hsub; right; assumption).
    destruct (ec_become_exit vc) eqn:Hb; [apply IH; assumption|].
    assert (Hacc' : offered all exits (<[pubkey:=c]> acc)).
    { intros p c' Hl. apply lookup_insert_Some in Hl as [[<- <-]|[_ Hl]]; [|eauto].
      split; [apply Hsub; left|]. split; eauto. }
    assert (Hsize' : (size (<[pubkey:=c]> acc) <= S (size acc))%nat).
    { destruct (acc !! pubkey) eqn:E.
      - rewrite map_size_insert_Some by eauto. lia.
      - rewrite map_size_insert_None by assumption. lia. }
    destruct (4 <=? Z.of_nat (size (<[pubkey:=c]> acc))) eqn:E4.
    + intros [= <-]. split; [exact Hacc' | lia].
    + apply Z.leb_gt in E4. apply IH; [assumption | assumption | lia].
Qed.

(** X9: the candidates [on_create] offers for extending are at most four,
    each is a verified candidate stored under its own public key, and none
    of them is a candidate that announced itself as an exit node. *)
Theorem offered_candidates (cs : list Candidate) (exits : gmap string ExitCandidate)
    (result : gmap string Candidate) :
  collect_candidates cs ∅ exits = Return result ->
  (size result <= 4)%nat /\
  forall pubkey c, result !! pubkey = Some c ->
    c ∈ cs /\ (exists mid, cand_member c = Some (mid, pubkey)) /\
    exists vc, exits !! pubkey = Some vc /\ ec_become_exit vc = false.
Proof.
  intros H.
  destruct (collect_candidates_sound cs cs ∅ exits result) as [Ho Hs].
  - auto.
  - intros p c Hl. rewrite lookup_empty in Hl. discriminate.
  - rewrite map_size_empty. lia.
  - exact H.
  - split; [exact Hs | exact Ho].
Qed.

Lemma not_full_test st :
  Z.of_nat (size (relay_from_to st)) + Z.of_nat (size (exit_sockets st))
    < max_relays_or_exits (settings st) ->
  (max_relays_or_exits (settings st) <=?
     Z.of_nat (size (relay_from_to st)) + Z.of_nat (size (exit_sockets st))) = false.
Proof. intros H. apply Z.leb_gt. exact H. Qed.

(** A [create] for a circuit id that still has a pending
    [CreatedRequestCache] entry is ignored. *)
Lemma on_create_one_collision now message st :
  is_Some (request_cache st !! ("anon-created"%string, cm_circuit_id message)) ->
  on_create_one now message st = (Return tt, st).
Proof.
  intros Hin. unfold on_create_one, bind, gets.
  destruct (max_relays_or_exits (settings st) <=? _); [reflexivity|].
  rewrite bool_decide_eq_true_2 by (apply elem_of_dom; exact Hin). reflexivity.
Qed.

Lemma send_cell_created candidates payload st :
  exists packet,
    send_cell candidates "created" payload st =
    (Return (len packet),
     set_outbox (SentPacket candidates "created" packet :: outbox st) st).
Proof.
  unfold send_cell.
  destruct (split_encrypted_packet _ "cell") as [plaintext encrypted].
  rewrite bool_decide_eq_true_2 by (right; reflexivity).
  unfold lift, send_packet. eexists. reflexivity.
Qed.

(** An accepted [create] leaves its entry in the request cache. *)
Lemma on_create_one_cache now message st candidates :
  Z.of_nat (size (relay_from_to st)) + Z.of_nat (size (exit_sockets st))
    < max_relays_or_exits (settings st) ->
  request_cache st !! ("anon-created"%string, cm_circuit_id message) = None ->
  collect_candidates (verified_candidates st) ∅ (exit_candidates st) = Return candidates ->
  request_cache (snd (on_create_one now message st))
    !! ("anon-created"%string, cm_circuit_id message) =
  Some (mkCreatedRequestCache (cm_circuit_id message) (cm_candidate message) candidates).
Proof.
  intros Hfull Hcache Hcollect.
  unfold on_create_one, bind, gets, modify.
  rewrite (not_full_test st Hfull).
  rewrite bool_decide_eq_false_2 by (apply not_elem_of_dom; exact Hcache).
  destruct (generate_diffie_shared_secret (cm_key message)) as [[secret Y] AUTH].
  simpl. rewrite Hcollect. simpl.
  destruct (has_notifier st); simpl; rewrite lookup_insert_eq; simpl;
    match goal with
    | |- context [send_cell ?a "created" ?p ?s] =>
        destruct (send_cell_created a p s) as [packet ->]
    end; simpl; apply lookup_insert_eq.
Qed.

(** X10: a [create] that repeats the circuit id of a [create] just accepted
    (a retransmission, or a second peer using the same id) is ignored while
    the [CreatedRequestCache] entry of the first is pending: the exit socket,
    the keys and the cache entry of the first stay as they are and nothing
    is sent. *)
Theorem repeated_create_is_ignored (now now' : Time) (message message' : CreateMessage)
    (st : State) (candidates : gmap string Candidate) :
  Z.of_nat (size (relay_from_to st)) + Z.of_nat (size (exit_sockets st))
    < max_relays_or_exits (settings st) ->
  request_cache st !! ("anon-created"%string, cm_circuit_id message) = None ->
  collect_candidates (verified_candidates st) ∅ (exit_candidates st) = Return candidates ->
  cm_circuit_id message' = cm_circuit_id message ->
  on_create now [message; message'] st =
  (Return tt, snd (on_create_one now message st)) /\
  on_create_one now' message' (snd (on_create_one now message st)) =
  (Return tt, snd (on_create_one now message st)).
Proof.
  intros Hfull Hcache Hcollect Hid.
  assert (Hpending : forall t, on_create_one t message' (snd (on_create_one now message st)) =
                               (Return tt, snd (on_create_one now message st))).
  { intros t. apply on_create_one_collision. rewrite Hid.
    rewrite (on_create_one_cache now message st candidates) by assumption. eauto. }
  split; [|apply Hpending].
  assert (Hfirst : fst (on_create_one now message st) = Return tt).
  { unfold on_create_one, bind, gets, modify.
    rewrite (not_full_test st Hfull).
    rewrite bool_decide_eq_false_2 by (apply not_elem_of_dom; exact Hcache).
    destruct (generate_diffie_shared_secret (cm_key message)) as [[secret Y] AUTH].
    simpl. rewrite Hcollect. simpl.
    destruct (has_notifier st); simpl; rewrite lookup_insert_eq; simpl;
      match goal with
      | |- context [send_cell ?a "created" ?p ?s] =>
          destruct (send_cell_created a p s) as [packet ->]
      end; reflexivity. }
  unfold on_create. cbn [for_each]. unfold bind at 1.
  destruct (on_create_one now message st) as [o st1]. simpl in *. subst o.
  unfold bind. rewrite (Hpending now). reflexivity.
Qed.

(** X11: a [create] that passes the two guards installs, for its circuit id,
    the direction [EXIT_NODE], the session keys derived from the handshake
    (with the explicit salt of the reply used up), the request-cache entry
    with the offered candidates, and a new exit socket that is not enabled,
    has no counters and points back at the sender; one [created] cell goes
    to the sender. *)
Theorem create_installs_exit (now : Time) (message : CreateMessage) (st : State)
    (candidates : gmap string Candidate) :
  Z.of_nat (size (relay_from_to st)) + Z.of_nat (size (exit_sockets st))
    < max_relays_or_exits (settings st) ->
  request_cache st !! ("anon-created"%string, cm_circuit_id message) = None ->
  collect_candidates (verified_candidates st) ∅ (exit_candidates st) = Return candidates ->
  let c := cm_circuit_id message in
  let sender := cand_sock_addr (cm_candidate message) in
  let ref := fresh (dom (sockets st)) in
  let r := on_create_one now message st in
  fst r = Return tt /\
  directions (snd r) !! c = Some EXIT_NODE /\
  relay_session_keys (snd r) !! c =
    Some (sk_bump (generate_session_keys (generate_diffie_shared_secret (cm_key message)).1.1)
            EXIT_NODE) /\
  request_cache (snd r) !! ("anon-created"%string, c) =
    Some (mkCreatedRequestCache c (cm_candidate message) candidates) /\
  sockets st !! ref = None /\
  exit_sockets (snd r) !! c = Some ref /\
  (exists mid, sockets (snd r) !! ref = Some (new_exit_socket c sender mid now)) /\
  exists packet, outbox (snd r) = SentPacket [sender] "created" packet :: outbox st.
Proof.
  intros Hfull Hcache Hcollect c sender ref r. subst r.
  unfold on_create_one, bind, gets, modify.
  rewrite (not_full_test st Hfull).
  rewrite bool_decide_eq_false_2 by (apply not_elem_of_dom; exact Hcache).
  destruct (generate_diffie_shared_secret (cm_key message)) as [[secret Y] AUTH].
  simpl. rewrite Hcollect. simpl.
  destruct (has_notifier st); simpl; rewrite lookup_insert_eq; simpl;
    match goal with
    | |- context [send_cell ?a "created" ?p ?s] =>
        destruct (send_cell_created a p s) as [packet ->]
    end; simpl;
    (split; [reflexivity|]); (split; [apply lookup_insert_eq|]);
    (split; [rewrite insert_insert_eq; apply lookup_insert_eq|]);
    (split; [apply lookup_insert_eq|]);
    (split; [apply not_elem_of_dom, is_fresh|]);
    (split; [apply lookup_insert_eq|]);
    (split; [eexists; apply lookup_insert_eq | eexists; reflexivity]).
Qed.

(** X12: [on_create] is not atomic.  When the walk over the verified
    candidates raises (a candidate without a member, or one missing from
    [exit_candidates]), the handler is left with the direction and the
    session keys of the circuit already written, but without exit socket,
    cache entry or reply, and the rest of the batch is not handled. *)
Theorem create_half_installed (now : Time) (message : CreateMessage)
    (rest : list CreateMessage) (st : State) (e : Exn) :
  Z.of_nat (size (relay_from_to st)) + Z.of_nat (size (exit_sockets st))
    < max_relays_or_exits (settings st) ->
  request_cache st !! ("anon-created"%string, cm_circuit_id message) = None ->
  collect_candidates (verified_candidates st) ∅ (exit_candidates st) = Raise e ->
  let r := on_create now (message :: rest) st in
  fst r = Raise e /\
  directions (snd r) = <[cm_circuit_id message := EXIT_NODE]> (directions st) /\
  relay_session_keys (snd r) =
    <[cm_circuit_id message :=
        generate_session_keys (generate_diffie_shared_secret (cm_key message)).1.1]>
      (relay_session_keys st) /\
  exit_sockets (snd r) = exit_sockets st /\
  request_cache (snd r) = request_cache st /\
  outbox (snd r) = outbox st.
Proof.
  intros Hfull Hcache Hcollect r. subst r.
  unfold on_create. cbn [for_each]. unfold bind at 1.
  unfold on_create_one, bind, gets, modify.
  rewrite (not_full_test st Hfull).
  rewrite bool_decide_eq_false_2 by (apply not_elem_of_dom; exact Hcache).
  destruct (generate_diffie_shared_secret (cm_key message)) as [[secret Y] AUTH].
  cbn [verified_candidates exit_candidates set_directions set_relay_session_keys].
  rewrite Hcollect. simpl. repeat split.
Qed.

End CreateHandling.

Lemma offered_candidates_witness :
  collect_candidates [cand_c; cand_d] ∅ (exit_candidates walked_state) =
    Return {[ "pub-c"%string := cand_c ]} /\
  cand_c ∈ [cand_c; cand_d] /\
  exists vc, exit_candidates walked_state !! "pub-c"%string = Some vc /\
             ec_become_exit vc = false.
Proof.
  split; [reflexivity|].
  destruct (offered_candidates [cand_c; cand_d] (exit_candidates walked_state)
              {[ "pub-c"%string := cand_c ]} eq_refl) as [_ Hall].
  destruct (Hall "pub-c"%string cand_c eq_refl) as (H1 & _ & H3).
  split; [exact H1 | exact H3].
Defined.

Lemma repeated_create_is_ignored_witness :
  on_create 0 [create_from_b; create_from_b] walked_state =
  (Return tt, snd (on_create_one 0 create_from_b walked_state)).
Proof.
  destruct (repeated_create_is_ignored 0 1 create_from_b create_from_b walked_state
              {[ "pub-c"%string := cand_c ]}) as [H _];
    [vm_compute; reflexivity | reflexivity ..|].
  exact H.
Defined.

Lemma create_installs_exit_witness :
  directions (snd (on_create_one 0 create_from_b walked_state)) !! 4711 = Some EXIT_NODE /\
  exit_sockets (snd (on_create_one 0 create_from_b walked_state)) !! 4711 = Some 0%nat.
Proof.
  destruct (create_installs_exit 0 create_from_b walked_state {[ "pub-c"%string := cand_c ]}
              ltac:(vm_compute; reflexivity) eq_refl eq_refl)
    as (_ & H2 & _ & _ & _ & H6 & _).
  split; [exact H2 | exact H6].
Defined.

Lemma create_half_installed_witness :
  fst (on_create 0 [create_from_b; create_from_b] unrecorded_state) = Raise KeyError /\
  exit_sockets (snd (on_create 0 [create_from_b; create_from_b] unrecorded_state)) = ∅.
Proof.
  destruct (create_half_installed 0 create_from_b [create_from_b] unrecorded_state KeyError
              ltac:(vm_compute; reflexivity) eq_refl eq_refl)
    as (H1 & _ & _ & H4 & _).
  split; [exact H1 | exact H4].
Defined.

Section SweeperMore.
Context `{Collab : Collaborators}.

(** Deleting along a list of items, each on a test of its own. *)
Lemma conditional_deletes_lookup {K V} `{Countable K} (gone : K * V -> bool)
    (l : list (K * V)) : forall (m : gmap K V) i,
  foldl (fun m kv => if gone kv then delete kv.1 m else m) m l !! i =
  if existsb (fun kv => bool_decide (kv.1 = i) && gone kv) l then None else m !! i.
Proof.
  induction l as [|[k v] l IH]; intros m i; simpl; [reflexivity|].
  rewrite IH. destruct (existsb _ l).
  - rewrite orb_true_r. reflexivity.
  - rewrite orb_false_r. destruct (gone (k, v)); simpl.
    + case_bool_decide as Hk; simpl.
      * subst. apply lookup_delete_eq.
      * apply lookup_delete_ne. exact Hk.
    + rewrite andb_false_r. reflexivity.
Qed.

(** Deleting along the items of the table itself keeps what fails the test. *)
Lemma swept_table_lookup {K V} `{Countable K} (gone : K * V -> bool) (m : gmap K V) i :
  foldl (fun m kv => if gone kv then delete kv.1 m else m) m (map_to_list m) !! i =
  match m !! i with
  | Some v => if gone (i, v) then None else Some v
  | None => None
  end.
Proof.
  rewrite conditional_deletes_lookup.
  destruct (existsb _ (map_to_list m)) eqn:E.
  - apply existsb_exists in E as [[k v] [Hin Hk]].
    apply andb_true_iff in Hk as [Hk Hg]. apply bool_decide_eq_true in Hk. simpl in Hk. subst k.
    apply list_elem_of_In, elem_of_map_to_list in Hin. rewrite Hin, Hg. reflexivity.
  - destruct (m !! i) as [v|] eqn:Hm; [|reflexivity].
    destruct (gone (i, v)) eqn:Hg; [|reflexivity].
    exfalso. apply Bool.not_true_iff_false in E. apply E.
    apply existsb_exists. exists (i, v). split.
    + apply list_elem_of_In, elem_of_map_to_list. exact Hm.
    + simpl. rewrite bool_decide_eq_true_2 by reflexivity. exact Hg.
Qed.

(** A loop over the items of a table whose steps delete the key on a test
    that reads the item and the settings, and keep the settings. *)
Lemma sweep_table {K V} `{Countable K} (tbl : State -> gmap K V)
    (step : State -> K * V -> State) (gone : TunnelSettings -> K * V -> bool)
    (l : list (K * V)) :
  (forall st kv, settings (step st kv) = settings st /\
                 tbl (step st kv) =
                 if gone (settings st) kv then delete kv.1 (tbl st) else tbl st) ->
  forall st,
    settings (foldl step st l) = settings st /\
    tbl (foldl step st l) =
    foldl (fun m kv => if gone (settings st) kv then delete kv.1 m else m) (tbl st) l.
Proof.
  intros Hstep. induction l as [|kv l IH]; intros st; simpl; [split; reflexivity|].
  destruct (Hstep st kv) as [Hs Ht]. destruct (IH (step st kv)) as [IHs IHt].
  split; [congruence|]. rewrite IHt, Hs, Ht. reflexivity.
Qed.

Lemma remove_circuit_table c info st :
  circuits (snd (remove_circuit c info false st)) = delete c (circuits st).
Proof.
  unfold remove_circuit. destruct (circuits st !! c) eqn:E; simpl; [reflexivity|].
  symmetry. apply delete_id. exact E.
Qed.

Lemma remove_circuit_settings c info destroy st :
  settings (snd (remove_circuit c info destroy st)) = settings st.
Proof.
  unfold remove_circuit. destruct (circuits st !! c); [|reflexivity].
  destruct destroy; simpl; [|reflexivity].
  unfold destroy_circuit. case_match; reflexivity.
Qed.

Lemma sweep_circuit_step now st kv :
  settings (sweep_circuit now st kv) = settings st /\
  circuits (sweep_circuit now st kv) =
  if (fun cfg (kv : Z * Circuit) => bool_decide (is_Some (circuit_expired now cfg kv.2)))
       (settings st) kv
  then delete kv.1 (circuits st) else circuits st.
Proof.
  unfold sweep_circuit. cbn beta.
  destruct (circuit_expired now (settings st) kv.2) as [reason|].
  - rewrite bool_decide_eq_true_2 by eauto.
    split; [apply remove_circuit_settings | apply remove_circuit_table].
  - rewrite bool_decide_eq_false_2 by (intros [? ?]; discriminate). split; reflexivity.
Qed.

Lemma remove_relay_entry_settings st cid :
  settings (remove_relay_entry st cid) = settings st.
Proof. unfold remove_relay_entry. repeat case_match; reflexivity. Qed.

Lemma sweep_relay_step now st kv :
  settings (sweep_relay now st kv) = settings st /\
  relay_from_to (sweep_relay now st kv) =
  if (fun cfg (kv : PyKey * RelayRoute) => bool_decide (is_Some (relay_expired now cfg kv.2)))
       (settings st) kv
  then delete kv.1 (relay_from_to st) else relay_from_to st.
Proof.
  unfold sweep_relay. cbn beta.
  destruct (relay_expired now (settings st) kv.2) as [reason|].
  - rewrite bool_decide_eq_true_2 by eauto. unfold remove_relay. simpl.
    split; [apply remove_relay_entry_settings | apply remove_relay_entry_table].
  - rewrite bool_decide_eq_false_2 by (intros [? ?]; discriminate). split; reflexivity.
Qed.

(** What the loops of [do_remove] leave alone. *)
Lemma sweep_circuit_relay_view now st kv :
  (settings (sweep_circuit now st kv), relay_from_to (sweep_circuit now st kv)) =
  (settings st, relay_from_to st).
Proof.
  unfold sweep_circuit. case_match; [|reflexivity].
  unfold remove_circuit. case_match; reflexivity.
Qed.

Lemma sweep_relay_circuits now st kv :
  circuits (sweep_relay now st kv) = circuits st.
Proof.
  unfold sweep_relay. case_match; [|reflexivity].
  unfold remove_relay. apply (foldl_frame circuits).
  intros ? ?. unfold remove_relay_entry. repeat case_match; reflexivity.
Qed.

Lemma remove_exit_socket_own_and_relayed c info st :
  (circuits (remove_exit_socket c info false st),
   relay_from_to (remove_exit_socket c info false st),
   outbox (remove_exit_socket c info false st),
   verified_candidates (remove_exit_socket c info false st),
   exit_candidates (remove_exit_socket c info false st)) =
  (circuits st, relay_from_to st, outbox st, verified_candidates st, exit_candidates st).
Proof. unfold remove_exit_socket. repeat case_match; reflexivity. Qed.

Lemma sweep_exit_socket_own_and_relayed now st kv :
  (circuits (sweep_exit_socket now st kv), relay_from_to (sweep_exit_socket now st kv),
   outbox (sweep_exit_socket now st kv), verified_candidates (sweep_exit_socket now st kv),
   exit_candidates (sweep_exit_socket now st kv)) =
  (circuits st, relay_from_to st, outbox st, verified_candidates st, exit_candidates st).
Proof.
  unfold sweep_exit_socket. repeat case_match; try reflexivity.
  apply remove_exit_socket_own_and_relayed.
Qed.

Lemma sweep_circuit_quiet now st kv :
  (outbox (sweep_circuit now st kv), verified_candidates (sweep_circuit now st kv),
   exit_candidates (sweep_circuit now st kv)) =
  (outbox st, verified_candidates st, exit_candidates st).
Proof.
  unfold sweep_circuit. case_match; [|reflexivity].
  unfold remove_circuit. case_match; reflexivity.
Qed.

Lemma sweep_relay_quiet now st kv :
  (outbox (sweep_relay now st kv), verified_candidates (sweep_relay now st kv),
   exit_candidates (sweep_relay now st kv)) =
  (outbox st, verified_candidates st, exit_candidates st).
Proof.
  unfold sweep_relay. case_match; [|reflexivity].
  unfold remove_relay.
  apply (foldl_frame (fun s => (outbox s, verified_candidates s, exit_candidates s))).
  intros ? ?. unfold remove_relay_entry. repeat case_match; reflexivity.
Qed.

Lemma do_remove_after_sweeps now st :
  do_remove now st =
  match current_candidates (verified_candidates (after_sweeps now st)) with
  | Return current =>
      (Return tt,
       set_exit_candidates
         (filter (fun kv : string * ExitCandidate => kv.1 ∈ current)
                 (exit_candidates (after_sweeps now st))) (after_sweeps now st))
  | Raise e => (Raise e, after_sweeps now st)
  end.
Proof.
  unfold do_remove, bind, modify, after_sweeps. simpl.
  destruct (current_candidates _); reflexivity.
Qed.

Lemma after_sweeps_quiet now st :
  (outbox (after_sweeps now st), verified_candidates (after_sweeps now st),
   exit_candidates (after_sweeps now st)) =
  (outbox st, verified_candidates st, exit_candidates st).
Proof.
  unfold after_sweeps.
  set (st1 := foldl (sweep_circuit now) st _).
  set (st2 := foldl (sweep_relay now) st1 _).
  assert (H3 : forall s kv,
             (outbox (sweep_exit_socket now s kv), verified_candidates (sweep_exit_socket now s kv),
              exit_candidates (sweep_exit_socket now s kv)) =
             (outbox s, verified_candidates s, exit_candidates s)).
  { intros s kv. pose proof (sweep_exit_socket_own_and_relayed now s kv) as E.
    injection E as _ _ -> -> ->. reflexivity. }
  rewrite (foldl_frame (fun s => (outbox s, verified_candidates s, exit_candidates s)))
    by exact H3.
  subst st2.
  rewrite (foldl_frame (fun s => (outbox s, verified_candidates s, exit_candidates s)))
    by apply sweep_relay_quiet.
  subst st1.
  apply (foldl_frame (fun s => (outbox s, verified_candidates s, exit_candidates s))).
  apply sweep_circuit_quiet.
Qed.

Lemma circuit_expired_spec now cfg c :
  circuit_expired now cfg c = None <->
  now - max_time_inactive cfg <= c_last_incoming c /\
  now - max_time cfg <= c_creation_time c /\
  c_bytes_up c + c_bytes_down c <= max_traffic cfg.
Proof.
  unfold circuit_expired.
  destruct (c_last_incoming c <? now - max_time_inactive cfg) eqn:E1;
    [apply Z.ltb_lt in E1; split; [discriminate | lia]|].
  destruct (c_creation_time c <? now - max_time cfg) eqn:E2;
    [apply Z.ltb_lt in E2; split; [discriminate | lia]|].
  destruct (max_traffic cfg <? c_bytes_up c + c_bytes_down c) eqn:E3;
    [apply Z.ltb_lt in E3; split; [discriminate | lia]|].
  apply Z.ltb_ge in E1, E2, E3. split; [lia | reflexivity].
Qed.

Lemma relay_expired_spec now cfg r :
  relay_expired now cfg r = None <->
  now - max_time_inactive cfg <= r_last_incoming r /\
  now - max_time cfg <= r_creation_time r /\
  r_bytes_up r + r_bytes_down r <= max_traffic cfg.
Proof.
  unfold relay_expired.
  destruct (r_last_incoming r <? now - max_time_inactive cfg) eqn:E1;
    [apply Z.ltb_lt in E1; split; [discriminate | lia]|].
  destruct (r_creation_time r <? now - max_time cfg) eqn:E2;
    [apply Z.ltb_lt in E2; split; [discriminate | lia]|].
  destruct (max_traffic cfg <? r_bytes_up r + r_bytes_down r) eqn:E3;
    [apply Z.ltb_lt in E3; split; [discriminate | lia]|].
  apply Z.ltb_ge in E1, E2, E3. split; [lia | reflexivity].
Qed.

Lemma do_remove_tables now st :
  circuits (snd (do_remove now st)) = circuits (after_sweeps now st) /\
  relay_from_to (snd (do_remove now st)) = relay_from_to (after_sweeps now st) /\
  outbox (snd (do_remove now st)) = outbox (after_sweeps now st).
Proof.
  rewrite do_remove_after_sweeps. destruct (current_candidates _); repeat split.
Qed.

(** X13: on a sweeper tick an own circuit survives exactly when it had an
    incoming packet within [max_time_inactive], is no older than [max_time]
    and has carried no more than [max_traffic] bytes; a circuit that
    survives is not changed. *)
Theorem do_remove_circuits (now : Time) (st : State) (c : Z) (circuit : Circuit) :
  circuits (snd (do_remove now st)) !! c = Some circuit <->
  circuits st !! c = Some circuit /\
  now - max_time_inactive (settings st) <= c_last_incoming circuit /\
  now - max_time (settings st) <= c_creation_time circuit /\
  c_bytes_up circuit + c_bytes_down circuit <= max_traffic (settings st).
Proof.
  destruct (do_remove_tables now st) as (-> & _ & _).
  unfold after_sweeps.
  set (st1 := foldl (sweep_circuit now) st (map_to_list (circuits st))).
  set (st2 := foldl (sweep_relay now) st1 (map_to_list (relay_from_to st1))).
  assert (H3 : forall s kv, circuits (sweep_exit_socket now s kv) = circuits s).
  { intros s kv. pose proof (sweep_exit_socket_own_and_relayed now s kv) as E.
    injection E as -> _ _ _ _. reflexivity. }
  rewrite (foldl_frame circuits) by exact H3. subst st2.
  rewrite (foldl_frame circuits) by apply sweep_relay_circuits. subst st1.
  destruct (sweep_table circuits (sweep_circuit now)
              (fun cfg (kv : Z * Circuit) => bool_decide (is_Some (circuit_expired now cfg kv.2)))
              (map_to_list (circuits st)) (sweep_circuit_step now) st) as [_ ->].
  rewrite swept_table_lookup. rewrite <- circuit_expired_spec.
  destruct (circuits st !! c) as [c0|]; [|split; [discriminate | intros [? _]; discriminate]].
  simpl. destruct (circuit_expired now (settings st) c0) as [reason|] eqn:E.
  - rewrite bool_decide_eq_true_2 by eauto.
    split; [discriminate | intros [[= ->] H]; congruence].
  - rewrite bool_decide_eq_false_2 by (intros [? ?]; discriminate).
    split; [intros [= ->]; auto | intros [H _]; exact H].
Qed.

(** X14: on a sweeper tick a relay entry survives exactly when it is fresh
    by the same three rules, each entry on its own: the entry of the other
    direction of the same relayed circuit is judged by its own clocks and
    counters. *)
Theorem do_remove_relays (now : Time) (st : State) (k : PyKey) (relay : RelayRoute) :
  relay_from_to (snd (do_remove now st)) !! k = Some relay <->
  relay_from_to st !! k = Some relay /\
  now - max_time_inactive (settings st) <= r_last_incoming relay /\
  now - max_time (settings st) <= r_creation_time relay /\
  r_bytes_up relay + r_bytes_down relay <= max_traffic (settings st).
Proof.
  destruct (do_remove_tables now st) as (_ & -> & _).
  unfold after_sweeps.
  set (st1 := foldl (sweep_circuit now) st (map_to_list (circuits st))).
  set (st2 := foldl (sweep_relay now) st1 (map_to_list (relay_from_to st1))).
  assert (H3 : forall s kv, relay_from_to (sweep_exit_socket now s kv) = relay_from_to s).
  { intros s kv. pose proof (sweep_exit_socket_own_and_relayed now s kv) as E.
    injection E as _ -> _ _ _. reflexivity. }
  rewrite (foldl_frame relay_from_to) by exact H3. subst st2.
  assert (H1 : (settings st1, relay_from_to st1) = (settings st, relay_from_to st)).
  { subst st1. apply (foldl_frame (fun s => (settings s, relay_from_to s))).
    apply sweep_circuit_relay_view. }
  injection H1 as Hset Hrel.
  destruct (sweep_table relay_from_to (sweep_relay now)
              (fun cfg (kv : PyKey * RelayRoute) =>
                 bool_decide (is_Some (relay_expired now cfg kv.2)))
              (map_to_list (relay_from_to st1)) (sweep_relay_step now) st1) as [_ ->].
  rewrite swept_table_lookup, Hset, Hrel. rewrite <- relay_expired_spec.
  destruct (relay_from_to st !! k) as [r0|]; [|split; [discriminate | intros [? _]; discriminate]].
  simpl. destruct (relay_expired now (settings st) r0) as [reason|] eqn:E.
  - rewrite bool_decide_eq_true_2 by eauto.
    split; [discriminate | intros [[= ->] H]; congruence].
  - rewrite bool_decide_eq_false_2 by (intros [? ?]; discriminate).
    split; [intros [= ->]; auto | intros [H _]; exact H].
Qed.

(** X15: the sweeper is silent: whatever it removes, it sends no [destroy]
    and no other packet. *)
Theorem do_remove_sends_nothing (now : Time) (st : State) :
  outbox (snd (do_remove now st)) = outbox st.
Proof.
  destruct (do_remove_tables now st) as (_ & _ & ->).
  pose proof (after_sweeps_quiet now st) as E. injection E as -> _ _. reflexivity.
Qed.

Lemma current_candidates_members cs :
  Forall (fun c => is_Some (cand_member c)) cs ->
  exists keys, current_candidates cs = Return keys /\
               forall pubkey, pubkey ∈ keys <-> pubkey ∈ member_keys cs.
Proof.
  induction 1 as [|c cs [[mid pubkey] Hm] _ [keys [IH Hkeys]]]; simpl.
  - exists ∅. split; [reflexivity|]. intros p. unfold member_keys. simpl. set_solver.
  - rewrite Hm, IH. exists ({[pubkey]} ∪ keys). split; [reflexivity|].
    intros p. unfold member_keys in *. simpl.
    rewrite elem_of_union, elem_of_singleton, elem_of_cons, Hkeys. reflexivity.
Qed.

Lemma current_candidates_memberless cs :
  ~ Forall (fun c => is_Some (cand_member c)) cs ->
  current_candidates cs = Raise AttributeError.
Proof.
  induction cs as [|c cs IH]; intros Hn; [exfalso; apply Hn; constructor|].
  simpl. destruct (cand_member c) as [[mid pubkey]|] eqn:Hm; [|reflexivity].
  rewrite IH; [reflexivity|]. intros Hall. apply Hn. constructor; [eauto | exact Hall].
Qed.

(** X16: when every verified candidate has a member, the sweeper returns and
    keeps of [exit_candidates] exactly the entries whose public key belongs
    to a verified candidate, unchanged. *)
Theorem do_remove_exit_candidates (now : Time) (st : State) :
  Forall (fun c => is_Some (cand_member c)) (verified_candidates st) ->
  fst (do_remove now st) = Return tt /\
  forall pubkey,
    exit_candidates (snd (do_remove now st)) !! pubkey =
    if decide (pubkey ∈ member_keys (verified_candidates st))
    then exit_candidates st !! pubkey else None.
Proof.
  intros Hall. rewrite do_remove_after_sweeps.
  pose proof (after_sweeps_quiet now st) as E. injection E as _ -> ->.
  destruct (current_candidates_members _ Hall) as [keys [-> Hkeys]]. simpl.
  split; [reflexivity|]. intros pubkey.
  destruct (decide (pubkey ∈ member_keys (verified_candidates st))) as [Hin|Hnin].
  - destruct (exit_candidates st !! pubkey) as [vc|] eqn:Hv.
    + apply map_lookup_filter_Some. split; [exact Hv | apply Hkeys; exact Hin].
    + apply map_lookup_filter_None. left. exact Hv.
  - apply map_lookup_filter_None. right. intros vc _ Hk. apply Hnin, Hkeys. exact Hk.
Qed.

(** X17: when a verified candidate has no member, the sweeper raises
    [AttributeError] after its three loops: the tables are swept, and
    [exit_candidates] is left as it was. *)
Theorem do_remove_memberless_candidate (now : Time) (st : State) (c : Candidate) :
  c ∈ verified_candidates st -> cand_member c = None ->
  fst (do_remove now st) = Raise AttributeError /\
  snd (do_remove now st) = after_sweeps now st /\
  exit_candidates (snd (do_remove now st)) = exit_candidates st.
Proof.
  intros Hin Hc.
  assert (Hn : ~ Forall (fun c => is_Some (cand_member c)) (verified_candidates st)).
  { intros Hall. rewrite Forall_forall in Hall. destruct (Hall c Hin) as [m Hm]. congruence. }
  rewrite do_remove_after_sweeps.
  pose proof (after_sweeps_quiet now st) as E. injection E as _ Hv He.
  rewrite Hv, (current_candidates_memberless _ Hn). simpl. auto.
Qed.

End SweeperMore.

Lemma do_remove_exit_candidates_witness :
  fst (do_remove 0 walked_state) = Return tt /\
  exit_candidates (snd (do_remove 0 walked_state)) !! "pub-c"%string =
    Some (mkExitCandidate false 0).
Proof.
  destruct (do_remove_exit_candidates 0 walked_state) as [H1 H2].
  - repeat constructor; eexists; reflexivity.
  - split; [exact H1 | exact (H2 "pub-c"%string)].
Defined.

Lemma do_remove_memberless_candidate_witness :
  fst (do_remove 0 memberless_state) = Raise AttributeError.
Proof.
  apply (do_remove_memberless_candidate 0 memberless_state (mkCandidate addr_x None)).
  - right. left.
  - reflexivity.
Defined.

Section DestroyMore.
Context `{Collab : Collaborators}.

(** X18: a [destroy] for an exit socket from the address the socket was
    created for takes the socket out of the table and closes the object
    (which stays reachable through older references); nothing is sent back
    and the own circuits and relays are not touched. *)
Theorem destroy_removes_exit_socket (st : State) (message : DestroyMessage)
    (ref : nat) (s : TunnelExitSocket) :
  ikey (dm_circuit_id message) ∉ dom (relay_from_to st) ->
  exit_sockets st !! dm_circuit_id message = Some ref ->
  sockets st !! ref = Some s ->
  dm_sock_addr message = es_sock_addr s ->
  let st' := on_destroy_one st message in
  exit_sockets st' = delete (dm_circuit_id message) (exit_sockets st) /\
  sockets st' !! ref = Some (close s) /\ enabled (close s) = false /\
  outbox st' = outbox st /\ circuits st' = circuits st /\
  relay_from_to st' = relay_from_to st.
Proof.
  intros Hrel He Hs Hfrom st'. subst st'. unfold on_destroy_one.
  rewrite bool_decide_eq_false_2 by assumption. rewrite He, Hs.
  rewrite bool_decide_eq_false_2 by (intros H; apply H; exact Hfrom).
  pose proof (remove_exit_socket_own_and_relayed (dm_circuit_id message) "Got destroy" st) as E.
  injection E as Hc Hr Ho _ _.
  split; [apply remove_exit_socket_exit_sockets|].
  split; [apply remove_exit_socket_closes; assumption|].
  split; [apply close_not_enabled|]. auto.
Qed.

(** X19: a [destroy] for an own circuit from its first hop removes the
    circuit and tells the SOCKS5 side; nothing is sent back. *)
Theorem destroy_removes_circuit (st : State) (message : DestroyMessage) (circuit : Circuit) :
  ikey (dm_circuit_id message) ∉ dom (relay_from_to st) ->
  exit_sockets st !! dm_circuit_id message = None ->
  circuits st !! dm_circuit_id message = Some circuit ->
  dm_sock_addr message = c_first_hop circuit ->
  let st' := on_destroy_one st message in
  circuits st' = delete (dm_circuit_id message) (circuits st) /\
  ext st' = circuit_dead circuit (bool_decide (active_data_circuits None st' ≠ ∅)) (ext st) /\
  outbox st' = outbox st /\ exit_sockets st' = exit_sockets st /\
  relay_from_to st' = relay_from_to st.
Proof.
  intros Hrel He Hc Hfrom st'. subst st'. unfold on_destroy_one.
  rewrite bool_decide_eq_false_2 by assumption. rewrite He, Hc.
  rewrite bool_decide_eq_false_2 by (intros H; apply H; exact Hfrom).
  unfold remove_circuit. rewrite Hc. simpl. repeat split.
Qed.

(** X20: a [destroy] for a relayed circuit id removes the relay entry of
    that id and every entry that points back at it, whoever sent the
    message; the other entries, the exit sockets and the own circuits
    stay. *)
Theorem destroy_always_removes_relay (st : State) (message : DestroyMessage) :
  ikey (dm_circuit_id message) ∈ dom (relay_from_to st) ->
  let st' := on_destroy_one st message in
  relay_from_to st' !! ikey (dm_circuit_id message) = None /\
  (forall k r, relay_from_to st !! k = Some r ->
     r_circuit_id r = dm_circuit_id message -> relay_from_to st' !! k = None) /\
  (forall k r, relay_from_to st !! k = Some r -> k <> ikey (dm_circuit_id message) ->
     r_circuit_id r <> dm_circuit_id message -> relay_from_to st' !! k = Some r) /\
  exit_sockets st' = exit_sockets st /\ sockets st' = sockets st /\
  circuits st' = circuits st.
Proof.
  intros Hin st'. subst st'. unfold on_destroy_one.
  rewrite bool_decide_eq_true_2 by assumption.
  split; [|split; [|split]].
  - rewrite remove_relay_table. rewrite decide_True by left. reflexivity.
  - intros k r Hk Hr. rewrite remove_relay_table.
    rewrite decide_True; [reflexivity|]. right. apply mirror_keys_spec. eauto.
  - intros k r Hk Hne Hr. rewrite remove_relay_table.
    rewrite decide_False; [exact Hk|].
    intros [->|Hm]%elem_of_cons; [congruence|].
    apply mirror_keys_spec in Hm as [r' [Hk' Hr']]. congruence.
  - unfold remove_relay.
    set (ids := ikey (dm_circuit_id message) :: mirror_keys (ikey (dm_circuit_id message)) st).
    set (st1 := destroy_relay ids (Some (dm_circuit_id message, dm_sock_addr message)) st).
    pose proof (only_outbox_destroy_relay ids
                  (Some (dm_circuit_id message, dm_sock_addr message)) st) as H1.
    apply only_outbox_fields in H1 as (_ & Hc & _ & _ & He & Hs & _). fold st1 in Hc, He, Hs.
    rewrite <- Hc, <- He, <- Hs.
    repeat split;
      [apply (foldl_frame exit_sockets) | apply (foldl_frame sockets)
       | apply (foldl_frame circuits)];
      intros ? ?; unfold remove_relay_entry; repeat case_match; reflexivity.
Qed.

Lemma singleton_of_unique {A} (l : list A) (x : A) :
  NoDup l -> x ∈ l -> (forall y, y ∈ l -> y = x) -> l = [x].
Proof.
  intros Hnd Hin Hall. destruct l as [|a l]; [inversion Hin|].
  assert (a = x) by (apply Hall; left). subst a.
  destruct l as [|b l]; [reflexivity|].
  assert (b = x) by (apply Hall; right; left). subst b.
  apply NoDup_cons in Hnd as [Hn _]. exfalso. apply Hn. left.
Qed.

Lemma mirror_keys_NoDup k st : NoDup (mirror_keys k st).
Proof.
  unfold mirror_keys. destruct k; [|constructor]. apply NoDup_fst_map_to_list.
Qed.

(** The relay of one circuit, as [on_extend] leaves it: the entry of [c]
    and exactly one entry that points back at [c]. *)
Lemma destroy_relay_pair c c' r r' from st :
  relay_from_to st !! ikey c = Some r ->
  relay_from_to st !! ikey c' = Some r' ->
  c' <> c ->
  (r_circuit_id r', r_sock_addr r') = from ->
  (r_circuit_id r, r_sock_addr r) <> from ->
  destroy_relay [ikey c; ikey c'] (Some from) st =
  send_destroy (r_sock_addr r) (r_circuit_id r) 0 st.
Proof.
  intros Hc Hc' Hne Hfrom Hother. unfold destroy_relay, relays_of. simpl.
  rewrite Hc, Hc'. rewrite insert_empty.
  assert (Hperm : (map_to_list (<[ikey c' := (r_circuit_id r', r_sock_addr r')]>
                                  ({[ikey c := (r_circuit_id r, r_sock_addr r)]}
                                     : gmap PyKey (Z * SockAddr)))).*2
                  ≡ₚ [(r_circuit_id r', r_sock_addr r'); (r_circuit_id r, r_sock_addr r)]).
  { rewrite map_to_list_insert
      by (apply lookup_singleton_ne; unfold ikey; congruence).
    rewrite map_to_list_singleton. reflexivity. }
  rewrite bool_decide_eq_true_2 by (rewrite Hperm, Hfrom; left).
  apply Permutation_sym, Permutation_length_2_inv in Hperm as [-> | ->]; simpl;
    rewrite Hfrom;
    rewrite (bool_decide_eq_false_2 (from <> from)) by (intros H; apply H; reflexivity);
    rewrite bool_decide_eq_true_2 by exact Hother; reflexivity.
Qed.

(** X21: a [destroy] that reaches a relay from the peer of one side is
    passed on to the peer of the other side, with the circuit id of that
    side and reason 0; both entries and both session keys are dropped. *)
Theorem destroy_from_peer_is_forwarded (st : State) (message : DestroyMessage)
    (c' : Z) (r r' : RelayRoute) :
  relay_from_to st !! ikey (dm_circuit_id message) = Some r ->
  relay_from_to st !! ikey c' = Some r' ->
  r_circuit_id r' = dm_circuit_id message ->
  (forall k r0, relay_from_to st !! k = Some r0 ->
     r_circuit_id r0 = dm_circuit_id message -> k = ikey c') ->
  c' <> dm_circuit_id message ->
  r_sock_addr r' = dm_sock_addr message ->
  (r_circuit_id r, r_sock_addr r) <> (dm_circuit_id message, dm_sock_addr message) ->
  let st' := on_destroy_one st message in
  outbox st' =
    SentPacket [r_sock_addr r] "destroy"
      (impl_packet "destroy" (DestroyPayload (r_circuit_id r) 0)) :: outbox st /\
  relay_from_to st' = delete (ikey c') (delete (ikey (dm_circuit_id message)) (relay_from_to st)) /\
  relay_session_keys st' =
    delete c' (delete (dm_circuit_id message) (relay_session_keys st)).
Proof.
  intros Hc Hc' Hback Honly Hne Hfrom Hother st'. subst st'.
  set (c := dm_circuit_id message) in *.
  assert (Hm : mirror_keys (ikey c) st = [ikey c']).
  { apply singleton_of_unique; [apply mirror_keys_NoDup| |].
    - apply mirror_keys_spec. eauto.
    - intros k [r0 [Hk Hr0]]%mirror_keys_spec. eauto. }
  unfold on_destroy_one. fold c.
  rewrite bool_decide_eq_true_2 by (apply elem_of_dom; eauto).
  unfold remove_relay. rewrite Hm.
  rewrite (destroy_relay_pair c c' r r' (c, dm_sock_addr message) st Hc Hc' Hne)
    by (congruence || assumption).
  rewrite send_destroy_frame. unfold remove_relay_entry. simpl. rewrite Hc. simpl.
  rewrite lookup_delete_ne by (unfold ikey; congruence). rewrite Hc'. simpl.
  repeat split.
Qed.

End DestroyMore.

Lemma destroy_removes_exit_socket_witness :
  exit_sockets (on_destroy_one enabled_exit_state (mkDestroyMessage addr_a 7)) =
    delete 7 (exit_sockets enabled_exit_state) /\
  sockets (on_destroy_one enabled_exit_state (mkDestroyMessage addr_a 7)) !! 0%nat =
    Some (new_exit_socket 7 addr_a None 0).
Proof.
  destruct (destroy_removes_exit_socket enabled_exit_state (mkDestroyMessage addr_a 7) 0%nat
              (es_set_port (Some 4242) (new_exit_socket 7 addr_a None 0))) as (H1 & H2 & _).
  - apply not_elem_of_dom. reflexivity.
  - reflexivity.
  - reflexivity.
  - reflexivity.
  - split; [exact H1 | exact H2].
Defined.

Lemma destroy_removes_circuit_witness :
  circuits (on_destroy_one one_circuit_state (mkDestroyMessage addr_a 7)) =
    delete 7 (circuits one_circuit_state) /\
  ext (on_destroy_one one_circuit_state (mkDestroyMessage addr_a 7)) = ["circuit_dead"%string].
Proof.
  destruct (destroy_removes_circuit one_circuit_state (mkDestroyMessage addr_a 7)
              (mkCircuit 7 1 addr_a CIRCUIT_TYPE_DATA CIRCUIT_STATE_READY
                 [mkHop addr_a "pub-a" (test_keys "h1")] 0 0 0 0 None)) as (H1 & H2 & _).
  - apply not_elem_of_dom. reflexivity.
  - reflexivity.
  - reflexivity.
  - reflexivity.
  - split; [exact H1 | exact H2].
Defined.

Lemma destroy_always_removes_relay_witness :
  relay_from_to (on_destroy_one relay_state (mkDestroyMessage addr_x 1)) !! ikey 1 = None /\
  relay_from_to (on_destroy_one relay_state (mkDestroyMessage addr_x 1)) !! ikey 2 = None.
Proof.
  destruct (destroy_always_removes_relay relay_state (mkDestroyMessage addr_x 1))
    as (H1 & H2 & _).
  - apply elem_of_dom. eexists. reflexivity.
  - split; [exact H1|]. apply (H2 (ikey 2) (route 1 addr_a)); reflexivity.
Defined.

Lemma destroy_from_peer_is_forwarded_witness :
  outbox (on_destroy_one relay_state (mkDestroyMessage addr_a 1)) =
    [SentPacket [addr_b] "destroy" "destroy"].
Proof.
  destruct (destroy_from_peer_is_forwarded relay_state (mkDestroyMessage addr_a 1) 2
              (route 2 addr_b) (route 1 addr_a)) as (H1 & _).
  - reflexivity.
  - reflexivity.
  - reflexivity.
  - intros k r0 Hk Hr. change (relay_from_to relay_state) with
      (<[ikey 1 := route 2 addr_b]> ({[ikey 2 := route 1 addr_a]} : gmap PyKey RelayRoute))
      in Hk.
    apply lookup_insert_Some in Hk as [[_ <-]|[_ Hk]]; [discriminate|].
    apply lookup_singleton_Some in Hk as [<- _]. reflexivity.
  - discriminate.
  - reflexivity.
  - discriminate.
  - exact H1.
Defined.

Section ExitTraffic.
Context `{Around : Surroundings}.

Lemma sendto_written self data destination st s ip :
  sockets st !! self = Some s ->
  enabled s = true ->
  default 0 (es_ips s !! destination) < max_packets_without_reply (settings st) ->
  is_allowed data = true ->
  (if is_valid_address destination then Some destination.1
   else gethostbyname destination.1) = Some ip ->
  transport_write data (ip, destination.2) = true ->
  sendto self data destination st =
  (Return tt,
   increase_bytes_sent_exit self (len data)
     (set_outbox (SentDatagram self data (ip, destination.2) :: outbox st)
        (set_sockets (<[self := charge destination false s]> (sockets st)) st))).
Proof.
  intros Hs Hen Hlt Hok Hip Hw. unfold sendto, bind.
  rewrite (check_num_packets_passes st self s destination false Hs Hlt).
  rewrite Hok, Hip. unfold gets, sock_enabled. simpl.
  rewrite lookup_insert_eq.
  assert (He : enabled (charge destination false s) = true) by exact Hen.
  rewrite He, Hw. reflexivity.
Qed.

(** X22: a packet that passes the counter, is allowed, resolves and is
    written goes out once, to the resolved address and the port asked for;
    its length is added to [bytes_up] of the socket and to
    [stats['bytes_exit']], and it is charged to the destination. *)
Theorem sendto_writes (self : nat) (data : string) (destination : SockAddr) (st : State)
    (s : TunnelExitSocket) (ip : string) :
  sockets st !! self = Some s ->
  enabled s = true ->
  default 0 (es_ips s !! destination) < max_packets_without_reply (settings st) ->
  is_allowed data = true ->
  (if is_valid_address destination then Some destination.1
   else gethostbyname destination.1) = Some ip ->
  transport_write data (ip, destination.2) = true ->
  let r := sendto self data destination st in
  fst r = Return tt /\
  outbox (snd r) = SentDatagram self data (ip, destination.2) :: outbox st /\
  sockets (snd r) !! self =
    Some (es_add_bytes_up (len data) (charge destination false s)) /\
  stats (snd r) !! "bytes_exit"%string =
    Some (default 0 (stats st !! "bytes_exit"%string) + len data).
Proof.
  intros Hs Hen Hlt Hok Hip Hw r. subst r.
  rewrite (sendto_written self data destination st s ip) by assumption.
  unfold increase_bytes_sent_exit, stats_add. simpl.
  split; [reflexivity|]. split; [reflexivity|]. split.
  - rewrite lookup_alter_eq, lookup_insert_eq. reflexivity.
  - apply lookup_insert_eq.
Qed.

(** X23: a packet that [is_allowed] refuses is not written and not counted
    as traffic, but it is charged to the destination like a packet that was
    sent. *)
Theorem sendto_forbidden (self : nat) (data : string) (destination : SockAddr) (st : State)
    (s : TunnelExitSocket) :
  sockets st !! self = Some s ->
  default 0 (es_ips s !! destination) < max_packets_without_reply (settings st) ->
  is_allowed data = false ->
  sendto self data destination st =
  (Return tt, set_sockets (<[self := charge destination false s]> (sockets st)) st).
Proof.
  intros Hs Hlt Hok. unfold sendto, bind.
  rewrite (check_num_packets_passes st self s destination false Hs Hlt).
  rewrite Hok. reflexivity.
Qed.

Lemma remove_exit_socket_stats c info destroy st :
  stats (remove_exit_socket c info destroy st) = stats st.
Proof.
  unfold remove_exit_socket. destruct (exit_sockets st !! c); [|reflexivity].
  set (st1 := if destroy then destroy_exit_socket c st else st).
  assert (H1 : stats st1 = stats st).
  { subst st1. destruct destroy; [|reflexivity]. unfold destroy_exit_socket.
    repeat case_match; reflexivity. }
  destruct (sock_enabled _ _); simpl; exact H1.
Qed.

(** [check_num_packets] touches the counters of the object only. *)
Lemma check_num_packets_bytes st self s ip (incoming : bool) :
  sockets st !! self = Some s ->
  let r := check_num_packets self ip incoming st in
  stats (snd r) = stats st /\
  exists s', sockets (snd r) !! self = Some s' /\
    es_bytes_up s' = es_bytes_up s /\ es_bytes_down s' = es_bytes_down s /\
    es_circuit_id s' = es_circuit_id s /\ es_sock_addr s' = es_sock_addr s.
Proof.
  intros Hs r. subst r. unfold check_num_packets. rewrite Hs. unfold ips_read.
  set (n := default 0 (es_ips s !! ip)). simpl.
  destruct (n <? 0); simpl.
  - split; [reflexivity|]. eexists. rewrite lookup_insert_eq. repeat split.
  - case_match; simpl.
    + split; [rewrite remove_exit_socket_stats; reflexivity|].
      match goal with
      | |- context [remove_exit_socket ?c ?i ?d ?st0] =>
          destruct (remove_exit_socket_object c i d st0 self
                      (es_set_ips (<[ip:=n]> (es_ips s)) s)) as [s' [Hs' Hor]]
      end.
      { simpl. apply lookup_insert_eq. }
      exists s'. split; [exact Hs'|].
      destruct Hor as [->| ->]; [repeat split|].
      unfold close. destruct (enabled _); repeat split.
    + split; [reflexivity|]. eexists. rewrite lookup_insert_eq. repeat split.
Qed.

(** Sending data changes keys and the outbox, not the exit sockets. *)
Lemma send_data_exit_view candidates message_type packet st :
  sockets (snd (send_data candidates message_type packet st)) = sockets st /\
  stats (snd (send_data candidates message_type packet st)) = stats st.
Proof.
  unfold send_data.
  destruct (decode_data packet) as [[[circuit_id ?] ?] ?].
  destruct (split_encrypted_packet packet message_type) as [plaintext encrypted].
  unfold bind, catch_crypto, crypto_out, ret, lift, send_packet.
  repeat case_match; simplify_eq; simpl; split; reflexivity.
Qed.

(** X24: every datagram that reaches an exit socket is counted, whether it
    is passed on or dropped: its length is added to [bytes_down] of the
    socket and to [stats['bytes_enter']], and [bytes_up] stays. *)
Theorem datagramReceived_counts (self : nat) (data : string) (source : SockAddr)
    (st : State) (s : TunnelExitSocket) :
  sockets st !! self = Some s ->
  let st' := snd (datagramReceived self data source st) in
  stats st' !! "bytes_enter"%string =
    Some (default 0 (stats st !! "bytes_enter"%string) + len data) /\
  exists s', sockets st' !! self = Some s' /\
    es_bytes_down s' = es_bytes_down s + len data /\ es_bytes_up s' = es_bytes_up s.
Proof.
  intros Hs st'. subst st'. unfold datagramReceived, bind, modify, lift.
  set (st0 := increase_bytes_received_exit self (len data) st).
  assert (Hs0 : sockets st0 !! self = Some (es_add_bytes_down (len data) s)).
  { subst st0. unfold increase_bytes_received_exit, stats_add. simpl.
    rewrite lookup_alter_eq, Hs. reflexivity. }
  assert (Hst0 : stats st0 !! "bytes_enter"%string =
                 Some (default 0 (stats st !! "bytes_enter"%string) + len data)).
  { subst st0. unfold increase_bytes_received_exit, stats_add. simpl. apply lookup_insert_eq. }
  destruct (check_num_packets_bytes st0 self _ source true Hs0)
    as (Hstats & s' & Hs' & Hup & Hdown & _).
  destruct (check_num_packets self source true st0) as [ok st1]. simpl in *.
  assert (Hend : stats st1 !! "bytes_enter"%string =
                   Some (default 0 (stats st !! "bytes_enter"%string) + len data) /\
                 exists s', sockets st1 !! self = Some s' /\
                   es_bytes_down s' = es_bytes_down s + len data /\
                   es_bytes_up s' = es_bytes_up s).
  { split; [rewrite Hstats; exact Hst0|]. exists s'. auto. }
  destruct ok; [|exact Hend]. simpl.
  destruct (is_allowed data); [|exact Hend].
  unfold gets. simpl. rewrite Hs'. unfold tunnel_data_to_origin, bind.
  match goal with
  | |- context [send_data ?a ?b ?c ?d] =>
      destruct (send_data_exit_view a b c d) as [Hsock Hstat];
      destruct (send_data a b c d) as [o st2]
  end.
  simpl in *. destruct o; simpl; rewrite Hsock, Hstat; exact Hend.
Qed.

(** X25: a reply from the internet that passes the counter and is allowed
    is passed on to the previous hop of the circuit as one [data] packet,
    encrypted with the session keys of the circuit in the direction of the
    originator; the explicit salt is used up and the counter of the source
    is reset to -1. *)
Theorem datagramReceived_forwards (self : nat) (data : string) (source : SockAddr)
    (st : State) (s : TunnelExitSocket) (keys : SessionKeys) :
  sockets st !! self = Some s ->
  0 <= default 0 (es_ips s !! source) <= max_packets_without_reply (settings st) ->
  is_allowed data = true ->
  let packet := encode_data (es_circuit_id s) ("0.0.0.0"%string, 0) source data in
  (decode_data packet).1.1.1 = es_circuit_id s ->
  circuits st !! es_circuit_id s = None ->
  relay_session_keys st !! es_circuit_id s = Some keys ->
  let r := datagramReceived self data source st in
  fst r = Return tt /\
  outbox (snd r) =
    SentPacket [es_sock_addr s] "data"
      ((split_encrypted_packet packet "data").1 +:+
       (encrypt_with keys ORIGINATOR (split_encrypted_packet packet "data").2).2)
    :: outbox st /\
  relay_session_keys (snd r) =
    <[es_circuit_id s := sk_bump keys ORIGINATOR]> (relay_session_keys st) /\
  (exists s', sockets (snd r) !! self = Some s' /\ es_ips s' !! source = Some (-1)).
Proof.
  intros Hs [Hpos Hlim] Hok packet Hcid Hown Hkeys r. subst r.
  unfold datagramReceived, bind, modify, lift.
  set (st0 := increase_bytes_received_exit self (len data) st).
  assert (Hs0 : sockets st0 !! self = Some (es_add_bytes_down (len data) s)).
  { subst st0. unfold increase_bytes_received_exit, stats_add. simpl.
    rewrite lookup_alter_eq, Hs. reflexivity. }
  rewrite (check_num_packets_passes st0 self _ source true Hs0) by (simpl; lia).
  simpl. rewrite Hok. unfold gets. simpl. rewrite lookup_insert_eq.
  unfold tunnel_data_to_origin, bind, send_data. simpl. fold packet.
  destruct (decode_data packet) as [[[circuit_id d] o] p] eqn:Hdec.
  simpl in Hcid. subst circuit_id.
  destruct (split_encrypted_packet packet "data") as [plaintext encrypted].
  unfold bind, catch_crypto, crypto_out. simpl. rewrite Hown, Hkeys.
  unfold encrypt_with, get_session_keys. simpl.
  split; [reflexivity|]. split; [reflexivity|]. split; [reflexivity|].
  eexists. rewrite lookup_insert_eq. split; [reflexivity|].
  unfold charge. simpl. rewrite lookup_insert_eq.
  rewrite (proj2 (Z.ltb_ge _ _) Hpos). reflexivity.
Qed.

Lemma catch_all_returns (m : M unit) st :
  fst (catch_all m (ret tt) st) = Return tt.
Proof. unfold catch_all. destruct (m st) as [[[]|e] st']; reflexivity. Qed.

(** X26: [exit_data] raises in two cases only, both before the socket of
    the circuit is enabled: the node is willing to exit the data, the
    circuit has an exit socket that is not enabled yet, and either the
    sender is not the address the socket was created for (the failing
    [assert]) or the reactor cannot open a port ([enable()], which is called
    before the [try]).  The state is then as before.  In every other case
    [exit_data] returns, whatever goes wrong while sending. *)
Theorem exit_data_outcome (listen : option Z) (circuit_id : Z)
    (sock_addr destination : SockAddr) (data : string) (st : State) :
  let r := exit_data listen circuit_id sock_addr destination data st in
  let not_enabled :=
    (become_exitnode (settings st) || could_be_dispersy data = true) /\
    exists ref s, exit_sockets st !! circuit_id = Some ref /\ sockets st !! ref = Some s /\
                  enabled s = false /\ (sock_addr <> es_sock_addr s \/ listen = None) in
  (not_enabled /\ r = (Raise OtherError, st)) \/ (~ not_enabled /\ fst r = Return tt).
Proof.
  intros r not_enabled. subst r not_enabled. unfold exit_data, bind, gets.
  destruct (negb (become_exitnode (settings st)) && negb (could_be_dispersy data)) eqn:Hrefuse.
  { right. split; [|reflexivity]. intros [Hw _].
    destruct (become_exitnode (settings st)), (could_be_dispersy data); discriminate. }
  assert (Hwill : become_exitnode (settings st) || could_be_dispersy data = true)
    by (destruct (become_exitnode (settings st)), (could_be_dispersy data);
        simpl in *; congruence).
  destruct (exit_sockets st !! circuit_id) as [ref|] eqn:He;
    [|right; split; [intros [_ (? & ? & ? & _)]; discriminate | reflexivity]].
  destruct (sockets st !! ref) as [s|] eqn:Hs;
    [|right; split; [intros [_ (? & ? & ? & ? & _)]; congruence | reflexivity]].
  destruct (enabled s) eqn:Hen;
    [right; split; [intros [_ (? & ? & ? & ? & ? & _)]; congruence
                   | apply catch_all_returns]|].
  case_bool_decide as Hfrom.
  - unfold enable. rewrite Hen. destruct listen as [port|].
    + right. split; [|unfold modify; apply catch_all_returns].
      intros [_ (ref' & s' & He' & Hs' & _ & [Hx|Hx])]; [congruence | discriminate].
    + left. unfold raise. split; [|reflexivity]. split; [exact Hwill|].
      exists ref, s. auto.
  - left. unfold raise. split; [|reflexivity]. split; [exact Hwill|].
    exists ref, s. auto.
Qed.

(** X27: the first data for a circuit, from the address the exit socket was
    created for, enables the socket on the port the reactor hands out and
    is written to the destination through it. *)
Theorem exit_data_first_packet (port circuit_id : Z) (destination : SockAddr)
    (data : string) (st : State) (ref : nat) (s : TunnelExitSocket) (ip : string) :
  become_exitnode (settings st) || could_be_dispersy data = true ->
  exit_sockets st !! circuit_id = Some ref ->
  sockets st !! ref = Some s ->
  enabled s = false ->
  default 0 (es_ips s !! destination) < max_packets_without_reply (settings st) ->
  is_allowed data = true ->
  (if is_valid_address destination then Some destination.1
   else gethostbyname destination.1) = Some ip ->
  transport_write data (ip, destination.2) = true ->
  let r := exit_data (Some port) circuit_id (es_sock_addr s) destination data st in
  fst r = Return tt /\
  outbox (snd r) = SentDatagram ref data (ip, destination.2) :: outbox st /\
  exists s', sockets (snd r) !! ref = Some s' /\ es_port s' = Some port /\
             es_bytes_up s' = es_bytes_up s + len data.
Proof.
  intros Hwill He Hs Hen Hlt Hok Hip Hw r. subst r. unfold exit_data, bind, gets.
  assert (Hrefuse : negb (become_exitnode (settings st)) && negb (could_be_dispersy data)
                    = false).
  { destruct (become_exitnode (settings st)), (could_be_dispersy data);
      simpl in *; congruence. }
  rewrite Hrefuse, He, Hs, Hen. rewrite bool_decide_eq_true_2 by reflexivity.
  unfold enable. rewrite Hen. unfold modify, catch_all.
  set (s1 := es_set_port (Some port) s).
  set (st1 := set_sockets (<[ref := s1]> (sockets st)) st).
  assert (Hs1 : sockets st1 !! ref = Some s1) by (subst st1; simpl; apply lookup_insert_eq).
  assert (Hen1 : enabled s1 = true) by reflexivity.
  rewrite (sendto_written ref data destination st1 s1 ip Hs1 Hen1) by assumption.
  unfold increase_bytes_sent_exit, stats_add. simpl.
  split; [reflexivity|]. split; [reflexivity|].
  eexists. rewrite lookup_alter_eq, lookup_insert_eq. simpl. split; [reflexivity|].
  split; reflexivity.
Qed.

End ExitTraffic.

Lemma sendto_writes_witness :
  outbox (snd (sendto 0%nat "hello" addr_x enabled_exit_state)) =
    [SentDatagram 0%nat "hello" addr_x].
Proof.
  destruct (sendto_writes 0%nat "hello" addr_x enabled_exit_state
              (es_set_port (Some 4242) (new_exit_socket 7 addr_a None 0)) "203.0.113.9")
    as (_ & H2 & _); [reflexivity ..|].
  exact H2.
Defined.

Lemma sendto_forbidden_witness :
  outbox (snd (@sendto picky_collaborators 0%nat "forbidden" addr_x picky_exit_state)) = [] /\
  counter 0%nat addr_x
    (snd (@sendto picky_collaborators 0%nat "forbidden" addr_x picky_exit_state)) = 1.
Proof.
  rewrite (@sendto_forbidden picky_collaborators 0%nat "forbidden" addr_x picky_exit_state
             (es_set_port (Some 4242) (new_exit_socket 7 addr_a None 0)) eq_refl eq_refl eq_refl).
  split; reflexivity.
Defined.

Lemma datagramReceived_counts_witness :
  stats (snd (datagramReceived 0%nat "reply" addr_x enabled_exit_state)) !! "bytes_enter"%string
  = Some 5.
Proof.
  destruct (datagramReceived_counts 0%nat "reply" addr_x enabled_exit_state
              (es_set_port (Some 4242) (new_exit_socket 7 addr_a None 0))) as [H1 _]; [reflexivity|].
  exact H1.
Defined.

Lemma datagramReceived_forwards_witness :
  outbox (snd (datagramReceived 0%nat "reply" addr_x enabled_exit_state)) =
    [SentPacket [addr_a] "data" "c7-koc7-soreply"].
Proof.
  destruct (datagramReceived_forwards 0%nat "reply" addr_x enabled_exit_state
              (es_set_port (Some 4242) (new_exit_socket 7 addr_a None 0)) (test_keys "c7"))
    as (_ & H2 & _); [reflexivity | vm_compute; split; discriminate | reflexivity ..|].
  exact H2.
Defined.

Lemma exit_data_first_packet_witness :
  outbox (snd (exit_data (Some 4242) 7 addr_a addr_x "hello" willing_exit_state)) =
    [SentDatagram 0%nat "hello" addr_x].
Proof.
  destruct (exit_data_first_packet 4242 7 addr_x "hello" willing_exit_state 0%nat
              (new_exit_socket 7 addr_a None 0) "203.0.113.9")
    as (_ & H2 & _); [reflexivity ..|].
  exact H2.
Defined.

(** The two ways out of [exit_data]: a sender that is not the recorded one,
    and a reactor that cannot open a port. *)
Example exit_data_wrong_sender :
  exit_data (Some 4242) 7 addr_x addr_x "hello" willing_exit_state =
  (Raise OtherError, willing_exit_state).
Proof. vm_compute. reflexivity. Qed.

Example exit_data_reactor_refuses :
  exit_data None 7 addr_a addr_x "hello" willing_exit_state =
  (Raise OtherError, willing_exit_state).
Proof. vm_compute. reflexivity. Qed.

Section SelectionProperties.
Context `{Around : Surroundings}.

Lemma sorted_keys_Permutation (d : gmap Z Circuit) : sorted_keys d ≡ₚ (map_to_list d).*1.
Proof. unfold sorted_keys. apply merge_sort_Permutation. Qed.

Lemma sorted_keys_length (d : gmap Z Circuit) : length (sorted_keys d) = size d.
Proof.
  rewrite (Permutation_length (sorted_keys_Permutation d)), length_fmap.
  apply length_map_to_list.
Qed.

Lemma sorted_keys_nil (d : gmap Z Circuit) : sorted_keys d = [] <-> d = ∅.
Proof.
  rewrite <- map_size_empty_iff, <- sorted_keys_length. split.
  - intros ->. reflexivity.
  - apply nil_length_inv.
Qed.

(** One call of [select] that is not answered by a pinned circuit. *)
Lemma select_unpinned destination hops index st :
  pinned_circuit destination st = None ->
  active_data_circuits hops st <> ∅ ->
  let n := Z.of_nat (size (active_data_circuits hops st)) in
  select destination hops index st =
  (nth_choice hops st ((index + 1) `mod` n), (index + 1) `mod` n).
Proof.
  intros Hpin Hne n. subst n. unfold select, nth_choice. rewrite Hpin.
  rewrite <- sorted_keys_length.
  destruct (sorted_keys (active_data_circuits hops st)) as [|k ids] eqn:E.
  - exfalso. apply Hne. apply sorted_keys_nil. exact E.
  - cbv zeta. destruct ((k :: ids) !! _); reflexivity.
Qed.

Lemma active_for_hops_is_active hops st circuit_id c :
  active_data_circuits hops st !! circuit_id = Some c ->
  active_data_circuits None st !! circuit_id = Some c.
Proof.
  unfold active_data_circuits. rewrite !map_lookup_filter_Some. simpl.
  intros (Hl & Hs & Ht & _). auto.
Qed.

Lemma nth_choice_in_range hops st j :
  0 <= j < Z.of_nat (size (active_data_circuits hops st)) ->
  exists circuit_id c,
    sorted_keys (active_data_circuits hops st) !! Z.to_nat j = Some circuit_id /\
    active_data_circuits hops st !! circuit_id = Some c /\
    nth_choice hops st j = Some c.
Proof.
  intros Hj. unfold nth_choice.
  destruct (lookup_lt_is_Some_2 (sorted_keys (active_data_circuits hops st)) (Z.to_nat j))
    as [circuit_id Hid]; [rewrite sorted_keys_length; lia|].
  rewrite Hid.
  assert (Hin : circuit_id ∈ (map_to_list (active_data_circuits hops st)).*1).
  { rewrite <- sorted_keys_Permutation. eapply list_elem_of_lookup_2. exact Hid. }
  apply list_elem_of_fmap in Hin as [[k c] [-> Hin]]. apply elem_of_map_to_list in Hin.
  exists k, c. split; [reflexivity|]. split; [exact Hin|].
  eapply active_for_hops_is_active. exact Hin.
Qed.

(** X28: when no pinned circuit answers, [select] returns [None] exactly
    when there is no active data circuit with the hop count asked for;
    otherwise it returns one of these circuits and leaves the index of the
    selector inside the sorted list of their ids. *)
Theorem select_sound (destination : option SockAddr) (hops : option nat) (index : Z)
    (st : State) :
  pinned_circuit destination st = None ->
  let r := select destination hops index st in
  (fst r = None <-> active_data_circuits hops st = ∅) /\
  (forall c, fst r = Some c ->
     c_state c = CIRCUIT_STATE_READY /\ c_ctype c = CIRCUIT_TYPE_DATA /\
     (hops = None \/ hops = Some (length (c_hops c))) /\
     (exists circuit_id, circuits st !! circuit_id = Some c) /\
     0 <= snd r < Z.of_nat (size (active_data_circuits hops st))).
Proof.
  intros Hpin r. subst r.
  destruct (decide (active_data_circuits hops st = ∅)) as [Hempty|Hne].
  - assert (Hsel : select destination hops index st = (None, index)).
    { unfold select. rewrite Hpin.
      rewrite (proj2 (sorted_keys_nil _) Hempty). reflexivity. }
    rewrite Hsel. simpl. split; [tauto | discriminate].
  - rewrite (select_unpinned destination hops index st Hpin Hne). simpl.
    set (n := Z.of_nat (size (active_data_circuits hops st))).
    assert (Hn : 0 < n).
    { subst n. destruct (size (active_data_circuits hops st)) eqn:E; [|lia].
      apply map_size_empty_iff in E. contradiction. }
    assert (Hj : 0 <= (index + 1) `mod` n < n) by (apply Z.mod_pos_bound; exact Hn).
    destruct (nth_choice_in_range hops st _ Hj) as (circuit_id & c & _ & Hc & ->).
    split; [split; [discriminate | contradiction]|].
    intros c0 [= <-].
    unfold active_data_circuits in Hc. apply map_lookup_filter_Some in Hc as [Hl (Hs & Ht & Hh)].
    simpl in *. eauto 10.
Qed.

Lemma select_many_unpinned destination hops st :
  pinned_circuit destination st = None ->
  active_data_circuits hops st <> ∅ ->
  let n := Z.of_nat (size (active_data_circuits hops st)) in
  forall k index,
    fst (select_many k destination hops index st) =
    (fun t : nat => nth_choice hops st ((index + Z.of_nat t) `mod` n)) <$> seq 1 k.
Proof.
  intros Hpin Hne n k. induction k as [|k IH]; intros index; [reflexivity|].
  cbn [select_many]. rewrite (select_unpinned destination hops index st Hpin Hne). fold n.
  specialize (IH ((index + 1) `mod` n)).
  destruct (select_many k destination hops ((index + 1) `mod` n) st) as [choices index2].
  simpl in *. rewrite IH. f_equal. rewrite <- (fmap_S_seq 1), <- list_fmap_compose.
  apply list_fmap_ext. intros _ t _. simpl. f_equal.
  rewrite Zplus_mod_idemp_l. f_equal. lia.
Qed.

Lemma rotated_positions (n : nat) (index : Z) :
  (fun t : nat => (index + Z.of_nat t) `mod` Z.of_nat n) <$> seq 1 n ≡ₚ Z.of_nat <$> seq 0 n.
Proof.
  destruct n as [|n']; [reflexivity|]. set (n := S n').
  apply submseteq_length_Permutation; [|rewrite !length_fmap, !length_seq; lia].
  apply NoDup_submseteq.
  - apply NoDup_fmap_2_strong; [|apply NoDup_seq].
    intros a b Ha Hb Heq. apply elem_of_seq in Ha, Hb.
    assert (Hd : (Z.of_nat a - Z.of_nat b) `mod` Z.of_nat n = 0).
    { replace (Z.of_nat a - Z.of_nat b) with ((index + Z.of_nat a) - (index + Z.of_nat b)) by lia.
      rewrite Zminus_mod, Heq, Z.sub_diag. apply Z.mod_0_l. lia. }
    apply Z.mod_divide in Hd; [|lia]. destruct Hd as [q Hq].
    assert (q = 0) by nia. lia.
  - intros x [t [-> Ht]]%list_elem_of_fmap.
    assert (Hb : 0 <= (index + Z.of_nat t) `mod` Z.of_nat n < Z.of_nat n)
      by (apply Z.mod_pos_bound; lia).
    apply list_elem_of_fmap. exists (Z.to_nat ((index + Z.of_nat t) `mod` Z.of_nat n)).
    split; [lia|]. apply elem_of_seq. lia.
Qed.

Lemma choices_by_position hops st :
  nth_choice hops st <$> (Z.of_nat <$> seq 0 (size (active_data_circuits hops st))) =
  (fun circuit_id => active_data_circuits None st !! circuit_id) <$>
    sorted_keys (active_data_circuits hops st).
Proof.
  rewrite <- sorted_keys_length. unfold nth_choice.
  set (ids := sorted_keys (active_data_circuits hops st)).
  apply list_eq. intros i. rewrite !list_lookup_fmap.
  destruct (decide (i < length ids)%nat) as [Hlt|Hge].
  - rewrite lookup_seq_lt by exact Hlt. simpl. rewrite Nat2Z.id.
    destruct (lookup_lt_is_Some_2 ids i Hlt) as [x Hx]. rewrite Hx. reflexivity.
  - rewrite lookup_seq_ge by lia. rewrite lookup_ge_None_2 by lia. reflexivity.
Qed.

Lemma values_by_key hops st (l : list (Z * Circuit)) :
  (forall kv, kv ∈ l -> active_data_circuits hops st !! kv.1 = Some kv.2) ->
  (fun circuit_id => active_data_circuits None st !! circuit_id) <$> l.*1 = Some <$> l.*2.
Proof.
  induction l as [|[k c] l IH]; intros Hall; [reflexivity|]. simpl.
  rewrite (active_for_hops_is_active hops st k c) by (apply (Hall (k, c)); left).
  f_equal. apply IH. intros kv Hin. apply Hall. right. exact Hin.
Qed.

(** X29: round robin is fair.  With [n] active data circuits of the hop
    count asked for and no pinned circuit, [n] calls of [select] in a row
    return each of these circuits exactly once, wherever the index of the
    selector stood. *)
Theorem select_round_robin (destination : option SockAddr) (hops : option nat) (index : Z)
    (st : State) :
  pinned_circuit destination st = None ->
  fst (select_many (size (active_data_circuits hops st)) destination hops index st)
  ≡ₚ Some <$> (map_to_list (active_data_circuits hops st)).*2.
Proof.
  intros Hpin.
  destruct (decide (active_data_circuits hops st = ∅)) as [Hempty|Hne].
  - rewrite Hempty, map_size_empty, map_to_list_empty. reflexivity.
  - rewrite (select_many_unpinned destination hops st Hpin Hne).
    set (N := size (active_data_circuits hops st)).
    assert (Hc : (fun t : nat => nth_choice hops st ((index + Z.of_nat t) `mod` Z.of_nat N))
                   <$> seq 1 N =
                 nth_choice hops st <$>
                   ((fun t : nat => (index + Z.of_nat t) `mod` Z.of_nat N) <$> seq 1 N))
      by (rewrite <- list_fmap_compose; reflexivity).
    rewrite Hc, rotated_positions. subst N.
    rewrite choices_by_position, sorted_keys_Permutation.
    rewrite (values_by_key hops st); [reflexivity|].
    intros [k c] Hin. apply elem_of_map_to_list. exact Hin.
Qed.

End SelectionProperties.

Lemma select_sound_witness :
  fst (select None (Some 1%nat) (-1) three_circuits_state) = None <->
  active_data_circuits (Some 1%nat) three_circuits_state = ∅.
Proof.
  destruct (select_sound None (Some 1%nat) (-1) three_circuits_state eq_refl) as [H _].
  exact H.
Defined.

Lemma select_round_robin_witness :
  fst (select_many (size (active_data_circuits None three_circuits_state)) None None 1
         three_circuits_state)
  ≡ₚ Some <$> (map_to_list (active_data_circuits None three_circuits_state)).*2.
Proof. exact (select_round_robin None None 1 three_circuits_state eq_refl). Defined.

Example select_in_sorted_order :
  fst (select_many 4 None None (-1) three_circuits_state) =
  [Some (ready_circuit 1); Some (ready_circuit 2); Some (ready_circuit 3);
   Some (ready_circuit 1)].
Proof. vm_compute. reflexivity. Qed.

Section Shutdown.
Context `{Around : Surroundings}.

(** A loop that deletes the key it is given from a table. *)
Lemma delete_all_lookup {K V} `{Countable K} (tbl : State -> gmap K V)
    (step : State -> K -> State) :
  (forall st k, tbl (step st k) = delete k (tbl st)) ->
  forall l st i,
    tbl (foldl step st l) !! i = if decide (i ∈ l) then None else tbl st !! i.
Proof.
  intros Hstep l. induction l as [|x l IH]; intros st i; simpl.
  - destruct (decide (i ∈ [])) as [Hin|_]; [inversion Hin | reflexivity].
  - rewrite IH, Hstep. destruct (decide (i ∈ l)) as [Hin|Hnin].
    + rewrite decide_True by (right; exact Hin). reflexivity.
    + destruct (decide (x = i)) as [->|Hne].
      * rewrite decide_True by left. apply lookup_delete_eq.
      * rewrite decide_False by (intros [->|?]%elem_of_cons; tauto).
        apply lookup_delete_ne. exact Hne.
Qed.

Lemma delete_all_keys {K V} `{Countable K} (tbl : State -> gmap K V)
    (step : State -> K -> State) st :
  (forall st k, tbl (step st k) = delete k (tbl st)) ->
  tbl (foldl step st (map_to_list (tbl st)).*1) = ∅.
Proof.
  intros Hstep. apply map_empty. intros i.
  rewrite (delete_all_lookup tbl step Hstep).
  destruct (decide (i ∈ (map_to_list (tbl st)).*1)) as [_|Hnin]; [reflexivity|].
  destruct (tbl st !! i) as [v|] eqn:E; [|reflexivity].
  exfalso. apply Hnin. apply list_elem_of_fmap. exists (i, v).
  split; [reflexivity | apply elem_of_map_to_list; exact E].
Qed.

Lemma remove_circuit_deletes c info destroy st :
  circuits (snd (remove_circuit c info destroy st)) = delete c (circuits st).
Proof.
  unfold remove_circuit. destruct (circuits st !! c) eqn:E; simpl.
  - destruct destroy; [|reflexivity]. unfold destroy_circuit. rewrite E. reflexivity.
  - symmetry. apply delete_id. exact E.
Qed.

Lemma remove_relay_deletes k info destroy from st :
  relay_from_to (remove_relay k info destroy from false st) = delete k (relay_from_to st).
Proof.
  apply map_eq. intros i. rewrite remove_relay_table.
  destruct (decide (i ∈ [k])) as [Hin|Hnin].
  - apply list_elem_of_singleton in Hin as ->. symmetry. apply lookup_delete_eq.
  - symmetry. apply lookup_delete_ne. intros ->. apply Hnin. left.
Qed.

Lemma remove_relay_circuits k info destroy from both st :
  circuits (remove_relay k info destroy from both st) = circuits st.
Proof.
  unfold remove_relay. rewrite (foldl_frame circuits).
  - destruct destroy; [|reflexivity].
    apply (only_outbox_fields _ _ (only_outbox_destroy_relay _ from st)).
  - intros ? ?. unfold remove_relay_entry. repeat case_match; reflexivity.
Qed.

Lemma remove_exit_socket_others c info destroy st :
  circuits (remove_exit_socket c info destroy st) = circuits st /\
  relay_from_to (remove_exit_socket c info destroy st) = relay_from_to st.
Proof.
  unfold remove_exit_socket. destruct (exit_sockets st !! c); [|split; reflexivity].
  set (st1 := if destroy then destroy_exit_socket c st else st).
  assert (H1 : circuits st1 = circuits st /\ relay_from_to st1 = relay_from_to st).
  { subst st1. destruct destroy; [|split; reflexivity].
    pose proof (only_outbox_fields _ _ (only_outbox_destroy_exit_socket c st))
      as (_ & ? & ? & _). auto. }
  destruct (sock_enabled _ _); simpl; exact H1.
Qed.

(** X30: after [unload_community] the node holds no own circuit, no relay
    entry and no exit socket. *)
Theorem unload_community_empties (st : State) :
  circuits (unload_community st) = ∅ /\
  relay_from_to (unload_community st) = ∅ /\
  exit_sockets (unload_community st) = ∅.
Proof.
  unfold unload_community.
  set (st0 := set_ext (socks_server_stop (ext st)) st).
  set (step1 := fun s circuit_id => snd (remove_circuit circuit_id "" true s)).
  set (step2 := fun s circuit_id => remove_relay circuit_id "" true None false s).
  set (step3 := fun s circuit_id => remove_exit_socket circuit_id "" true s).
  set (st1 := foldl step1 st0 (map_to_list (circuits st0)).*1).
  set (st2 := foldl step2 st1 (map_to_list (relay_from_to st1)).*1).
  set (st3 := foldl step3 st2 (map_to_list (exit_sockets st2)).*1).
  cbn [circuits relay_from_to exit_sockets set_ext].
  assert (H1 : circuits st1 = ∅).
  { apply (delete_all_keys circuits step1). intros. apply remove_circuit_deletes. }
  assert (H2 : relay_from_to st2 = ∅).
  { apply (delete_all_keys relay_from_to step2). intros. apply remove_relay_deletes. }
  assert (H3 : exit_sockets st3 = ∅).
  { apply (delete_all_keys exit_sockets step3). intros.
    apply remove_exit_socket_exit_sockets. }
  assert (H12 : circuits st2 = circuits st1).
  { apply (foldl_frame circuits). intros. apply remove_relay_circuits. }
  assert (H13 : circuits st3 = circuits st2 /\ relay_from_to st3 = relay_from_to st2).
  { split; [apply (foldl_frame circuits) | apply (foldl_frame relay_from_to)];
      intros; apply remove_exit_socket_others. }
  destruct H13 as [H13 H23].
  split; [congruence|]. split; [congruence | exact H3].
Qed.

End Shutdown.
